(** * naghelp.collect: the expect step engine and the result filter

    A shallow embedding of the parts of [naghelp/collect.py] that drive an
    interactive session: [_raise_unexpected_result], [_filter_result],
    [Expect._expect_pattern_rewrite], [Expect._expect_steps], [Expect.close],
    [Expect._run_cmd], [Expect.run], [Expect.mrun] and
    [Telnet._normalize_pattern]; and of the local commands
    ([runshex], [runsh], [mrunsh], [is_ping_ok]), [search_invalid_port],
    [Snmp.get_oid_range] and [Http._get], [Http.get], [Http.mget].

    Conventions.
    - A Python [str] and a Python [bytes] are both sequences of 8-bit
      characters ([string]); the text is taken to be ASCII, so that
      [encode]/[decode] do not change the characters.  The two Python types
      are kept apart by the constructors of [pyobj].
    - Exceptions are values of [exn]; a computation returns [res A].
    - The libraries the module calls ([re], [textops], [pexpect],
      [str.format]) are not part of the repository.  The regular-expression
      engine and [textops] are parameters of the development ([re_error]
      tells which [str] [re.compile] refuses); the spawned [pexpect] child
      is a script of read outcomes, read under the 30 seconds of [pexpect]
      and the alarm of [Timeout]. *)

From Stdlib Require Import String Ascii List ZArith Lia Bool.
From stdpp Require Import gmap strings list pretty.

(** ** Characters and strings *)

Definition chr (n : nat) : ascii := ascii_of_nat n.
Definition LF : ascii := chr 10.
Definition CR : ascii := chr 13.
Definition DQUOTE : ascii := chr 34.

Definition str1 (c : ascii) : string := String c EmptyString.

(** [s[-1]] and [s[:-1]] for a non-empty [s]. *)
Fixpoint last_char (s : string) : option ascii :=
  match s with
  | EmptyString => None
  | String c EmptyString => Some c
  | String _ s' => last_char s'
  end.

Fixpoint drop_last (s : string) : string :=
  match s with
  | EmptyString => EmptyString
  | String _ EmptyString => EmptyString
  | String c s' => String c (drop_last s')
  end.

(** The line boundaries of [str.splitlines] among ASCII characters:
    LF, VT, FF, CR, FS, GS, RS (and CR LF counts once). *)
Definition is_linebreak (c : ascii) : bool :=
  let n := nat_of_ascii c in
  (n =? 10)%nat || (n =? 11)%nat || (n =? 12)%nat || (n =? 13)%nat
  || (n =? 28)%nat || (n =? 29)%nat || (n =? 30)%nat.

Definition rev_string (s : string) : string :=
  string_of_list_ascii (rev (list_ascii_of_string s)).

(** [splitlines_from cur s]: [cur] is the current line, reversed. *)
Fixpoint splitlines_from (cur : string) (s : string) : list string :=
  match s with
  | EmptyString =>
      match cur with EmptyString => [] | _ => [rev_string cur] end
  | String c s' =>
      if is_linebreak c then
        match s' with
        | String c' s'' =>
            if Ascii.eqb c CR && Ascii.eqb c' LF
            then rev_string cur :: splitlines_from EmptyString s''
            else rev_string cur :: splitlines_from EmptyString s'
        | EmptyString => [rev_string cur]
        end
      else splitlines_from (String c cur) s'
  end.

Definition splitlines (s : string) : list string := splitlines_from EmptyString s.

Definition join (sep : string) (l : list string) : string := String.concat sep l.

(** ** Exceptions and results *)

Inductive exn : Type :=
| CollectError (msg : string)
| NotConnected (msg : string)
| ConnectionError (msg : string)
| UnexpectedResultError (msg : string)
| TimeoutError (msg : string)
| PexpectEOF
| PexpectTIMEOUT
| TypeError (msg : string)
| AttributeError (msg : string)
| IndexError (msg : string)
| OtherError (msg : string)
| ReError (msg : string).

Inductive res (A : Type) : Type :=
| Ok (a : A)
| Raise (e : exn).
Arguments Ok {A} a.
Arguments Raise {A} e.

(** ** Patterns *)

(** A compiled regular expression: the object [re.compile(pattern, flags)]
    returns when it returns one. *)
Record regex : Type := Regex { pattern : string; flags : Z }.

(** The object [re.compile(s)] returns for an [s] that it accepts. *)
Definition compiled (s : string) : regex := Regex s 0.

(** The [expected_pattern] / [unexpected_pattern] arguments:
    [None], a [str], or a compiled regular expression. *)
Inductive pat_arg : Type :=
| PNone
| PStr (s : string)
| PRe (r : regex).

(** Python truth value of a pattern argument. *)
Definition pat_truthy (p : pat_arg) : bool :=
  match p with
  | PNone => false
  | PStr EmptyString => false
  | PStr _ => true
  | PRe _ => true
  end.

(** The pattern the tests read: a [str] once compiled, a pattern object
    as it is.  Whether a [str] compiles is settled by [re_compile] in the
    filter, before any test. *)
Definition pat_compile (p : pat_arg) : regex :=
  match p with
  | PStr s => compiled s
  | PRe r => r
  | PNone => compiled EmptyString
  end.

(** A filter function receives [result, key, cmd]; it returns [None] (no
    [return] statement) or a replacement, or raises. *)
Definition filter_fn : Type := string -> string -> option string -> res (option string).

(** ['%s' % cmd] and [.format(cmd)] of a command that may be [None]. *)
Definition str_of_cmd (cmd : option string) : string :=
  match cmd with
  | None => "None"
  | Some s => s
  end.

Definition timeout_sentinel : string := "<timeout>".

(** ** The result filter *)

Section ResultValidator.

(** [re.compile(s)] raises [re.error] on a [str] that is no regular
    expression: [re_error s] is then the message, and [None] when [s]
    compiles. *)
Variable re_error : string -> option string.
(** [result | textops.haspattern(regex)] on a [str]. *)
Variable haspattern : regex -> string -> bool.
(** [result | textops.findhighlight(regex, line_nbr=True, nlines=5).tostr()] *)
Variable findhighlight : regex -> string -> string.

(** [re.compile(s)] *)
Definition re_compile (s : string) : res regex :=
  match re_error s with
  | Some msg => Raise (ReError msg)
  | None => Ok (compiled s)
  end.

(** [if isinstance(p, str): p = re.compile(p)], for a truthy [p]. *)
Definition compile_pattern (p : pat_arg) : res regex :=
  match p with
  | PStr s => re_compile s
  | PRe r => Ok r
  | PNone => Ok (pat_compile PNone)
  end.

Definition empty_result_text : string := "<empty result>".

Definition nagios_note : string :=
  "NOTE : Due to nagios restrictions, pipe symbol has been replaced by "
  +:+ str1 DQUOTE +:+ "!" +:+ str1 DQUOTE.

Definition shown_result (result : string) : string :=
  match result with
  | EmptyString => empty_result_text
  | _ => join (str1 LF) (firstn 80 (splitlines result)) +:+ str1 LF +:+ "..."
  end.

Definition key_str (key : string) : string :=
  match key with
  | EmptyString => EmptyString
  | _ => "for command key " +:+ str1 DQUOTE +:+ key +:+ str1 DQUOTE
  end.

Definition unexpected_result_message
    (result key : string) (cmd : option string) (help_str : string) : string :=
  "Unexpected result " +:+ key_str key +:+ str1 LF
  +:+ "Command = " +:+ str_of_cmd cmd +:+ str1 LF
  +:+ help_str +:+ str1 LF +:+ str1 LF
  +:+ shown_result result +:+ str1 LF +:+ str1 LF
  +:+ nagios_note.

Definition _raise_unexpected_result {A : Type}
    (result key : string) (cmd : option string) (help_str : string) : res A :=
  Raise (UnexpectedResultError (unexpected_result_message result key cmd help_str)).

Definition found_pattern_help (r : regex) (result : string) : string :=
  "-> found the pattern " +:+ str1 DQUOTE +:+ pattern r +:+ str1 DQUOTE
  +:+ " :" +:+ str1 LF +:+ str1 LF +:+ findhighlight r result.

Definition missing_pattern_help (r : regex) : string :=
  if String.eqb (pattern r) "\S" then "-> empty result"
  else "-> cannot find the pattern " +:+ str1 DQUOTE +:+ pattern r +:+ str1 DQUOTE.

(** Python truth value of a [str]. *)
Definition str_truthy (s : string) : bool :=
  match s with EmptyString => false | _ => true end.

(** The first block of [_filter_result]: the filter function. *)
Definition apply_filter (filter_func : option filter_fn)
    (result key : string) (cmd : option string) : res string :=
  match filter_func with
  | None => Ok result
  | Some f =>
      match f result key cmd with
      | Ok None => Ok result
      | Ok (Some filtered) => Ok filtered
      | Raise e => Raise e
      end
  end.

(** The second block: a truthy unexpected pattern is compiled when it is
    a [str], and only then is the result looked at. *)
Definition check_unexpected (result key : string) (cmd : option string)
    (unexpected_pattern : pat_arg) : res unit :=
  if pat_truthy unexpected_pattern then
    match compile_pattern unexpected_pattern with
    | Raise e => Raise e
    | Ok unexpected_pattern =>
        if str_truthy result && haspattern unexpected_pattern result
        then _raise_unexpected_result result key cmd
               (found_pattern_help unexpected_pattern result)
        else Ok tt
    end
  else Ok tt.

(** The third block, which returns the result. *)
Definition check_expected (result key : string) (cmd : option string)
    (expected_pattern : pat_arg) : res string :=
  if pat_truthy expected_pattern then
    match compile_pattern expected_pattern with
    | Raise e => Raise e
    | Ok expected_pattern =>
        if negb (haspattern expected_pattern result)
        then _raise_unexpected_result result key cmd
               (missing_pattern_help expected_pattern)
        else Ok result
    end
  else Ok result.

(** The second and third blocks, on the text the first block left in
    [result]. *)
Definition check_patterns (result key : string) (cmd : option string)
    (expected_pattern unexpected_pattern : pat_arg) : res string :=
  match check_unexpected result key cmd unexpected_pattern with
  | Raise e => Raise e
  | Ok _ => check_expected result key cmd expected_pattern
  end.

Definition _filter_result (result key : string) (cmd : option string)
    (expected_pattern unexpected_pattern : pat_arg)
    (filter_func : option filter_fn) : res string :=
  match apply_filter filter_func result key cmd with
  | Ok result' => check_patterns result' key cmd expected_pattern unexpected_pattern
  | Raise e => Raise e
  end.

End ResultValidator.

(** The defaults of the module-level function:
    [expected_pattern=r'\S', unexpected_pattern=None, filter_func=None]. *)
Definition default_expected_pattern : pat_arg := PStr "\S".

(** ** Python values the engine handles *)

Inductive pyobj : Type :=
| PyNone
| PyStr (s : string)
| PyBytes (b : string).

(** [a + s] where [s] is a [str]: only [str + str] is defined. *)
Definition py_add_str (a : pyobj) (s : string) : res string :=
  match a with
  | PyStr t => Ok (t +:+ s)
  | PyBytes _ => Raise (TypeError "can't concat str to bytes")
  | PyNone => Raise (TypeError "unsupported operand type(s) for +: 'NoneType' and 'str'")
  end.

(** [out.decode('utf8')]: a method of [bytes], absent from [str]. *)
Definition py_decode (a : pyobj) : res pyobj :=
  match a with
  | PyBytes b => Ok (PyStr b)
  | PyStr _ => Raise (AttributeError "'str' object has no attribute 'decode'")
  | PyNone => Raise (AttributeError "'NoneType' object has no attribute 'decode'")
  end.

(** ** Steps *)

(** What a step answers: [None], a [str] to send, or an integer, three of
    which are the control values of the class. *)
Inductive response : Type :=
| RNone
| RStr (s : string)
| RInt (n : Z).

Definition KILL : Z := 1.
Definition BREAK : Z := 2.
Definition RESPONSE : Z := 3.

(** One pattern/answer tuple; the pattern is a [str] or [None]. *)
Abbreviation step_item := (option string * response)%type.

(** One element of [steps]: a bare [(pattern, answer)] tuple whose first
    element is a [str], or a tuple of pattern/answer tuples. *)
Inductive step_group : Type :=
| Bare (pat : string) (answer : response)
| Alts (items : list step_item).

(** What [pexpect] is asked to look for. *)
Inductive expect_pat : Type :=
| EOF
| Pat (s : string).

(** [re.sub(r'^\^', r'[\r\n]', pat)]: without [re.MULTILINE] the anchor
    matches at offset 0 only, so at most the first character is replaced;
    the replacement template turns its two escapes into the characters CR
    and LF. *)
Definition line_break_class : string := "[" +:+ str1 CR +:+ str1 LF +:+ "]".

Definition caret_sub (pat : string) : string :=
  match pat with
  | String c rest => if Ascii.eqb c "^"%char then line_break_class +:+ rest else pat
  | EmptyString => pat
  end.

Definition _expect_pattern_rewrite (pat : option string) : expect_pat :=
  match pat with
  | None => EOF
  | Some p => Pat (caret_sub p)
  end.

(** ** The spawned child *)

(** [pexpect.spawn(cmd)] is a bytes interface; with an [encoding] it is a
    text interface.  [Expect.__init__] spawns without an encoding. *)
Inductive spawn_mode : Type := BytesMode | TextMode.

(** The outcome of one blocking read ([child.expect]):
    - [Match i before]: pattern [i] of the list matched, [before] is the
      text read ahead of the match;
    - [Eof before]: the stream ended with no match;
    - [Silence]: nothing matched and the stream stays open. *)
Inductive event : Type :=
| Match (i : nat) (before : string)
| Eof (before : string)
| Silence.

(** What the engine did to the child. *)
Inductive action : Type :=
| DoExpect (pats : list expect_pat)
| DoSend (s : string)
| DoSendline (s : string)
| DoKill (sig : Z).

(** The child: the outcomes of the reads still to come, [child.before],
    the actions so far (oldest first), and the process alarm armed by
    [Timeout.__enter__] (its error message) or [None]. *)
Record child : Type := Child {
  mode : spawn_mode;
  script : list event;
  before : pyobj;
  actions : list action;
  sigalrm : option (Z * string)
}.

Definition captured (m : spawn_mode) (text : string) : pyobj :=
  match m with
  | BytesMode => PyBytes text
  | TextMode => PyStr text
  end.

Definition log (a : action) (c : child) : child :=
  Child (mode c) (script c) (before c) (actions c ++ [a]) (sigalrm c).

Fixpoint index_of_EOF (pats : list expect_pat) : option nat :=
  match pats with
  | [] => None
  | EOF :: _ => Some 0%nat
  | Pat _ :: pats' => S <$> index_of_EOF pats'
  end.

(** [pexpect.spawn(cmd)] is given no [timeout], and no [expect] call gives
    one: every read has the 30 seconds of [pexpect]. *)
Definition pexpect_timeout : Z := 30.

(** [child.expect(pats)].  The end of the stream is a match when the list
    asks for [pexpect.EOF], and raises [pexpect.EOF] otherwise; so does a
    script that has no event left.  A read that gets nothing ends with the
    first timeout to fire: the armed alarm ([TimeoutError]) when its delay
    is at most the 30 seconds of [pexpect] (it was armed before the read
    began), and [pexpect.TIMEOUT] otherwise, the alarm staying armed for
    what is left of its delay.  The reads that match and the sends are
    counted as taking no time. *)
Definition child_expect (pats : list expect_pat) (c : child) : res nat * child :=
  let c := log (DoExpect pats) c in
  let at_eof (text : string) (rest : list event) :=
    let c' := Child (mode c) rest (captured (mode c) text) (actions c) (sigalrm c) in
    match index_of_EOF pats with
    | Some i => (Ok i, c')
    | None => (Raise PexpectEOF, c')
    end in
  match script c with
  | [] => at_eof EmptyString []
  | Match i text :: rest =>
      (Ok i, Child (mode c) rest (captured (mode c) text) (actions c) (sigalrm c))
  | Eof text :: rest => at_eof text rest
  | Silence :: rest =>
      match sigalrm c with
      | Some (seconds, msg) =>
          if (seconds <=? pexpect_timeout)%Z
          then (Raise (TimeoutError msg),
                Child (mode c) rest (before c) (actions c) None)
          else (Raise PexpectTIMEOUT,
                Child (mode c) rest (before c) (actions c)
                      (Some ((seconds - pexpect_timeout)%Z, msg)))
      | None =>
          (Raise PexpectTIMEOUT, Child (mode c) rest (before c) (actions c) None)
      end
  end.

Definition child_send (s : string) (c : child) : child := log (DoSend s) c.
Definition child_sendline (s : string) (c : child) : child := log (DoSendline s) c.
Definition child_kill (sig : Z) (c : child) : child := log (DoKill sig) c.

Definition set_alarm (a : option (Z * string)) (c : child) : child :=
  Child (mode c) (script c) (before c) (actions c) a.

(** ** The Expect object and its monad *)

Record Expect : Type := MkExpect {
  spawn : string;
  prompt : option string;
  logout_cmd : option string;
  logout_steps : list step_group;
  context : list (string * string);
  expected_pattern : pat_arg;
  unexpected_pattern : pat_arg;
  filter : option filter_fn;
  in_with : bool;
  is_connected : bool;
  the_child : child
}.

Definition set_child (c : child) (e : Expect) : Expect :=
  MkExpect (spawn e) (prompt e) (logout_cmd e) (logout_steps e) (context e)
           (expected_pattern e) (unexpected_pattern e) (filter e)
           (in_with e) (is_connected e) c.

Definition set_in_with (b : bool) (e : Expect) : Expect :=
  MkExpect (spawn e) (prompt e) (logout_cmd e) (logout_steps e) (context e)
           (expected_pattern e) (unexpected_pattern e) (filter e)
           b (is_connected e) (the_child e).

Definition set_is_connected (b : bool) (e : Expect) : Expect :=
  MkExpect (spawn e) (prompt e) (logout_cmd e) (logout_steps e) (context e)
           (expected_pattern e) (unexpected_pattern e) (filter e)
           (in_with e) b (the_child e).

(** A method: from the object before to an outcome and the object after.
    An exception keeps the mutations made before it was raised. *)
Definition M (A : Type) : Type := Expect -> res A * Expect.

Definition ret {A} (a : A) : M A := fun self => (Ok a, self).
Definition raise {A} (e : exn) : M A := fun self => (Raise e, self).

Definition bind {A B} (m : M A) (k : A -> M B) : M B :=
  fun self =>
    match m self with
    | (Ok a, self') => k a self'
    | (Raise e, self') => (Raise e, self')
    end.

Notation "'let!' x ':=' m 'in' k" := (bind m (fun x => k))
  (at level 10, x pattern, m at level 100, k at level 200).
Notation "'do!' m 'then' k" := (bind m (fun _ => k))
  (at level 10, m at level 100, k at level 200).

Definition lift {A} (r : res A) : M A := fun self => (r, self).
Definition get {A} (f : Expect -> A) : M A := fun self => (Ok (f self), self).
Definition modify (f : Expect -> Expect) : M unit := fun self => (Ok tt, f self).
Definition on_child (f : child -> child) : M unit :=
  modify (fun self => set_child (f (the_child self)) self).

(** [try: m  except <handled>: ...]: [handler e] is [None] when the
    [except] clauses do not name [e]. *)
Definition try_except {A} (m : M A) (handler : exn -> option (M A)) : M A :=
  fun self =>
    match m self with
    | (Raise e, self') =>
        match handler e with
        | Some h => h self'
        | None => (Raise e, self')
        end
    | other => other
    end.

(** [with Timeout(seconds, error_message): m]: [__enter__] calls
    [signal.alarm(seconds)], which arms the alarm unless [seconds] is 0;
    [__exit__] disarms it on every way out. *)
Definition with_Timeout {A} (seconds : Z) (error_message : string) (m : M A) : M A :=
  fun self =>
    let armed := if (0 <? seconds)%Z then Some (seconds, error_message) else None in
    let (r, self') := m (set_child (set_alarm armed (the_child self)) self) in
    (r, set_child (set_alarm None (the_child self')) self').

Definition expect (pats : list expect_pat) : M nat :=
  fun self =>
    let (r, c) := child_expect pats (the_child self) in (r, set_child c self).

Definition is_TimeoutError (e : exn) : bool :=
  match e with TimeoutError _ => true | _ => false end.

(** ** The step engine *)

(** How one pass of the loop body ends before the counters are updated. *)
Inductive flow : Type :=
| Next
| Break
| Return (msg : string).

(** [expects = steps[step]] with a bare tuple wrapped; [expects[0]] of an
    empty tuple raises. *)
Definition normalize_group (g : step_group) : res (list step_item) :=
  match g with
  | Bare pat answer => Ok [(Some pat, answer)]
  | Alts [] => Raise (IndexError "tuple index out of range")
  | Alts items => Ok items
  end.

Definition is_pass_group (expects : list step_item) : bool :=
  match expects with
  | [(None, _)] => true
  | _ => false
  end.

Definition no_more_data (self : Expect) : string :=
  "No more data (EOF) from " +:+ spawn self.

Section Engine.

Variable re_error : string -> option string.
Variable haspattern : regex -> string -> bool.
Variable findhighlight : regex -> string -> string.
(** [template.format] with the keywords of [context] *)
Variable str_format : string -> list (string * string) -> res string.
(** [str(patterns)] of a list of patterns *)
Variable repr_patterns : list expect_pat -> string.
(** [re.compile(r'^.*?%s\n*' % cmd, re.DOTALL).sub('', out)] *)
Variable rm_cmd_sub : string -> string -> res string.

Definition too_many_expect (patterns : list expect_pat) : string :=
  "Too many expect for " +:+ repr_patterns patterns.

(** The [if to_send is not None:] block. *)
Definition respond (to_send : response) : M flow :=
  match to_send with
  | RNone => ret Next
  | RStr template =>
      let! ctx := get context in
      let! to_send := lift (str_format template ctx) in
      match last_char to_send with
      | Some c =>
          if Ascii.eqb c LF
          then do! on_child (child_sendline (drop_last to_send)) then ret Next
          else do! on_child (child_send to_send) then ret Next
      | None => do! on_child (child_send to_send) then ret Next
      end
  | RInt n =>
      if (n =? KILL)%Z then
        let! c := get the_child in
        let! return_msg := lift (py_add_str (before c) ".") in
        do! on_child (child_kill 0) then ret (Return return_msg)
      else if (n =? BREAK)%Z then ret Break
      else if (n =? RESPONSE)%Z then
        let! c := get the_child in
        let! return_msg := lift (py_add_str (before c) ".") in
        ret (Return return_msg)
      else ret Next
  end.

(** [expects += next_expects] when there is a next step. *)
Definition with_lookahead (steps : list step_group) (step : nat)
    (expects : list step_item) : res (list step_item) :=
  match steps !! (step + 1)%nat with
  | Some next_group =>
      match normalize_group next_group with
      | Ok next_expects => Ok (expects ++ next_expects)
      | Raise e => Raise e
      end
  | None => Ok expects
  end.

Definition patterns_of (expects : list step_item) : list expect_pat :=
  map (fun e => _expect_pattern_rewrite (fst e)) expects.

Definition eof_is_collect_error {A} (e : exn) : option (M A) :=
  match e with
  | PexpectEOF => Some (let! self := get id in raise (CollectError (no_more_data self)))
  | _ => None
  end.

(** The patterns searched at [step], and the read. *)
Definition search (steps : list step_group) (step : nat)
    (expects : list step_item) : M (list step_item * list expect_pat * nat) :=
  if is_pass_group expects then ret (expects, [], 0%nat)
  else
    let! expects := lift (with_lookahead steps step expects) in
    let patterns := patterns_of expects in
    let! found := try_except (expect patterns) eof_is_collect_error in
    ret (expects, patterns, found).

(** What one pass of the loop decides: leave with a value, or go round
    again with the new [step] and [infinite_loop_detect]. *)
Inductive pass_result : Type :=
| Done (msg : string)
| Again (step infinite_loop_detect : nat).

(** The end of the loop body: the cursor and the loop detection. *)
Definition count_pass (steps : list step_group) (step infinite_loop_detect : nat)
    (nb_base_expects : nat) (patterns : list expect_pat) (found : nat) : M pass_result :=
  let advance := (nb_base_expects <=? found)%nat in
  let step' := if advance then (step + 1)%nat else step in
  let infinite_loop_detect' := if advance then 0%nat else infinite_loop_detect in
  if advance && (step' =? length steps - 1)%nat then ret (Done EmptyString)
  else
    if (10 <? infinite_loop_detect' + 1)%nat
    then raise (CollectError (too_many_expect patterns))
    else ret (Again step' (infinite_loop_detect' + 1)%nat).

(** The body of the [while] loop, [group] being [steps[step]]. *)
Definition loop_pass (steps : list step_group) (step infinite_loop_detect : nat)
    (group : step_group) : M pass_result :=
  let! expects := lift (normalize_group group) in
  let nb_base_expects := length expects in
  let! (expects, patterns, found) := search steps step expects in
  let! to_send :=
    match expects !! found with
    | Some e => ret (snd e)
    | None => raise (IndexError "tuple index out of range")
    end in
  let! what := respond to_send in
  match what with
  | Return return_msg => ret (Done return_msg)
  | Break => ret (Done EmptyString)
  | Next => count_pass steps step infinite_loop_detect nb_base_expects patterns found
  end.

(** The [while step < nb_steps:] loop, one unit of fuel for each pass;
    [None] when the fuel is spent before the loop is left. *)
Fixpoint expect_loop (fuel : nat) (steps : list step_group)
    (step infinite_loop_detect : nat) : M (option string) :=
  match fuel with
  | O => ret None
  | S fuel' =>
      match steps !! step with
      | None => ret (Some EmptyString)
      | Some group =>
          let! r := loop_pass steps step infinite_loop_detect group in
          match r with
          | Done msg => ret (Some msg)
          | Again step' infinite_loop_detect' =>
              expect_loop fuel' steps step' infinite_loop_detect'
          end
      end
  end.

(** Eleven passes at most for each step: this fuel is never spent
    ([expect_loop_enough_fuel]), so the last branch below is dead. *)
Definition steps_fuel (steps : list step_group) : nat := (11 * length steps + 1)%nat.

Definition _expect_steps (steps : list step_group) : M string :=
  let! r := expect_loop (steps_fuel steps) steps 0 0 in
  match r with
  | Some msg => ret msg
  | None => raise (OtherError "steps_fuel spent")
  end.

(** [Expect.close] *)
Definition close : M unit :=
  let! inside := get in_with in
  if inside then ret tt
  else
    do! modify (set_is_connected false) then
    let! cmd := get logout_cmd in
    do! match cmd with
        | Some c => if str_truthy c then on_child (child_sendline c) else ret tt
        | None => ret tt
        end then
    let! steps := get logout_steps in
    do! match steps with
        | [] => ret tt
        | _ => let! _ := _expect_steps steps in ret tt
        end then
    (* [try: self.child.kill(0)  except OSError: pass] *)
    on_child (child_kill 0).

Definition __enter__ : M unit := modify (set_in_with true).

Definition __exit__ : M unit :=
  do! modify (set_in_with false) then close.

(** [re.sub(r'[\r\n]*$', '', out)]: the trailing run of CR and LF goes. *)
Fixpoint rstrip_crlf (s : string) : string :=
  match s with
  | EmptyString => EmptyString
  | String c s' =>
      match rstrip_crlf s' with
      | EmptyString =>
          if Ascii.eqb c CR || Ascii.eqb c LF then EmptyString else str1 c
      | t => String c t
      end
  end.

(** [out.replace('\r', '')] *)
Fixpoint remove_cr (s : string) : string :=
  match s with
  | EmptyString => EmptyString
  | String c s' => if Ascii.eqb c CR then remove_cr s' else String c (remove_cr s')
  end.

Definition cmd_truthy (cmd : option string) : bool :=
  match cmd with
  | Some c => str_truthy c
  | None => false
  end.

(** [Expect._run_cmd] *)
Definition _run_cmd (cmd : option string) : M string :=
  do! (if cmd_truthy cmd then on_child (child_sendline (str_of_cmd cmd)) else ret tt) then
  let! p := get prompt in
  let! _ := try_except (expect [_expect_pattern_rewrite p]) eof_is_collect_error in
  let! c := get the_child in
  let! out := match before c with
              | PyNone => ret PyNone
              | o => lift (py_decode o)
              end in
  let! out := match out with
              | PyStr text => lift (rm_cmd_sub (str_of_cmd cmd) text)
              | _ => raise (TypeError "expected string or bytes-like object")
              end in
  ret (remove_cr (rstrip_crlf out)).

(** A keyword left at its default [0] takes the value of the object. *)
Inductive override (A : Type) : Type :=
| Inherit
| Given (a : A).
Arguments Inherit {A}.
Arguments Given {A} a.

Definition pick {A} (o : override A) (object_level : A) : A :=
  match o with
  | Inherit => object_level
  | Given a => a
  end.

Definition not_connected_msg : string := "No expect connection to run your command.".

Definition on_TimeoutError {A} (h : M A) (e : exn) : option (M A) :=
  if is_TimeoutError e then Some h else None.

Definition filter_with (result key : string) (cmd : option string)
    (expected unexpected : override pat_arg)
    (filt : override (option filter_fn)) : M string :=
  let! self := get id in
  lift (_filter_result re_error haspattern findhighlight result key cmd
          (pick expected (expected_pattern self))
          (pick unexpected (unexpected_pattern self))
          (pick filt (filter self))).

(** [Expect.run] *)
Definition run (cmd : option string) (timeout : Z) (auto_close : bool)
    (expected unexpected : override pat_arg)
    (filt : override (option filter_fn)) : M string :=
  let! connected := get is_connected in
  if negb connected then raise (NotConnected not_connected_msg)
  else
    let! out :=
      try_except (with_Timeout timeout "Timeout" (_run_cmd cmd))
                 (on_TimeoutError (ret timeout_sentinel)) in
    do! (if auto_close then close else ret tt) then
    filter_with out EmptyString cmd expected unexpected filt.

(** The [for k, cmd in cmds:] loop of [Expect.mrun]. *)
Fixpoint mrun_loop (cmds : list (string * option string)) (timeout : Z)
    (expected unexpected : override pat_arg)
    (filt : override (option filter_fn))
    (dct : gmap string string) : M (gmap string string) :=
  match cmds with
  | [] => ret dct
  | (k, cmd) :: cmds' =>
      let! dct :=
        try_except
          (with_Timeout timeout "Timeout"
             (let! output := _run_cmd cmd in
              if str_truthy k then
                let! v := filter_with output k cmd expected unexpected filt in
                ret (<[k:=v]> dct)
              else ret dct))
          (on_TimeoutError
             (if str_truthy k then
                let! v := filter_with timeout_sentinel k cmd expected unexpected filt in
                ret (<[k:=v]> dct)
              else ret dct)) in
      mrun_loop cmds' timeout expected unexpected filt dct
  end.

(** [Expect.mrun]; a [dict] of commands is the list of its items. *)
Definition mrun (cmds : list (string * option string)) (timeout : Z)
    (auto_close : bool) (expected unexpected : override pat_arg)
    (filt : override (option filter_fn)) : M (gmap string string) :=
  let! connected := get is_connected in
  if negb connected then raise (NotConnected not_connected_msg)
  else
    let! dct := mrun_loop cmds timeout expected unexpected filt ∅ in
    do! (if auto_close then close else ret tt) then
    ret dct.

(** The [login_steps] / [logout_steps] arguments of the constructor:
    [None], one bare [(pattern, answer)] tuple, or a tuple of groups. *)
Inductive steps_arg : Type :=
| NoSteps
| OneStep (pat : string) (answer : response)
| Steps (groups : list step_group).

(** [if steps and isinstance(steps[0], str): steps = (steps,)] *)
Definition normalize_steps (a : steps_arg) : list step_group :=
  match a with
  | NoSteps => []
  | OneStep pat answer => [Bare pat answer]
  | Steps groups => groups
  end.

Definition prompt_step (prompt : option string) : list step_group :=
  match prompt with
  | Some p => if str_truthy p then [Bare p RNone] else []
  | None => []
  end.

(** [Expect.__init__]: [stream] is what the spawned command will answer.
    The result is the outcome of the constructor and the object as the
    constructor left it. *)
Definition __init__ (spawn : string) (login_steps : steps_arg)
    (prompt : option string) (logout_cmd : option string)
    (logout_steps : steps_arg) (context : list (string * string))
    (timeout : Z) (expected_pattern unexpected_pattern : pat_arg)
    (filter : option filter_fn) (stream : list event) : res unit * Expect :=
  let self :=
    MkExpect spawn prompt logout_cmd (normalize_steps logout_steps) context
             expected_pattern unexpected_pattern filter false false
             (Child BytesMode stream PyNone [] None) in
  let steps := normalize_steps login_steps ++ prompt_step prompt in
  with_Timeout timeout
    ("Timeout (" +:+ pretty timeout +:+ "s) for pexpect: " +:+ spawn)
    (do! match steps with
         | [] => ret tt
         | _ =>
             let! error_msg := _expect_steps steps in
             if str_truthy error_msg then raise (ConnectionError error_msg)
             else ret tt
         end then
     modify (set_is_connected true)) self.

End Engine.

Arguments Inherit {A}.
Arguments Given {A} a.

(** The defaults of [Expect.__init__]:
    [expected_pattern=r'\S', unexpected_pattern=r'<timeout>']. *)
Definition object_expected_pattern : pat_arg := PStr "\S".
Definition object_unexpected_pattern : pat_arg := PStr "<timeout>".

(** ** Telnet patterns *)

Inductive tn_pat : Type :=
| TnBytes (b : string)
| TnRegex (r : regex).

(** The pattern argument of [Telnet.__init__]: [None], a [str], a list, or
    one pattern object. *)
Inductive tn_pattern_arg : Type :=
| TnNone
| TnStr (s : string)
| TnList (l : list tn_pat)
| TnOther (p : tn_pat).

Definition re_I : Z := 2.

(** [Telnet._normalize_pattern] *)
Definition _normalize_pattern (pattern : tn_pattern_arg) (default : string) : list tn_pat :=
  match pattern with
  | TnNone => [TnRegex (Regex default re_I)]
  | TnStr s => [TnBytes (caret_sub s)]
  | TnList l => l
  | TnOther p => [p]
  end.

(** ** Reference instances of the library parameters

    Enough of [re], [textops] and [str.format] to run the model on
    concrete inputs: the patterns the module itself uses ([\S],
    [<timeout>]), and patterns, commands and templates made of plain
    characters.  The statements are about every instance of the
    parameters; these ones only serve to evaluate them. *)

Module Reference.

(** [\s] on ASCII text. *)
Definition is_space (c : ascii) : bool :=
  let n := nat_of_ascii c in
  (n =? 32)%nat || ((9 <=? n)%nat && (n <=? 13)%nat).

Fixpoint has_nonspace (s : string) : bool :=
  match s with
  | EmptyString => false
  | String c s' => negb (is_space c) || has_nonspace s'
  end.

Fixpoint starts_with (p s : string) : bool :=
  match p, s with
  | EmptyString, _ => true
  | String a p', String b s' => Ascii.eqb a b && starts_with p' s'
  | String _ _, EmptyString => false
  end.

Fixpoint contains (p s : string) : bool :=
  starts_with p s ||
  match s with
  | EmptyString => false
  | String _ s' => contains p s'
  end.

(** [re.search] of a line: the class [\S], or a literal. *)
Definition search_line (r : regex) (line : string) : bool :=
  if String.eqb (pattern r) "\S" then has_nonspace line
  else contains (pattern r) line.

(** [textops.haspattern] reads its input line by line. *)
Definition haspattern (r : regex) (text : string) : bool :=
  existsb (search_line r) (splitlines text).

(** A stand-in for the excerpt of [textops.findhighlight]: the lines in
    which the pattern is found, without the line numbers, the marks and
    the lines of context of [textops].  It only fills the help text of an
    error message. *)
Definition findhighlight (r : regex) (text : string) : string :=
  join (str1 LF) (List.filter (search_line r) (splitlines text)).

(** [re.compile] on the defects it meets first: an escape at the end of
    the pattern, a parenthesis or a character set left open, a closing
    parenthesis with nothing to close, a repeat with nothing to repeat.
    [depth] holds the positions of the open parentheses and [i] is the
    position in the pattern. *)
Definition at_position (what : string) (i : nat) : option string :=
  Some (what +:+ " at position " +:+ pretty i).

Definition is_repeat (c : ascii) : bool :=
  Ascii.eqb c "*" || Ascii.eqb c "+" || Ascii.eqb c "?".

(** The rest of a character set, after its first character: [None] when
    it is left open. *)
Fixpoint after_set (s : string) : option string :=
  match s with
  | EmptyString => None
  | String c s' =>
      if Ascii.eqb c "]" then Some s'
      else if Ascii.eqb c "\" then
        match s' with
        | String _ s'' => after_set s''
        | EmptyString => None
        end
      else after_set s'
  end.

(** What comes just before: nothing that can be repeated, something that
    can, or a repeat. *)
Inductive before_it : Type := Nothing | Atom | Repeat.

Fixpoint scan (fuel : nat) (s : string) (i : nat) (depth : list nat) (prev : before_it)
    : option string :=
  match fuel with
  | O => None
  | S fuel' =>
      match s with
      | EmptyString =>
          match depth with
          | opened :: _ => at_position "missing ), unterminated subpattern" opened
          | [] => None
          end
      | String c s' =>
          if Ascii.eqb c "\" then
            match s' with
            | EmptyString => at_position "bad escape (end of pattern)" i
            | String _ s'' => scan fuel' s'' (i + 2) depth Atom
            end
          else if Ascii.eqb c "(" then
            match s' with
            | String "?" s'' => scan fuel' s'' (i + 2) (i :: depth) Nothing
            | _ => scan fuel' s' (i + 1) (i :: depth) Nothing
            end
          else if Ascii.eqb c ")" then
            match depth with
            | [] => at_position "unbalanced parenthesis" i
            | _ :: depth' => scan fuel' s' (i + 1) depth' Atom
            end
          else if Ascii.eqb c "[" then
            let body :=
              match s' with
              | String "^" (String "]" s'') => s''
              | String "^" s'' => s''
              | String "]" s'' => s''
              | _ => s'
              end in
            match after_set body with
            | None => at_position "unterminated character set" i
            | Some rest =>
                scan fuel' rest (i + (String.length s' - String.length rest) + 1) depth Atom
            end
          else if is_repeat c then
            match prev with
            | Atom =>
                match s' with
                | String "?" s'' => scan fuel' s'' (i + 2) depth Repeat
                | _ => scan fuel' s' (i + 1) depth Repeat
                end
            | Repeat => at_position "multiple repeat" i
            | Nothing => at_position "nothing to repeat" i
            end
          else if Ascii.eqb c "|" then scan fuel' s' (i + 1) depth Nothing
          else scan fuel' s' (i + 1) depth Atom
      end
  end.

Definition re_error (s : string) : option string :=
  scan (S (String.length s)) s 0 [] Nothing.

(** A template without replacement fields. *)
Definition str_format (template : string) (_ : list (string * string)) : res string :=
  Ok template.

Definition repr_pattern (p : expect_pat) : string :=
  match p with
  | EOF => "<class 'pexpect.exceptions.EOF'>"
  | Pat s => "'" +:+ s +:+ "'"
  end.

Definition repr_patterns (pats : list expect_pat) : string :=
  "[" +:+ join ", " (map repr_pattern pats) +:+ "]".

Fixpoint lstrip_lf (s : string) : string :=
  match s with
  | String c s' => if Ascii.eqb c LF then lstrip_lf s' else s
  | EmptyString => s
  end.

Fixpoint drop (n : nat) (s : string) : string :=
  match n, s with
  | S n', String _ s' => drop n' s'
  | _, _ => s
  end.

(** [re.compile(r'^.*?%s\n*' % cmd, re.DOTALL).sub('', out)] for a [cmd]
    made of plain characters, which the regular expression reads as itself:
    the text up to and including the first echo of [cmd], and the line
    feeds after it, are removed.  (A [cmd] with characters special to [re]
    is another regular expression; no concrete input below has one.) *)
Fixpoint after_echo (cmd out : string) : option string :=
  if starts_with cmd out then Some (lstrip_lf (drop (String.length cmd) out))
  else match out with
       | EmptyString => None
       | String _ out' => after_echo cmd out'
       end.

Definition rm_cmd_sub (cmd out : string) : res string :=
  Ok (default out (after_echo cmd out)).

End Reference.

(** ** What the statements observe *)

Section Observations.

Variable re_error : string -> option string.
Variable haspattern : regex -> string -> bool.
Variable str_format : string -> list (string * string) -> res string.

(** The [re.error] a pattern argument meets in the filter: that of a
    truthy [str] which does not compile. *)
Definition pattern_error (p : pat_arg) : option string :=
  match p with
  | PStr s => if str_truthy s then re_error s else None
  | _ => None
  end.

(** [text] is what the first block leaves in [result]: the result itself
    with no filter function or one that returns [None], and what the
    filter function returns otherwise. *)
Definition filter_leaves (filter_func : option filter_fn) (result key : string)
    (cmd : option string) (text : string) : Prop :=
  match filter_func with
  | None => text = result
  | Some f => exists r, f result key cmd = Ok r /\ text = default result r
  end.

(** The test of the second block. *)
Definition unexpected_found (unexpected : pat_arg) (text : string) : bool :=
  pat_truthy unexpected && (str_truthy text && haspattern (pat_compile unexpected) text).

(** The test of the third block. *)
Definition expected_missing (expected : pat_arg) (text : string) : bool :=
  pat_truthy expected && negb (haspattern (pat_compile expected) text).

(** [frame self self']: nothing but the child differs. *)
Definition frame (self self' : Expect) : Prop :=
  self' = set_child (the_child self') self.

(** A method that touches nothing but the child. *)
Definition child_only {A} (m : M A) : Prop :=
  forall self r self', m self = (r, self') -> frame self self'.

(** What [send]/[sendline] does with a formatted answer. *)
Definition send_action (s : string) : action :=
  match last_char s with
  | Some c => if Ascii.eqb c LF then DoSendline (drop_last s) else DoSend s
  | None => DoSend s
  end.

Definition add_actions (acts : list action) (c : child) : child :=
  Child (mode c) (script c) (before c) (actions c ++ acts) (sigalrm c).

(** The child after a read that matched. *)
Definition read_match (pats : list expect_pat) (text : string)
    (rest : list event) (c : child) : child :=
  Child (mode c) rest (captured (mode c) text) (actions c ++ [DoExpect pats]) (sigalrm c).






(** The actions of an answer that is no control value and whose template
    formats: [None] and out-of-range integers do nothing, a [str] is sent. *)
Definition answer_actions (ctx : list (string * string)) (answer : response)
    : option (list action) :=
  match answer with
  | RNone => Some []
  | RStr template =>
      match str_format template ctx with
      | Ok s => Some [send_action s]
      | Raise _ => None
      end
  | RInt n =>
      if (n =? KILL)%Z || (n =? BREAK)%Z || (n =? RESPONSE)%Z then None else Some []
  end.



End Observations.

(** ** Objects used as concrete inputs *)

(** A child in the state [pexpect.spawn] leaves it, with [stream] to come. *)
Definition spawned (stream : list event) : child :=
  Child BytesMode stream PyNone [] None.

(** A connected [Expect] object with the defaults of the constructor. *)
Definition connected_session (stream : list event) : Expect :=
  MkExpect "ssh www@localhost" (Some "# ") (Some "exit") [] []
           object_expected_pattern object_unexpected_pattern None
           false true (spawned stream).

Definition line (s : string) : string := s +:+ str1 LF.

Definition ref_expect_steps : list step_group -> M string :=
  _expect_steps Reference.str_format Reference.repr_patterns.

Definition ref_run :=
  run Reference.re_error Reference.haspattern Reference.findhighlight Reference.str_format
      Reference.repr_patterns Reference.rm_cmd_sub.

Definition ref_mrun :=
  mrun Reference.re_error Reference.haspattern Reference.findhighlight Reference.str_format
       Reference.repr_patterns Reference.rm_cmd_sub.


Definition ref_filter_result :=
  _filter_result Reference.re_error Reference.haspattern Reference.findhighlight.

(** Three commands, the second of which gets no answer in time. *)
Definition batch : list (string * option string) :=
  [("a", Some "echo 1"); ("b", Some "sleep 100"); ("c", Some "echo 3")].

Definition batch_stream : list event :=
  [Match 0 (line "echo 1" +:+ line "1"); Silence; Match 0 (line "echo 3" +:+ line "3")].

Definition login_steps_demo : list step_group :=
  [Bare "Login: " (RStr (line "bob")); Bare "# " RNone].

Definition three_steps : list step_group :=
  [Bare "Login: " (RStr (line "bob")); Bare "Password: " (RStr (line "secret"));
   Bare "# " RNone].


Definition wake_up_steps : list step_group :=
  [Alts [(None, RStr (line EmptyString))]; Bare "# " RNone].

Definition denied_steps : list step_group :=
  [Alts [(Some "Permission denied", RInt KILL); (Some "Password: ", RStr (line "secret"))];
   Bare "# " RNone].

Definition ls_stream : list event := [Match 0 (line "ls" +:+ line "notes.txt")].

(** A filter function that empties every result. *)
Definition blank_filter : filter_fn := fun _ _ _ => Ok (Some EmptyString).

(** A filter function that puts the result between brackets. *)
Definition bracket_filter : filter_fn :=
  fun result _ _ => Ok (Some ("[" +:+ result +:+ "]")).


(** ** Properties of the child that a method keeps *)

(** [keeps P m]: when [P] holds of the child before [m], it holds after,
    whatever [m] returns or raises. *)
Definition keeps (P : child -> Prop) {A} (m : M A) : Prop :=
  forall self r self', m self = (r, self') -> P (the_child self) -> P (the_child self').

(** No alarm is armed. *)
Definition disarmed (c : child) : Prop := sigalrm c = None.

(** A child spawned without an encoding: [child.before] is [None] or
    [bytes], never a [str]. *)
Definition bytes_child (c : child) : Prop :=
  mode c = BytesMode /\ forall t, before c <> PyStr t.

(** What [log] and [child_expect] do to a property. *)
Definition stable (P : child -> Prop) : Prop :=
  (forall a c, P c -> P (log a c))
  /\ (forall pats c, P c -> P (snd (child_expect pats c))).


(** ** Predicates on step sequences *)

(** [answer] is [Expect.KILL], [Expect.BREAK] or [Expect.RESPONSE]. *)
Definition is_control (answer : response) : bool :=
  match answer with
  | RInt n => (n =? KILL)%Z || (n =? BREAK)%Z || (n =? RESPONSE)%Z
  | _ => false
  end.

(** The [(pattern, answer)] tuples of a group. *)
Definition group_items (g : step_group) : list step_item :=
  match g with
  | Bare pat answer => [(Some pat, answer)]
  | Alts items => items
  end.

(** No answer of the group is a control value. *)
Definition no_control (g : step_group) : bool :=
  forallb (fun item : step_item => negb (is_control (snd item))) (group_items g).

(** ** What was sent to the child *)

Definition is_read (a : action) : bool :=
  match a with
  | DoExpect _ => true
  | _ => false
  end.

(** The actions other than reads, oldest first. *)
Definition sent (c : child) : list action :=
  List.filter (fun a => negb (is_read a)) (actions c).

(** A sequence of bare [(pattern, answer)] steps. *)
Definition bare_steps (items : list (string * response)) : list step_group :=
  map (fun item => Bare (fst item) (snd item)) items.

(** The child prints what each step waits for, in the order of the steps:
    the first read matches the pattern of the first step, every other read
    the pattern of the step after the current one. *)
Definition in_order (texts : list string) : list event :=
  match texts with
  | [] => []
  | t :: ts => Match 0 t :: map (Match 1) ts
  end.

Section Answers.

Variable str_format : string -> list (string * string) -> res string.

Definition plain_answer (ctx : list (string * string)) (item : string * response) : bool :=
  match answer_actions str_format ctx (snd item) with
  | Some _ => true
  | None => false
  end.

(** The answers of [items], each once, in the order of the steps. *)
Definition answers_of (ctx : list (string * string)) (items : list (string * response))
    : list action :=
  concat (map (fun item => default [] (answer_actions str_format ctx (snd item))) items).

End Answers.

(** The three steps of [three_steps] as bare items. *)
Definition three_items : list (string * response) :=
  [("Login: ", RStr (line "bob")); ("Password: ", RStr (line "secret")); ("# ", RNone)].

(** ** What a result looks like *)

Fixpoint has_char (c : ascii) (s : string) : bool :=
  match s with
  | EmptyString => false
  | String c' s' => Ascii.eqb c' c || has_char c s'
  end.

(** [s] ends with a carriage return or a line feed. *)
Definition ends_with_crlf (s : string) : bool :=
  match last_char s with
  | Some c => Ascii.eqb c CR || Ascii.eqb c LF
  | None => false
  end.

(** Three commands that all answer in time; the second has an empty key. *)
Definition quiet_batch : list (string * option string) :=
  [("a", Some "echo 1"); (EmptyString, Some "true"); ("c", Some "echo 3")].

Definition quiet_stream : list event :=
  [Match 0 (line "echo 1" +:+ line "1"); Match 0 (line "true");
   Match 0 (line "echo 3" +:+ line "3")].

(** * Snmp: ranges of OIDs *)

Definition DOT : ascii := chr 46.
Definition DASH : ascii := chr 45.

(** [s.count(c)] for a one-character [c]. *)
Fixpoint count_char (c : ascii) (s : string) : nat :=
  match s with
  | EmptyString => 0%nat
  | String c' s' => ((if Ascii.eqb c' c then 1 else 0) + count_char c s')%nat
  end.

(** [s.split(sep)] for a one-character [sep]: never an empty list. *)
Fixpoint split_on (sep : ascii) (s : string) : list string :=
  match s with
  | EmptyString => [EmptyString]
  | String c s' =>
      if Ascii.eqb c sep then EmptyString :: split_on sep s'
      else
        match split_on sep s' with
        | w :: ws => String c w :: ws
        | [] => [str1 c]
        end
  end.

Definition oid_range_error : string :=
  "An OID range must have one and only one " +:+ str1 DQUOTE +:+ "-" +:+ str1 DQUOTE.

Section OidRange.

(** [int(s)], which raises [ValueError] on what is no integer literal. *)
Variable py_int : string -> res Z.

(** [Snmp.get_oid_range]; [str(id)] is the decimal writing of [id], and
    [range(id_begin, id_end + 1)] the integers from [id_begin] to
    [id_end]. *)
Definition get_oid_range (oid_range : string) : res (list string) :=
  if (count_char DASH oid_range =? 1)%nat then
    match split_on DASH oid_range with
    | [begin; end_] =>
        let oid_begin := removelast (split_on DOT begin) in
        match py_int (List.last (split_on DOT begin) EmptyString) with
        | Raise e => Raise e
        | Ok id_begin =>
            let oid_end := tail (split_on DOT end_) in
            match py_int (hd EmptyString (split_on DOT end_)) with
            | Raise e => Raise e
            | Ok id_end =>
                if (id_end <? id_begin)%Z then Ok []
                else
                  Ok (map (fun id => join "." (oid_begin ++ [pretty id] ++ oid_end))
                          (seqZ id_begin (id_end + 1 - id_begin)))
            end
        end
    (* one dash gives two parts: this [ValueError] of the unpacking is never met *)
    | _ => Raise (OtherError "ValueError: begin, end = oid_range.split")
    end
  else Raise (CollectError oid_range_error).

End OidRange.

(** A component of an OID as it is written: no dot and no dash in it. *)
Definition plain_component (s : string) : bool :=
  negb (has_char DOT s) && negb (has_char DASH s).

(** [int] on the decimal writing of a natural number. *)
Fixpoint digits_value (acc : Z) (s : string) : option Z :=
  match s with
  | EmptyString => Some acc
  | String c s' =>
      let n := nat_of_ascii c in
      if (48 <=? n)%nat && (n <=? 57)%nat
      then digits_value (10 * acc + Z.of_nat (n - 48)) s'
      else None
  end.

Definition decimal_int (s : string) : res Z :=
  match s with
  | EmptyString => Raise (OtherError "invalid literal for int() with base 10")
  | _ =>
      match digits_value 0 s with
      | Some n => Ok n
      | None => Raise (OtherError "invalid literal for int() with base 10")
      end
  end.

(** * Local commands *)

(** A command: a [str], run by a shell, or the [list] of a program and its
    arguments. *)
Inductive sh_cmd : Type :=
| ShStr (s : string)
| ShList (argv : list string).

(** The exceptions of the local commands: [InvalidCommandError], and those
    of the rest of the module. *)
Inductive sh_exn : Type :=
| InvalidCommandError (msg : string)
| Collect (e : exn).

Inductive sh_res (A : Type) : Type :=
| ShOk (a : A)
| ShRaise (e : sh_exn).
Arguments ShOk {A} a.
Arguments ShRaise {A} e.

Definition sh_lift {A} (r : res A) : sh_res A :=
  match r with
  | Ok a => ShOk a
  | Raise e => ShRaise (Collect e)
  end.

(** The process side: the alarm armed by [Timeout] (its message), and the
    processes started so far, each with the alarm armed when it started. *)
Record host : Type := Host {
  alarm : option string;
  started : list (list string * option string)
}.

Definition sh_cmd_truthy (cmd : sh_cmd) : bool :=
  match cmd with
  | ShStr s => str_truthy s
  | ShList [] => false
  | ShList _ => true
  end.

Definition context_truthy (context : list (string * string)) : bool :=
  match context with
  | [] => false
  | _ => true
  end.

(** ['%ss' % timeout] *)
Definition seconds_arg (timeout : Z) : string := pretty timeout +:+ "s".

Section LocalCommands.

Variable re_error : string -> option string.
Variable haspattern : regex -> string -> bool.
Variable findhighlight : regex -> string -> string.
Variable str_format : string -> list (string * string) -> res string.
(** [str(cmd)] of a list *)
Variable py_str_list : list string -> string.
(** what a message shows of [cmd.encode('utf-8', 'replace')] *)
Variable bytes_repr : string -> string.
(** [Popen(argv)], the [communicate] loop and the decoding, under the
    alarm armed at that time: the two outputs and the return code, or the
    exception that ends them ([TimeoutError] of the alarm, [OSError]...) *)
Variable popen : list string -> option string -> res (string * string * Z).

(** Each item of the list formatted with the context, in order: the first
    failure ends it. *)
Fixpoint format_all (l : list string) (context : list (string * string))
    : res (list string) :=
  match l with
  | [] => Ok []
  | i :: l' =>
      match str_format i context with
      | Ok i' =>
          match format_all l' context with
          | Ok r => Ok (i' :: r)
          | Raise e => Raise e
          end
      | Raise e => Raise e
      end
  end.

(** The command after formatting and the arguments given to [Popen]; a
    list that does not start with [timeout] gets the two arguments in
    front. *)
Definition prepare (cmd : sh_cmd) (context : list (string * string)) (timeout : Z)
    : res (sh_cmd * list string) :=
  match cmd with
  | ShStr s =>
      match (if context_truthy context then str_format s context else Ok s) with
      | Ok s' => Ok (ShStr s', ["timeout"; seconds_arg timeout; "sh"; "-c"; s'])
      | Raise e => Raise e
      end
  | ShList l =>
      match (if context_truthy context then format_all l context else Ok l) with
      | Ok l' =>
          let argv :=
            match l' with
            | first :: _ =>
                if String.eqb first "timeout" then l'
                else "timeout" :: seconds_arg timeout :: l'
            | [] => l'
            end in
          Ok (ShList argv, argv)
      | Raise e => Raise e
      end
  end.

(** [cmd] as the messages show it: before the run, and after it. *)
Definition cmd_in_alarm (cmd : sh_cmd) : string :=
  match cmd with
  | ShStr s => s
  | ShList l => py_str_list l
  end.

Definition cmd_in_result (cmd : sh_cmd) : string :=
  match cmd with
  | ShStr s => bytes_repr s
  | ShList l => py_str_list l
  end.

Definition command_alarm (timeout : Z) (cmd : sh_cmd) : option string :=
  if (0 <? timeout)%Z
  then Some ("Timeout (" +:+ pretty timeout +:+ "s) for command: " +:+ cmd_in_alarm cmd)
  else None.

Definition stderr_help : string := "<stderr> returned:".

(** [runshex] *)
Definition runshex (cmd : sh_cmd) (context : list (string * string)) (timeout : Z)
    (expected_pattern unexpected_pattern : pat_arg) (filter : option filter_fn)
    (key : string) (unexpected_stderr : bool) (h : host)
    : sh_res (string * string * Z) * host :=
  if negb (sh_cmd_truthy cmd)
  then (ShRaise (InvalidCommandError "Command is empty"), h)
  else
    (* [with Timeout(...)]: the alarm is set, and cleared on every way out *)
    let armed := command_alarm timeout cmd in
    let leave (r : sh_res (string * string * Z)) (log : list (list string * option string)) :=
      (r, Host None log) in
    match prepare cmd context timeout with
    | Raise e => leave (ShRaise (Collect e)) (started h)
    | Ok (cmd', argv) =>
        let log := started h ++ [(argv, armed)] in
        match popen argv armed with
        | Raise e => leave (ShRaise (Collect e)) log
        | Ok (stdout_msg, stderr_msg, returncode) =>
            let shown := Some (cmd_in_result cmd') in
            if unexpected_stderr && str_truthy stderr_msg
            then leave (sh_lift (_raise_unexpected_result stderr_msg key shown stderr_help))
                       log
            else
              match _filter_result re_error haspattern findhighlight stdout_msg key shown
                      expected_pattern unexpected_pattern filter with
              | Ok v => leave (ShOk (v, stderr_msg, returncode)) log
              | Raise e => leave (ShRaise (Collect e)) log
              end
        end
    end.

(** [runsh] *)
Definition runsh (cmd : sh_cmd) (context : list (string * string)) (timeout : Z)
    (expected_pattern unexpected_pattern : pat_arg) (filter : option filter_fn)
    (key : string) (h : host) : sh_res (list string) * host :=
  match runshex cmd context timeout expected_pattern unexpected_pattern filter key
                false h with
  | (ShOk (stdout, _, _), h') => (ShOk (splitlines stdout), h')
  | (ShRaise e, h') => (ShRaise e, h')
  end.

(** The [for k, cmd in cmds:] loop of [mrunsh]. *)
Fixpoint mrunsh_loop (cmds : list (string * sh_cmd)) (context : list (string * string))
    (cmd_timeout : Z) (expected_pattern unexpected_pattern : pat_arg)
    (filter : option filter_fn) (dct : gmap string (list string)) (h : host)
    : sh_res (gmap string (list string)) * host :=
  match cmds with
  | [] => (ShOk dct, h)
  | (k, cmd) :: cmds' =>
      match runsh cmd context cmd_timeout expected_pattern unexpected_pattern filter k h with
      | (ShOk lines, h') =>
          mrunsh_loop cmds' context cmd_timeout expected_pattern unexpected_pattern
                      filter (<[k:=lines]> dct) h'
      | (ShRaise e, h') => (ShRaise e, h')
      end
  end.

(** [str(cmds)] in the message of the alarm of [mrunsh] *)
Variable py_str_cmds : list (string * sh_cmd) -> string.

Definition total_alarm (total_timeout : Z) (cmds : list (string * sh_cmd)) : option string :=
  if (0 <? total_timeout)%Z
  then Some ("Timeout (" +:+ pretty total_timeout +:+ "s) for mrunsh commands: "
             +:+ py_str_cmds cmds)
  else None.

(** [mrunsh]; a [dict] of commands is the list of its items.  The alarm of
    [total_timeout] is set first; [signal.alarm] holds one alarm, so each
    [runsh] replaces it by its own and clears it. *)
Definition mrunsh (cmds : list (string * sh_cmd)) (context : list (string * string))
    (cmd_timeout total_timeout : Z) (expected_pattern unexpected_pattern : pat_arg)
    (filter : option filter_fn) (h : host)
    : sh_res (gmap string (list string)) * host :=
  let h1 := Host (total_alarm total_timeout cmds) (started h) in
  let (r, h') := mrunsh_loop cmds context cmd_timeout expected_pattern unexpected_pattern
                             filter ∅ h1 in
  (r, Host None (started h')).

(** [is_ping_ok] *)
Definition is_ping_ok (ip : string) (timeout : Z) (h : host) : sh_res bool * host :=
  match runshex (ShStr ("ping -c 1 " +:+ ip)) [] timeout (PStr "\S") PNone None
                EmptyString true h with
  | (ShOk (_, _, rc), h') => (ShOk (rc =? 0)%Z, h')
  | (ShRaise (Collect (TimeoutError _)), h') => (ShOk false, h')
  | (ShRaise e, h') => (ShRaise e, h')
  end.

End LocalCommands.

(** The process [p] was started under the [timeout] command, and under the
    alarm of one of the commands of [cmds]. *)
Definition started_by (py_str_list : list string -> string)
    (cmds : list (string * sh_cmd)) (cmd_timeout : Z)
    (p : list string * option string) : Prop :=
  hd EmptyString (fst p) = "timeout"
  /\ exists k cmd, (k, cmd) ∈ cmds /\ snd p = command_alarm py_str_list cmd_timeout cmd.

(** ** A host used as a concrete input *)

Definition demo_str_list (l : list string) : string := "[" +:+ join ", " l +:+ "]".
Definition demo_bytes_repr (s : string) : string := "b'" +:+ s +:+ "'".
Definition demo_str_cmds (cmds : list (string * sh_cmd)) : string :=
  "{" +:+ join ", " (map fst cmds) +:+ "}".

(** A host where [date] and [whoami] answer, [ping] complains on its
    standard error, and everything else runs into the alarm. *)
Definition demo_popen (argv : list string) (armed : option string)
    : res (string * string * Z) :=
  let cmd := List.last argv EmptyString in
  if String.eqb cmd "date" then Ok (line "Wed Dec 16 11:50:08 CET 2015", EmptyString, 0%Z)
  else if String.eqb cmd "whoami" then Ok (line "elapouya", EmptyString, 0%Z)
  else if String.eqb cmd "ping -c 1 nowhere"
  then Ok (EmptyString, line "ping: nowhere: Name or service not known", 2%Z)
  else
    match armed with
    | Some msg => Raise (TimeoutError msg)
    | None => Raise (OtherError "no answer")
    end.

Definition idle_host : host := Host None [].

Definition demo_runsh :=
  runsh Reference.re_error Reference.haspattern Reference.findhighlight Reference.str_format
        demo_str_list demo_bytes_repr demo_popen.

Definition demo_mrunsh :=
  mrunsh Reference.re_error Reference.haspattern Reference.findhighlight Reference.str_format
         demo_str_list demo_bytes_repr demo_popen demo_str_cmds.

Definition demo_is_ping_ok :=
  is_ping_ok Reference.re_error Reference.haspattern Reference.findhighlight Reference.str_format
             demo_str_list demo_bytes_repr demo_popen.

Definition two_commands : list (string * sh_cmd) :=
  [("now", ShStr "date"); ("quisuisje", ShList ["whoami"])].

(** * Ports *)

Definition COMMA : ascii := chr 44.

(** The [ports] argument: a [str] of numbers between commas, or a list. *)
Inductive ports_arg : Type :=
| PortsStr (s : string)
| PortsList (l : list Z).

Section Ports.

(** [int(n)] *)
Variable py_int : string -> res Z.
(** the socket is created and [s.connect((ip, port))] returns within the
    second allowed; whatever is raised otherwise is caught by the bare
    [except] *)
Variable connects : string -> Z -> bool.

(** [[int(n) for n in l]] *)
Fixpoint ints_of (l : list string) : res (list Z) :=
  match l with
  | [] => Ok []
  | n :: l' =>
      match py_int n with
      | Ok i =>
          match ints_of l' with
          | Ok r => Ok (i :: r)
          | Raise e => Raise e
          end
      | Raise e => Raise e
      end
  end.

(** The [for port in ports:] loop, with the ports tried so far. *)
Fixpoint try_ports (ip : string) (ports : list Z) (tried : list Z)
    : option Z * list Z :=
  match ports with
  | [] => (None, tried)
  | port :: ports' =>
      if connects ip port then try_ports ip ports' (tried ++ [port])
      else (Some port, tried ++ [port])
  end.

(** [search_invalid_port]: the result, and the ports tried. *)
Definition search_invalid_port (ip : string) (ports : ports_arg)
    : res (option Z * list Z) :=
  match ports with
  | PortsStr s =>
      match ints_of (split_on COMMA s) with
      | Ok l => Ok (try_ports ip l [])
      | Raise e => Raise e
      end
  | PortsList l => Ok (try_ports ip l [])
  end.

End Ports.

(** A host on which only the ports 53 and 80 answer. *)
Definition dns_and_web (ip : string) (port : Z) : bool :=
  (port =? 53)%Z || (port =? 80)%Z.

(** * Http *)

(** What [session.get] does: a response, [requests.Timeout], or another
    exception. *)
Inductive http_reply : Type :=
| Reply (status_code : Z) (text : string)
| TimedOut (e : string)
| Failed (e : exn).

Record Http : Type := MkHttp {
  http_expected_pattern : pat_arg;
  http_unexpected_pattern : pat_arg;
  http_filter : option filter_fn
}.

Module Http.

Section Session.

Variable re_error : string -> option string.
Variable haspattern : regex -> string -> bool.
Variable findhighlight : regex -> string -> string.
Variable session_get : string -> http_reply.

(** [Http._get], with the urls requested so far. *)
Definition _get (url : string) (requested : list string) : res string * list string :=
  let requested := requested ++ [url] in
  match session_get url with
  | Reply status_code text =>
      (Ok (if (status_code =? 200)%Z then text else EmptyString), requested)
  | TimedOut e => (Raise (ConnectionError e), requested)
  | Failed e => (Raise e, requested)
  end.

(** [Http.get] *)
Definition get (self : Http) (url : string) (expected unexpected : override pat_arg)
    (filt : override (option filter_fn)) (requested : list string)
    : res string * list string :=
  match _get url requested with
  | (Ok out, requested') =>
      (_filter_result re_error haspattern findhighlight out EmptyString (Some ("GET " +:+ url))
         (pick expected (http_expected_pattern self))
         (pick unexpected (http_unexpected_pattern self))
         (pick filt (http_filter self)), requested')
  | (Raise e, requested') => (Raise e, requested')
  end.

(** The [for k, url in urls:] loop of [Http.mget]. *)
Fixpoint mget_loop (self : Http) (urls : list (string * string))
    (expected unexpected : override pat_arg) (filt : override (option filter_fn))
    (dct : gmap string string) (requested : list string)
    : res (gmap string string) * list string :=
  match urls with
  | [] => (Ok dct, requested)
  | (k, url) :: urls' =>
      if str_truthy k then
        match _get url requested with
        | (Ok out, requested') =>
            match _filter_result re_error haspattern findhighlight out k (Some url)
                    (pick expected (http_expected_pattern self))
                    (pick unexpected (http_unexpected_pattern self))
                    (pick filt (http_filter self)) with
            | Ok v => mget_loop self urls' expected unexpected filt (<[k:=v]> dct) requested'
            | Raise e => (Raise e, requested')
            end
        | (Raise e, requested') => (Raise e, requested')
        end
      else mget_loop self urls' expected unexpected filt dct requested
  end.

(** [Http.mget]; a [dict] of urls is the list of its items. *)
Definition mget (self : Http) (urls : list (string * string))
    (expected unexpected : override pat_arg) (filt : override (option filter_fn))
    (requested : list string) : res (gmap string string) * list string :=
  mget_loop self urls expected unexpected filt ∅ requested.

End Session.

End Http.

(** The object with the defaults of [Http.__init__]. *)
Definition default_http : Http := MkHttp (PStr "\S") (PStr "<timeout>") None.

(** A server with one page; every other url is not found. *)
Definition one_page (url : string) : http_reply :=
  if String.eqb url "http://localhost/status" then Reply 200 "OK"
  else Reply 404 "<html>Not Found</html>".

(** ** Facts about the result filter *)

Section ResultValidatorFacts.

Variable re_error : string -> option string.
Variable haspattern : regex -> string -> bool.
Variable findhighlight : regex -> string -> string.

Local Abbreviation filter_result := (_filter_result re_error haspattern findhighlight).
Local Abbreviation check := (check_patterns re_error haspattern findhighlight).

Lemma filter_result_after_filter result key cmd expected unexpected filter_func text :
  apply_filter filter_func result key cmd = Ok text ->
  filter_result result key cmd expected unexpected filter_func
  = check text key cmd expected unexpected.
Proof. intros Hf. unfold _filter_result. now rewrite Hf. Qed.

(** The first block does what [filter_leaves] says. *)
Lemma apply_filter_leaves filter_func result key cmd text :
  filter_leaves filter_func result key cmd text ->
  apply_filter filter_func result key cmd = Ok text.
Proof.
  destruct filter_func as [f|]; simpl.
  - intros (r & Hr & ->). rewrite Hr. now destruct r.
  - now intros ->.
Qed.

Lemma compile_pattern_cases p :
  pat_truthy p = true ->
  compile_pattern re_error p
  = match pattern_error re_error p with
    | Some msg => Raise (ReError msg)
    | None => Ok (pat_compile p)
    end.
Proof.
  destruct p as [|[|c s]|r]; simpl; try discriminate; intros _; [|reflexivity].
  unfold re_compile. now destruct (re_error (String c s)).
Qed.

Lemma pattern_error_falsy p : pat_truthy p = false -> pattern_error re_error p = None.
Proof. now destruct p as [|[|c s]|r]. Qed.

(** The two blocks in the order of the code: each pattern is compiled
    just before its test, the unexpected one first. *)
Lemma check_patterns_cases text key cmd expected unexpected :
  check text key cmd expected unexpected =
  match pattern_error re_error unexpected with
  | Some msg => Raise (ReError msg)
  | None =>
      if unexpected_found haspattern unexpected text
      then _raise_unexpected_result text key cmd
             (found_pattern_help findhighlight (pat_compile unexpected) text)
      else
        match pattern_error re_error expected with
        | Some msg => Raise (ReError msg)
        | None =>
            if expected_missing haspattern expected text
            then _raise_unexpected_result text key cmd
                   (missing_pattern_help (pat_compile expected))
            else Ok text
        end
  end.
Proof.
  unfold check_patterns, check_unexpected, check_expected,
    unexpected_found, expected_missing.
  destruct (pat_truthy unexpected) eqn:Hu.
  - rewrite (compile_pattern_cases _ Hu).
    destruct (pattern_error re_error unexpected) as [msg|]; [reflexivity|]. simpl.
    destruct (str_truthy text && haspattern (pat_compile unexpected) text);
      [reflexivity|].
    destruct (pat_truthy expected) eqn:He.
    + rewrite (compile_pattern_cases _ He).
      destruct (pattern_error re_error expected) as [msg|]; [reflexivity|]. simpl.
      now destruct (haspattern (pat_compile expected) text).
    + now rewrite (pattern_error_falsy _ He).
  - rewrite (pattern_error_falsy _ Hu). simpl.
    destruct (pat_truthy expected) eqn:He.
    + rewrite (compile_pattern_cases _ He).
      destruct (pattern_error re_error expected) as [msg|]; [reflexivity|]. simpl.
      now destruct (haspattern (pat_compile expected) text).
    + now rewrite (pattern_error_falsy _ He).
Qed.

Lemma unexpected_found_empty unexpected : unexpected_found haspattern unexpected EmptyString = false.
Proof. unfold unexpected_found. simpl. apply andb_false_r. Qed.

Lemma check_patterns_ok text key cmd expected unexpected v :
  check text key cmd expected unexpected = Ok v ->
  v = text /\ unexpected_found haspattern unexpected text = false
  /\ expected_missing haspattern expected text = false.
Proof.
  rewrite check_patterns_cases.
  destruct (pattern_error re_error unexpected); [discriminate|].
  destruct (unexpected_found haspattern unexpected text); [discriminate|].
  destruct (pattern_error re_error expected); [discriminate|].
  destruct (expected_missing haspattern expected text); [discriminate|].
  intros [= <-]. auto.
Qed.

(** C5. With the default expected pattern [\S] an empty result raises
    [UnexpectedResultError], and the message names the empty result twice
    (the help line [-> empty result] and the body [<empty result>]),
    whatever unexpected pattern that compiles is given.  With
    [expected_pattern=None] the third block is skipped: a result on which
    the unexpected test does not fire is returned, and the empty result
    always is.  (The unexpected pattern is absent, a pattern object, or a
    [str] that [re.compile] accepts: the code compiles it before it looks
    at the result.) *)
Theorem empty_result_and_disabled_expected :
  forall (key : string) (cmd : option string) (unexpected : pat_arg),
    haspattern (compiled "\S") EmptyString = false ->
    re_error "\S" = None ->
    pattern_error re_error unexpected = None ->
    filter_result EmptyString key cmd default_expected_pattern unexpected None
    = Raise (UnexpectedResultError
               ("Unexpected result " +:+ key_str key +:+ str1 LF
                +:+ "Command = " +:+ str_of_cmd cmd +:+ str1 LF
                +:+ "-> empty result" +:+ str1 LF +:+ str1 LF
                +:+ "<empty result>" +:+ str1 LF +:+ str1 LF
                +:+ nagios_note))
    /\ (forall result,
           filter_result result key cmd PNone unexpected None
           = if unexpected_found haspattern unexpected result
             then _raise_unexpected_result result key cmd
                    (found_pattern_help findhighlight (pat_compile unexpected) result)
             else Ok result)
    /\ filter_result EmptyString key cmd PNone unexpected None = Ok EmptyString.
Proof.
  intros key cmd unexpected Hempty Hdefault Hcompiles. split; [|split].
  - unfold _filter_result, apply_filter.
    rewrite check_patterns_cases, Hcompiles, unexpected_found_empty.
    unfold pattern_error, expected_missing, default_expected_pattern.
    simpl str_truthy. cbv iota. rewrite Hdefault.
    simpl pat_truthy. simpl pat_compile. rewrite Hempty. reflexivity.
  - intros result. unfold _filter_result, apply_filter.
    rewrite check_patterns_cases, Hcompiles. reflexivity.
  - unfold _filter_result, apply_filter.
    rewrite check_patterns_cases, Hcompiles, unexpected_found_empty. reflexivity.
Qed.

(** C6. The filter function runs first and both tests read the text it
    left ([filter_leaves]: what it returns, or the result when it returns
    [None] or there is none); the unexpected pattern is compiled and
    tested before the expected one, so a text in which the unexpected
    pattern is found raises the found-pattern error even when the expected
    pattern is missing; a text that passes both is returned as it is, and
    filtering the returned value again (no filter function, or one that
    leaves the value alone) returns it again. *)
Theorem filter_order_and_idempotence :
  forall (result key : string) (cmd : option string)
         (expected unexpected : pat_arg) (filter_func : option filter_fn)
         (text : string),
    filter_leaves filter_func result key cmd text ->
    filter_result result key cmd expected unexpected filter_func
    = match pattern_error re_error unexpected with
      | Some msg => Raise (ReError msg)
      | None =>
          if unexpected_found haspattern unexpected text
          then _raise_unexpected_result text key cmd
                 (found_pattern_help findhighlight (pat_compile unexpected) text)
          else
            match pattern_error re_error expected with
            | Some msg => Raise (ReError msg)
            | None =>
                if expected_missing haspattern expected text
                then _raise_unexpected_result text key cmd
                       (missing_pattern_help (pat_compile expected))
                else Ok text
            end
      end
    /\ (forall v,
           filter_result result key cmd expected unexpected filter_func = Ok v ->
           v = text
           /\ filter_result v key cmd expected unexpected None = Ok v
           /\ (filter_leaves filter_func v key cmd v ->
               filter_result v key cmd expected unexpected filter_func = Ok v)).
Proof.
  intros result key cmd expected unexpected filter_func text Hf.
  apply apply_filter_leaves in Hf.
  rewrite (filter_result_after_filter _ _ _ _ _ _ _ Hf). split.
  - apply check_patterns_cases.
  - intros v Hv. destruct (check_patterns_ok _ _ _ _ _ _ Hv) as (-> & _ & _).
    split; [reflexivity|]. split.
    + unfold _filter_result, apply_filter. exact Hv.
    + intros Hfix. apply apply_filter_leaves in Hfix.
      rewrite (filter_result_after_filter _ _ _ _ _ _ _ Hfix). exact Hv.
Qed.

(** C10. When the text the filter function leaves is empty, the
    unexpected test is not made: with an unexpected pattern that
    compiles, the outcome is that of the call with no unexpected pattern
    at all, and it is the empty text or an error of the third block (the
    expected pattern does not compile, or it is missing). *)
Theorem empty_result_skips_unexpected :
  forall (result key : string) (cmd : option string)
         (expected unexpected : pat_arg) (filter_func : option filter_fn),
    filter_leaves filter_func result key cmd EmptyString ->
    pattern_error re_error unexpected = None ->
    filter_result result key cmd expected unexpected filter_func
    = filter_result EmptyString key cmd expected PNone None
    /\ (filter_result result key cmd expected unexpected filter_func = Ok EmptyString
        \/ filter_result result key cmd expected unexpected filter_func
           = _raise_unexpected_result EmptyString key cmd
               (missing_pattern_help (pat_compile expected))
        \/ exists msg,
             pattern_error re_error expected = Some msg
             /\ filter_result result key cmd expected unexpected filter_func
                = Raise (ReError msg)).
Proof.
  intros result key cmd expected unexpected filter_func Hf Hcompiles.
  apply apply_filter_leaves in Hf.
  rewrite (filter_result_after_filter _ _ _ _ _ _ _ Hf).
  unfold _filter_result, apply_filter.
  rewrite !check_patterns_cases, Hcompiles, !unexpected_found_empty.
  split; [reflexivity|].
  destruct (pattern_error re_error expected) as [msg|]; [right; right; eauto|].
  destruct (expected_missing haspattern expected EmptyString); auto.
Qed.

End ResultValidatorFacts.

(** ** Facts about the monad *)

Lemma bind_Ok {A B} (m : M A) (k : A -> M B) self a self1 :
  m self = (Ok a, self1) -> bind m k self = k a self1.
Proof. intros H. unfold bind. now rewrite H. Qed.

Lemma bind_Raise {A B} (m : M A) (k : A -> M B) self e self1 :
  m self = (Raise e, self1) -> bind m k self = (Raise e, self1).
Proof. intros H. unfold bind. now rewrite H. Qed.

Lemma bind_inv_Ok {A B} (m : M A) (k : A -> M B) self b self' :
  bind m k self = (Ok b, self') ->
  exists a self1, m self = (Ok a, self1) /\ k a self1 = (Ok b, self').
Proof.
  unfold bind. destruct (m self) as [[a|e] self1]; [eauto|discriminate].
Qed.

Lemma frame_refl self : frame self self.
Proof. unfold frame. now destruct self. Qed.

Lemma frame_trans a b c : frame a b -> frame b c -> frame a c.
Proof. unfold frame. intros Hab Hbc. rewrite Hbc, Hab. reflexivity. Qed.

Lemma frame_set_child c self : frame self (set_child c self).
Proof. reflexivity. Qed.

Lemma frame_fields self self' :
  frame self self' ->
  in_with self' = in_with self /\ is_connected self' = is_connected self
  /\ context self' = context self /\ spawn self' = spawn self
  /\ prompt self' = prompt self /\ logout_cmd self' = logout_cmd self
  /\ logout_steps self' = logout_steps self
  /\ expected_pattern self' = expected_pattern self
  /\ unexpected_pattern self' = unexpected_pattern self
  /\ filter self' = filter self.
Proof. intros ->. repeat split. Qed.

Create HintDb child_only.

Lemma child_only_ret {A} (a : A) : child_only (ret a).
Proof. intros self r self' [= _ <-]. apply frame_refl. Qed.

Lemma child_only_raise {A} e : child_only (@raise A e).
Proof. intros self r self' [= _ <-]. apply frame_refl. Qed.

Lemma child_only_lift {A} (x : res A) : child_only (lift x).
Proof. intros self r self' [= _ <-]. apply frame_refl. Qed.

Lemma child_only_get {A} (f : Expect -> A) : child_only (get f).
Proof. intros self r self' [= _ <-]. apply frame_refl. Qed.

Lemma child_only_on_child f : child_only (on_child f).
Proof. intros self r self' [= _ <-]. apply frame_set_child. Qed.

Lemma child_only_expect pats : child_only (expect pats).
Proof.
  intros self r self'. unfold expect.
  destruct (child_expect pats (the_child self)) as [x c].
  intros [= _ <-]. apply frame_set_child.
Qed.

Lemma child_only_bind {A B} (m : M A) (k : A -> M B) :
  child_only m -> (forall a, child_only (k a)) -> child_only (bind m k).
Proof.
  intros Hm Hk self r self'. unfold bind.
  destruct (m self) as [[a|e] self1] eqn:E.
  - intros H. eapply frame_trans; [eapply Hm, E | eapply Hk, H].
  - intros [= _ <-]. eapply Hm, E.
Qed.

Lemma child_only_try_except {A} (m : M A) handler :
  child_only m -> (forall e h, handler e = Some h -> child_only h) ->
  child_only (try_except m handler).
Proof.
  intros Hm Hh self r self'. unfold try_except.
  destruct (m self) as [[a|e] self1] eqn:E.
  - intros [= _ <-]. eapply Hm, E.
  - destruct (handler e) as [h|] eqn:Eh.
    + intros H. eapply frame_trans; [eapply Hm, E | eapply Hh; eauto].
    + intros [= _ <-]. eapply Hm, E.
Qed.

Lemma child_only_with_Timeout {A} seconds msg (m : M A) :
  child_only m -> child_only (with_Timeout seconds msg m).
Proof.
  intros Hm self r self'. unfold with_Timeout.
  destruct (m _) as [x self1] eqn:E. intros [= _ <-].
  apply Hm in E. unfold frame in *. rewrite E at 2. reflexivity.
Qed.

#[export] Hint Resolve child_only_ret child_only_raise child_only_lift
  child_only_get child_only_on_child child_only_expect child_only_bind
  child_only_try_except child_only_with_Timeout : child_only.

Ltac child_only_tac :=
  repeat first
    [ match goal with |- forall _, _ => intro end
    | solve [auto with child_only]
    | apply child_only_bind
    | apply child_only_try_except
    | apply child_only_with_Timeout
    | match goal with
      | |- child_only (match ?x with _ => _ end) => destruct x
      | |- child_only (if ?x then _ else _) => destruct x
      | H : (if ?x then _ else _) = Some _ |- _ => destruct x; try discriminate
      | H : match ?x with _ => _ end = Some _ |- _ => destruct x; try discriminate
      | H : Some _ = Some _ |- _ => injection H as <-
      end ].

Section EngineFacts.

Variable str_format : string -> list (string * string) -> res string.
Variable repr_patterns : list expect_pat -> string.

Local Abbreviation respond_ := (respond str_format).
Local Abbreviation loop_pass_ := (loop_pass str_format repr_patterns).
Local Abbreviation expect_loop_ := (expect_loop str_format repr_patterns).
Local Abbreviation expect_steps_ := (_expect_steps str_format repr_patterns).
Local Abbreviation count_pass_ := (count_pass repr_patterns).
Local Abbreviation too_many := (too_many_expect repr_patterns).

Lemma child_only_respond to_send : child_only (respond_ to_send).
Proof. unfold respond. child_only_tac. Qed.

Lemma child_only_search steps step expects : child_only (search steps step expects).
Proof. unfold search, eof_is_collect_error. child_only_tac. Qed.

Lemma child_only_count_pass steps step ild nb pats found :
  child_only (count_pass_ steps step ild nb pats found).
Proof. unfold count_pass. child_only_tac. Qed.

Lemma child_only_loop_pass steps step ild group :
  child_only (loop_pass_ steps step ild group).
Proof.
  unfold loop_pass.
  pose proof child_only_respond. pose proof child_only_search.
  pose proof child_only_count_pass.
  child_only_tac.
Qed.

Lemma child_only_expect_loop fuel steps : forall step ild,
  child_only (expect_loop_ fuel steps step ild).
Proof.
  induction fuel as [|fuel IH]; intros step ild; simpl.
  - auto with child_only.
  - pose proof child_only_loop_pass. child_only_tac.
Qed.

Lemma child_only_expect_steps steps : child_only (expect_steps_ steps).
Proof.
  unfold _expect_steps. pose proof child_only_expect_loop. child_only_tac.
Qed.

(** *** One pass of the loop *)

Lemma add_actions_nil c : add_actions [] c = c.
Proof. destruct c. unfold add_actions. simpl. now rewrite app_nil_r. Qed.

Lemma respond_plain answer acts self :
  answer_actions str_format (context self) answer = Some acts ->
  respond_ answer self = (Ok Next, set_child (add_actions acts (the_child self)) self).
Proof.
  destruct answer as [|template|n]; simpl.
  - intros [= <-]. rewrite add_actions_nil. now destruct self.
  - unfold bind, get, lift. destruct (str_format template (context self)) as [s|e];
      [|discriminate].
    intros [= <-]. unfold send_action.
    destruct (last_char s) as [c|]; [destruct (Ascii.eqb c LF)|]; reflexivity.
  - destruct (n =? KILL)%Z; [discriminate|].
    destruct (n =? BREAK)%Z; [discriminate|].
    destruct (n =? RESPONSE)%Z; [discriminate|].
    intros [= <-]. rewrite add_actions_nil. now destruct self.
Qed.

Lemma expect_match pats i text rest self :
  script (the_child self) = Match i text :: rest ->
  expect pats self = (Ok i, set_child (read_match pats text rest (the_child self)) self).
Proof. intros H. unfold expect, child_expect. simpl. now rewrite H. Qed.


Lemma with_lookahead_lookup steps step (expects all : list step_item) i
    (item : step_item) :
  with_lookahead steps step expects = Ok all ->
  expects !! i = Some item -> all !! i = Some item.
Proof.
  unfold with_lookahead. intros H Hi.
  destruct (steps !! (step + 1)%nat) as [g|].
  - destruct (normalize_group g); [|discriminate]. injection H as <-.
    now apply lookup_app_l_Some.
  - now injection H as <-.
Qed.

Lemma lift_Ok {A} (r : res A) (a : A) self : r = Ok a -> lift r self = (Ok a, self).
Proof. now intros ->. Qed.

Lemma lift_Raise {A} (r : res A) e self : r = Raise e -> lift r self = (Raise e, self).
Proof. now intros ->. Qed.

Lemma search_match steps step expects all i text rest self :
  is_pass_group expects = false ->
  with_lookahead steps step expects = Ok all ->
  script (the_child self) = Match i text :: rest ->
  search steps step expects self
  = (Ok (all, patterns_of all, i),
     set_child (read_match (patterns_of all) text rest (the_child self)) self).
Proof.
  intros Hp Hl Hs. unfold search. rewrite Hp.
  erewrite bind_Ok by (apply lift_Ok, Hl).
  erewrite bind_Ok
    by (unfold try_except; rewrite (expect_match _ _ _ _ _ Hs); reflexivity).
  reflexivity.
Qed.


Lemma search_pass_group steps step expects self :
  is_pass_group expects = true ->
  search steps step expects self = (Ok (expects, [], 0%nat), self).
Proof. intros Hp. unfold search. now rewrite Hp. Qed.

(** A pass in which one of the group's own patterns matches and the
    answer is plain: the cursor stays, the counter grows by one, and the
    pass raises when the counter passes 10. *)
Lemma loop_pass_own steps step ild group (expects all : list step_item) i text rest
    (item : step_item) acts self :
  normalize_group group = Ok expects ->
  is_pass_group expects = false ->
  with_lookahead steps step expects = Ok all ->
  script (the_child self) = Match i text :: rest ->
  expects !! i = Some item ->
  answer_actions str_format (context self) (snd item) = Some acts ->
  loop_pass_ steps step ild group self
  = (if (10 <? ild + 1)%nat
     then Raise (CollectError (too_many (patterns_of all)))
     else Ok (Again step (ild + 1)%nat),
     set_child (add_actions acts (read_match (patterns_of all) text rest (the_child self)))
               self).
Proof.
  intros Hn Hp Hl Hs Hi Ha.
  pose proof (with_lookahead_lookup _ _ _ _ _ _ Hl Hi) as Hall.
  assert (Hlt : (i < length expects)%nat) by (eapply lookup_lt_Some; eauto).
  unfold loop_pass.
  erewrite bind_Ok by (apply lift_Ok, Hn).
  erewrite bind_Ok by (apply search_match; eassumption).
  cbv beta iota. rewrite Hall.
  erewrite bind_Ok by reflexivity.
  erewrite bind_Ok by (apply respond_plain; exact Ha).
  unfold count_pass.
  replace (length expects <=? i)%nat with false
    by (symmetry; apply Nat.leb_gt; exact Hlt).
  simpl andb. cbv iota.
  destruct (10 <? ild + 1)%nat; reflexivity.
Qed.


(** A pass on a group [((None, answer),)] with a plain answer: no read,
    the answer is sent, and the cursor stays where it is. *)
Lemma loop_pass_pass_group steps step ild group answer acts self :
  normalize_group group = Ok [(None, answer)] ->
  answer_actions str_format (context self) answer = Some acts ->
  loop_pass_ steps step ild group self
  = (if (10 <? ild + 1)%nat
     then Raise (CollectError (too_many []))
     else Ok (Again step (ild + 1)%nat),
     set_child (add_actions acts (the_child self)) self).
Proof.
  intros Hn Ha. unfold loop_pass.
  erewrite bind_Ok by (apply lift_Ok, Hn).
  erewrite bind_Ok by (apply search_pass_group; reflexivity).
  cbv beta iota. simpl lookup.
  erewrite bind_Ok by reflexivity.
  erewrite bind_Ok by (apply respond_plain; exact Ha).
  unfold count_pass. simpl.
  destruct (10 <? ild + 1)%nat; reflexivity.
Qed.

(** *** The loop *)

Lemma expect_loop_S fuel steps step ild :
  expect_loop_ (S fuel) steps step ild
  = match steps !! step with
    | None => ret (Some EmptyString)
    | Some group =>
        let! r := loop_pass_ steps step ild group in
        match r with
        | Done msg => ret (Some msg)
        | Again step' ild' => expect_loop_ fuel steps step' ild'
        end
    end.
Proof. reflexivity. Qed.

Lemma expect_loop_again fuel steps step ild group self step' ild' self1 :
  steps !! step = Some group ->
  loop_pass_ steps step ild group self = (Ok (Again step' ild'), self1) ->
  expect_loop_ (S fuel) steps step ild self = expect_loop_ fuel steps step' ild' self1.
Proof. intros Hg Hp. rewrite expect_loop_S, Hg. now erewrite bind_Ok by exact Hp. Qed.

Lemma expect_loop_raise fuel steps step ild group self e self1 :
  steps !! step = Some group ->
  loop_pass_ steps step ild group self = (Raise e, self1) ->
  expect_loop_ (S fuel) steps step ild self = (Raise e, self1).
Proof. intros Hg Hp. rewrite expect_loop_S, Hg. now erewrite bind_Raise by exact Hp. Qed.

Lemma expect_loop_done fuel steps step ild group self msg self1 :
  steps !! step = Some group ->
  loop_pass_ steps step ild group self = (Ok (Done msg), self1) ->
  expect_loop_ (S fuel) steps step ild self = (Ok (Some msg), self1).
Proof. intros Hg Hp. rewrite expect_loop_S, Hg. now erewrite bind_Ok by exact Hp. Qed.

Lemma expect_steps_raise steps self e self1 :
  expect_loop_ (steps_fuel steps) steps 0 0 self = (Raise e, self1) ->
  expect_steps_ steps self = (Raise e, self1).
Proof. intros H. unfold _expect_steps. now erewrite bind_Raise by exact H. Qed.

Lemma expect_steps_done steps self msg self1 :
  expect_loop_ (steps_fuel steps) steps 0 0 self = (Ok (Some msg), self1) ->
  expect_steps_ steps self = (Ok msg, self1).
Proof. intros H. unfold _expect_steps. now erewrite bind_Ok by exact H. Qed.


Lemma set_child_the_child self : set_child (the_child self) self = self.
Proof. now destruct self. Qed.

Section AtOneStep.

Variables (steps : list step_group) (step : nat) (group : step_group)
          (expects all : list step_item).
Hypothesis Hgroup : steps !! step = Some group.
Hypothesis Hnorm : normalize_group group = Ok expects.
Hypothesis Hnopass : is_pass_group expects = false.
Hypothesis Hlook : with_lookahead steps step expects = Ok all.




End AtOneStep.

(** *** Termination *)




Lemma steps_fuel_split steps group k :
  steps !! 0%nat = Some group -> (k <= 10)%nat ->
  steps_fuel steps = (k + S (11 * length steps - k))%nat.
Proof. intros Hg Hk. apply lookup_lt_Some in Hg. unfold steps_fuel. lia. Qed.

(** *** Too many matches at the first step *)




(** *** A group [((None, answer),)] *)

Lemma script_iter_add_actions acts n c :
  script (Nat.iter n (add_actions acts) c) = script c
  /\ before (Nat.iter n (add_actions acts) c) = before c
  /\ actions (Nat.iter n (add_actions acts) c) = actions c ++ concat (repeat acts n).
Proof.
  induction n as [|n (IH1 & IH2 & IH3)]; simpl.
  - now rewrite app_nil_r.
  - repeat split; try assumption.
    rewrite IH3, <- app_assoc. f_equal.
    clear. induction n as [|n IH]; simpl; [now rewrite app_nil_r|].
    now rewrite <- app_assoc, IH.
Qed.

Lemma pass_group_stays steps step group answer acts :
  steps !! step = Some group ->
  normalize_group group = Ok [(None, answer)] ->
  forall n ild fuel self,
    answer_actions str_format (context self) answer = Some acts ->
    (ild + n <= 10)%nat ->
    expect_loop_ (n + fuel) steps step ild self
    = expect_loop_ fuel steps step (ild + n)
        (set_child (Nat.iter n (add_actions acts) (the_child self)) self).
Proof.
  intros Hg Hn. induction n as [|n IH]; intros ild fuel self Ha Hle.
  - simpl Nat.iter. now rewrite Nat.add_0_r, set_child_the_child.
  - change (S n + fuel)%nat with (S (n + fuel)).
    pose proof (loop_pass_pass_group steps step ild group answer acts self Hn Ha) as Hpass.
    replace (10 <? ild + 1)%nat with false in Hpass
      by (symmetry; apply Nat.ltb_ge; lia).
    rewrite (expect_loop_again _ _ _ _ _ _ _ _ _ Hg Hpass).
    rewrite IH by (simpl; assumption || lia).
    replace (ild + 1 + n)%nat with (ild + S n)%nat by lia.
    simpl the_child.
    replace (Nat.iter n (add_actions acts) (add_actions acts (the_child self)))
      with (Nat.iter (S n) (add_actions acts) (the_child self)); [reflexivity|].
    clear. induction n as [|n IH]; [reflexivity|].
    simpl in *. now rewrite IH.
Qed.

(** The cursor never leaves such a group: the answer is sent eleven
    times, nothing is read, and the loop detection raises. *)
Lemma pass_group_too_many steps group answer acts self :
  steps !! 0%nat = Some group ->
  normalize_group group = Ok [(None, answer)] ->
  answer_actions str_format (context self) answer = Some acts ->
  expect_steps_ steps self
  = (Raise (CollectError (too_many [])),
     set_child (Nat.iter 11 (add_actions acts) (the_child self)) self).
Proof.
  intros Hg Hn Ha. apply expect_steps_raise.
  rewrite (steps_fuel_split steps group 10) by (assumption || lia).
  rewrite (pass_group_stays steps 0 group answer acts Hg Hn 10 0) by (assumption || lia).
  pose proof (loop_pass_pass_group steps 0 10 group answer acts
                (set_child (Nat.iter 10 (add_actions acts) (the_child self)) self)
                Hn Ha) as Hpass.
  change (10 <? 10 + 1)%nat with true in Hpass. cbv iota in Hpass.
  rewrite (expect_loop_raise _ _ _ _ _ _ _ _ Hg Hpass). reflexivity.
Qed.

(** *** Control answers *)

Lemma respond_BREAK self : respond_ (RInt BREAK) self = (Ok Break, self).
Proof. reflexivity. Qed.

Lemma respond_KILL self :
  respond_ (RInt KILL) self
  = match py_add_str (before (the_child self)) "." with
    | Ok return_msg =>
        (Ok (Return return_msg), set_child (child_kill 0 (the_child self)) self)
    | Raise e => (Raise e, self)
    end.
Proof.
  simpl. unfold bind, get, lift.
  destruct (py_add_str (before (the_child self)) "."); reflexivity.
Qed.

Lemma respond_RESPONSE self :
  respond_ (RInt RESPONSE) self
  = match py_add_str (before (the_child self)) "." with
    | Ok return_msg => (Ok (Return return_msg), self)
    | Raise e => (Raise e, self)
    end.
Proof.
  simpl. unfold bind, get, lift.
  destruct (py_add_str (before (the_child self)) "."); reflexivity.
Qed.

(** The first pass when the read matches an item whose answer is
    [to_send]: what [respond] gives decides the pass. *)
Lemma expect_steps_first_match steps group (expects all : list step_item) i text rest
    (item : step_item) self :
  steps !! 0%nat = Some group ->
  normalize_group group = Ok expects ->
  is_pass_group expects = false ->
  with_lookahead steps 0 expects = Ok all ->
  script (the_child self) = Match i text :: rest ->
  all !! i = Some item ->
  let self1 := set_child (read_match (patterns_of all) text rest (the_child self)) self in
  (forall msg self2, respond_ (snd item) self1 = (Ok (Return msg), self2) ->
                     expect_steps_ steps self = (Ok msg, self2))
  /\ (forall self2, respond_ (snd item) self1 = (Ok Break, self2) ->
                    expect_steps_ steps self = (Ok EmptyString, self2))
  /\ (forall e self2, respond_ (snd item) self1 = (Raise e, self2) ->
                      expect_steps_ steps self = (Raise e, self2)).
Proof.
  intros Hg Hn Hp Hl Hs Hi self1.
  assert (Hfuel : steps_fuel steps = S (11 * length steps))
    by (unfold steps_fuel; lia).
  assert (Hstart : forall r self2,
             respond_ (snd item) self1 = (r, self2) ->
             loop_pass_ steps 0 0 group self
             = match r with
               | Ok (Return msg) => (Ok (Done msg), self2)
               | Ok Break => (Ok (Done EmptyString), self2)
               | Ok Next =>
                   count_pass_ steps 0 0 (length expects) (patterns_of all) i self2
               | Raise e => (Raise e, self2)
               end).
  { intros r self2 Hr. unfold loop_pass.
    erewrite bind_Ok by (apply lift_Ok, Hn).
    erewrite bind_Ok by (apply search_match; eassumption).
    cbv beta iota. rewrite Hi.
    erewrite bind_Ok by reflexivity.
    fold self1. unfold bind. rewrite Hr.
    destruct r as [[| |msg]|e]; reflexivity. }
  repeat split; intros.
  - apply expect_steps_done. rewrite Hfuel.
    eapply expect_loop_done; [exact Hg|]. now rewrite (Hstart _ _ H).
  - apply expect_steps_done. rewrite Hfuel.
    eapply expect_loop_done; [exact Hg|]. now rewrite (Hstart _ _ H).
  - apply expect_steps_raise. rewrite Hfuel.
    eapply expect_loop_raise; [exact Hg|]. now rewrite (Hstart _ _ H).
Qed.

End EngineFacts.

(** ** Facts about the session *)

Section SessionFacts.

Variable re_error : string -> option string.
Variable haspattern : regex -> string -> bool.
Variable findhighlight : regex -> string -> string.
Variable str_format : string -> list (string * string) -> res string.
Variable repr_patterns : list expect_pat -> string.
Variable rm_cmd_sub : string -> string -> res string.

Local Abbreviation close_ := (close str_format repr_patterns).
Local Abbreviation run_cmd_ := (_run_cmd rm_cmd_sub).
Local Abbreviation filter_with_ := (filter_with re_error haspattern findhighlight).
Local Abbreviation run_ := (run re_error haspattern findhighlight str_format repr_patterns rm_cmd_sub).
Local Abbreviation mrun_loop_ := (mrun_loop re_error haspattern findhighlight rm_cmd_sub).
Local Abbreviation mrun_ := (mrun re_error haspattern findhighlight str_format repr_patterns rm_cmd_sub).

Lemma child_only_run_cmd cmd : child_only (run_cmd_ cmd).
Proof. unfold _run_cmd, eof_is_collect_error. child_only_tac. Qed.

Lemma child_only_filter_with result key cmd expected unexpected filt :
  child_only (filter_with_ result key cmd expected unexpected filt).
Proof. unfold filter_with. child_only_tac. Qed.

Lemma child_only_mrun_loop cmds timeout expected unexpected filt : forall dct,
  child_only (mrun_loop_ cmds timeout expected unexpected filt dct).
Proof.
  induction cmds as [|[k cmd] cmds IH]; intros dct; simpl.
  - auto with child_only.
  - pose proof child_only_run_cmd. pose proof child_only_filter_with.
    unfold on_TimeoutError. child_only_tac.
Qed.

(** Inside a [with] block [close] does nothing. *)
Lemma close_in_with self : in_with self = true -> close_ self = (Ok tt, self).
Proof. intros H. unfold close, bind, get. now rewrite H. Qed.

(** Outside a [with] block [close] leaves the object disconnected, whether
    the logout steps raise or not. *)
Lemma close_disconnects self r self' :
  in_with self = false -> close_ self = (r, self') ->
  is_connected self' = false /\ in_with self' = false.
Proof.
  intros Hin. unfold close. unfold bind at 1. unfold get at 1. rewrite Hin.
  unfold bind at 1. unfold modify at 1.
  match goal with
  | |- ?m (set_is_connected false self) = _ -> _ =>
      assert (Hm : child_only m)
  end.
  { pose proof (child_only_expect_steps str_format repr_patterns). child_only_tac. }
  intros H. apply Hm in H. apply frame_fields in H as (H1 & H2 & _).
  rewrite H1, H2. simpl. auto.
Qed.

Lemma run_not_connected cmd timeout auto_close expected unexpected filt self :
  is_connected self = false ->
  run_ cmd timeout auto_close expected unexpected filt self
  = (Raise (NotConnected not_connected_msg), self).
Proof. intros H. unfold run, bind, get. now rewrite H. Qed.

Lemma mrun_not_connected cmds timeout auto_close expected unexpected filt self :
  is_connected self = false ->
  mrun_ cmds timeout auto_close expected unexpected filt self
  = (Raise (NotConnected not_connected_msg), self).
Proof. intros H. unfold mrun, bind, get. now rewrite H. Qed.

(** The part of [run] before [close]. *)
Lemma child_only_run_read cmd timeout :
  child_only (try_except (with_Timeout timeout "Timeout" (run_cmd_ cmd))
                         (on_TimeoutError (ret timeout_sentinel))).
Proof. pose proof child_only_run_cmd. unfold on_TimeoutError. child_only_tac. Qed.

(** A [run] that returns outside a [with] block, [auto_close] left on,
    leaves the object disconnected. *)
Lemma run_closes cmd timeout expected unexpected filt self v self' :
  in_with self = false ->
  run_ cmd timeout true expected unexpected filt self = (Ok v, self') ->
  is_connected self' = false.
Proof.
  intros Hin H. unfold run in H.
  apply bind_inv_Ok in H as (connected & s0 & Hc & H).
  injection Hc as <- <-.
  destruct (is_connected self); [|discriminate]. simpl in H.
  apply bind_inv_Ok in H as (out & s1 & Hread & H).
  apply child_only_run_read, frame_fields in Hread as (Hin1 & _).
  apply bind_inv_Ok in H as ([] & s2 & Hclose & H).
  apply close_disconnects in Hclose as [Hc2 _]; [|congruence].
  apply child_only_filter_with, frame_fields in H as (_ & -> & _). exact Hc2.
Qed.

Lemma mrun_closes cmds timeout expected unexpected filt self dct self' :
  in_with self = false ->
  mrun_ cmds timeout true expected unexpected filt self = (Ok dct, self') ->
  is_connected self' = false.
Proof.
  intros Hin H. unfold mrun in H.
  apply bind_inv_Ok in H as (connected & s0 & Hc & H).
  injection Hc as <- <-.
  destruct (is_connected self); [|discriminate]. simpl in H.
  apply bind_inv_Ok in H as (d & s1 & Hloop & H).
  apply child_only_mrun_loop, frame_fields in Hloop as (Hin1 & _).
  apply bind_inv_Ok in H as ([] & s2 & Hclose & H).
  apply close_disconnects in Hclose as [Hc2 _]; [|congruence].
  injection H as _ <-. exact Hc2.
Qed.

(** With [auto_close] off, or inside a [with] block, [run] and [mrun]
    leave [is_connected] as it was, whatever their outcome. *)
Lemma run_stays_open cmd timeout auto_close expected unexpected filt self r self' :
  auto_close = false \/ in_with self = true ->
  run_ cmd timeout auto_close expected unexpected filt self = (r, self') ->
  is_connected self' = is_connected self.
Proof.
  intros Hopen H.
  unfold run in H. unfold bind at 1 in H. unfold get at 1 in H.
  destruct (is_connected self) eqn:Hc; simpl in H.
  - unfold bind at 1 in H.
    destruct (try_except _ _ self) as [[out|e] s1] eqn:Hread.
    + pose proof Hread as Hf. apply child_only_run_read, frame_fields in Hf as (Hin1 & Hc1 & _).
      assert (Hcl : (if auto_close then close_ else ret tt) s1 = (Ok tt, s1)).
      { destruct Hopen as [-> | Hw]; [reflexivity|].
        destruct auto_close; [|reflexivity]. apply close_in_with. congruence. }
      erewrite bind_Ok in H by exact Hcl.
      apply child_only_filter_with, frame_fields in H as (_ & -> & _). congruence.
    + injection H as _ <-.
      apply child_only_run_read, frame_fields in Hread as (_ & -> & _). exact Hc.
  - injection H as _ <-. exact Hc.
Qed.

Lemma mrun_stays_open cmds timeout auto_close expected unexpected filt self r self' :
  auto_close = false \/ in_with self = true ->
  mrun_ cmds timeout auto_close expected unexpected filt self = (r, self') ->
  is_connected self' = is_connected self.
Proof.
  intros Hopen H.
  unfold mrun in H. unfold bind at 1 in H. unfold get at 1 in H.
  destruct (is_connected self) eqn:Hc; simpl in H.
  - unfold bind at 1 in H.
    destruct (mrun_loop_ cmds timeout expected unexpected filt ∅ self) as [[d|e] s1] eqn:Hloop.
    + apply child_only_mrun_loop, frame_fields in Hloop as (Hin1 & Hc1 & _).
      assert (Hcl : (if auto_close then close_ else ret tt) s1 = (Ok tt, s1)).
      { destruct Hopen as [-> | Hw]; [reflexivity|].
        destruct auto_close; [|reflexivity]. apply close_in_with. congruence. }
      erewrite bind_Ok in H by exact Hcl.
      injection H as _ <-. congruence.
    + injection H as _ <-.
      apply child_only_mrun_loop, frame_fields in Hloop as (_ & -> & _). exact Hc.
  - injection H as _ <-. exact Hc.
Qed.

(** *** A command that times out in [mrun] *)

Lemma try_except_inv_Ok {A} (m : M A) handler self a self' :
  try_except m handler self = (Ok a, self') ->
  m self = (Ok a, self')
  \/ exists e s1 h, m self = (Raise e, s1) /\ handler e = Some h /\ h s1 = (Ok a, self').
Proof.
  unfold try_except. destruct (m self) as [[x|e] s1]; [intros H; now left|].
  destruct (handler e) as [h|] eqn:Eh; [|discriminate].
  intros H. right. exists e, s1, h. auto.
Qed.

Lemma with_Timeout_inv {A} seconds msg (m : M A) self r self' :
  with_Timeout seconds msg m self = (r, self') ->
  exists self0 s1, m self0 = (r, s1).
Proof.
  unfold with_Timeout. destruct (m _) as [x s1] eqn:E. intros [= <- _]. eauto.
Qed.



Lemma filter_with_eq result key cmd expected unexpected filt self :
  filter_with_ result key cmd expected unexpected filt self
  = (_filter_result re_error haspattern findhighlight result key cmd
       (pick expected (expected_pattern self))
       (pick unexpected (unexpected_pattern self))
       (pick filt (filter self)), self).
Proof. reflexivity. Qed.





End SessionFacts.

(** ** The batch and the per-command timeout *)




(** ** The loop detection *)



(** The counter starts at 1 at a step the cursor reaches by a lookahead
    match: the pass that advances resets it and then counts itself. *)
Lemma count_pass_advance repr_patterns steps step ild nb pats found self :
  (nb <= found)%nat -> (step + 1 <> length steps - 1)%nat ->
  count_pass repr_patterns steps step ild nb pats found self
  = (Ok (Again (step + 1) 1), self).
Proof.
  intros Hle Hne. unfold count_pass.
  replace (nb <=? found)%nat with true by (symmetry; now apply Nat.leb_le).
  replace (step + 1 =? length steps - 1)%nat with false
    by (symmetry; now apply Nat.eqb_neq).
  reflexivity.
Qed.

(** Login, password, prompt: the stream of a successful login. *)
Example login_scenario :
  ref_expect_steps three_steps
    (connected_session [Match 0 EmptyString; Match 1 EmptyString; Match 1 EmptyString])
  = (Ok EmptyString,
     set_child
       (Child BytesMode [] (PyBytes EmptyString)
              [DoExpect [Pat "Login: "; Pat "Password: "]; DoSendline "bob";
               DoExpect [Pat "Login: "; Pat "Password: "]; DoSendline "secret";
               DoExpect [Pat "Password: "; Pat "# "]]
              None)
       (connected_session [])).
Proof. reflexivity. Qed.

(** At the second step, reached by the match of the password prompt, ten
    more password prompts raise: eleven matches of the group with the one
    that moved the cursor. *)
Example too_many_at_second_step :
  fst (ref_expect_steps three_steps
         (connected_session
            (Match 1 EmptyString :: repeat (Match 0 EmptyString) 10 ++ [Match 1 EmptyString])))
  = Raise (CollectError
             (too_many_expect Reference.repr_patterns [Pat "Password: "; Pat "# "]))
  /\ script (the_child
               (snd (ref_expect_steps three_steps
                       (connected_session
                          (Match 1 EmptyString :: repeat (Match 0 EmptyString) 10
                           ++ [Match 1 EmptyString])))))
     = [Match 1 EmptyString].
Proof. vm_compute. split; reflexivity. Qed.

(** ** The group with no pattern *)

(** C3, on the code.  A group [((None, answer),)] at the first step makes
    no read and sends its answer, but the cursor does not move: the answer
    is sent eleven times and the loop detection raises. *)
Theorem pass_group_never_advances :
  forall (str_format : string -> list (string * string) -> res string)
         (repr_patterns : list expect_pat -> string)
         (steps : list step_group) (group : step_group) (answer : response)
         (acts : list action) (self : Expect),
    steps !! 0%nat = Some group ->
    normalize_group group = Ok [(None, answer)] ->
    answer_actions str_format (context self) answer = Some acts ->
    exists self',
      _expect_steps str_format repr_patterns steps self
      = (Raise (CollectError (too_many_expect repr_patterns [])), self')
      /\ script (the_child self') = script (the_child self)
      /\ before (the_child self') = before (the_child self)
      /\ actions (the_child self')
         = actions (the_child self) ++ concat (repeat acts 11).
Proof.
  intros str_format repr_patterns steps group answer acts self Hg Hn Ha.
  eexists. split.
  - now apply (pass_group_too_many _ _ steps group answer acts).
  - exact (script_iter_add_actions acts 11 (the_child self)).
Qed.

Lemma pass_group_never_advances_witness :
  answer_actions Reference.str_format [] (RStr (line EmptyString))
  = Some [DoSendline EmptyString]
  /\ exists self',
       ref_expect_steps wake_up_steps (connected_session [Match 1 EmptyString])
       = (Raise (CollectError (too_many_expect Reference.repr_patterns [])), self')
       /\ script (the_child self') = [Match 1 EmptyString]
       /\ before (the_child self') = PyNone
       /\ actions (the_child self') = repeat (DoSendline EmptyString) 11.
Proof.
  split; [reflexivity|].
  apply (pass_group_never_advances
           Reference.str_format Reference.repr_patterns wake_up_steps
           (Alts [(None, RStr (line EmptyString))]) (RStr (line EmptyString))
           [DoSendline EmptyString] (connected_session [Match 1 EmptyString])
           eq_refl eq_refl eq_refl).
Defined.

(** ** The control answers *)

(** C4, on the code.  When the first read matches an item whose answer is
    a control value: [BREAK] leaves the loop and returns the empty string;
    [KILL] and [RESPONSE] first add ['.'] to [child.before], which raises
    [TypeError] on the bytes of a child spawned without an encoding, before
    anything is killed or returned; on a text child [KILL] kills and both
    return the text read so far followed by ['.']. *)
Theorem control_answer_at_first_match :
  forall (str_format : string -> list (string * string) -> res string)
         (repr_patterns : list expect_pat -> string)
         (steps : list step_group) (group : step_group)
         (expects all : list step_item) (i : nat) (text : string)
         (rest : list event) (p : option string) (n : Z) (self : Expect),
    steps !! 0%nat = Some group ->
    normalize_group group = Ok expects ->
    is_pass_group expects = false ->
    with_lookahead steps 0 expects = Ok all ->
    script (the_child self) = Match i text :: rest ->
    all !! i = Some (p, RInt n) ->
    let c1 := read_match (patterns_of all) text rest (the_child self) in
    let steps_result := _expect_steps str_format repr_patterns steps self in
    (n = BREAK -> steps_result = (Ok EmptyString, set_child c1 self))
    /\ (n = KILL -> mode (the_child self) = BytesMode ->
        steps_result
        = (Raise (TypeError "can't concat str to bytes"), set_child c1 self))
    /\ (n = RESPONSE -> mode (the_child self) = BytesMode ->
        steps_result
        = (Raise (TypeError "can't concat str to bytes"), set_child c1 self))
    /\ (n = KILL -> mode (the_child self) = TextMode ->
        steps_result = (Ok (text +:+ "."), set_child (child_kill 0 c1) self))
    /\ (n = RESPONSE -> mode (the_child self) = TextMode ->
        steps_result = (Ok (text +:+ "."), set_child c1 self)).
Proof.
  intros str_format repr_patterns steps group expects all i text rest p n self
         Hg Hn Hp Hl Hs Hi c1 steps_result.
  destruct (expect_steps_first_match str_format repr_patterns steps group expects all
              i text rest (p, RInt n) self Hg Hn Hp Hl Hs Hi)
    as (Hret & Hbreak & Hraise).
  fold c1 in Hret, Hbreak, Hraise. simpl snd in *.
  split; [|split; [|split; [|split]]].
  - intros ->. apply Hbreak. apply respond_BREAK.
  - intros -> Hm. apply Hraise. rewrite respond_KILL. simpl. now rewrite Hm.
  - intros -> Hm. apply Hraise. rewrite respond_RESPONSE. simpl. now rewrite Hm.
  - intros -> Hm. apply Hret. rewrite respond_KILL. simpl. now rewrite Hm.
  - intros -> Hm. apply Hret. rewrite respond_RESPONSE. simpl. now rewrite Hm.
Qed.

Lemma control_answer_at_first_match_witness :
  mode (spawned [Match 0 "ssh: "]) = BytesMode
  /\ ref_expect_steps denied_steps (connected_session [Match 0 "ssh: "])
     = (Raise (TypeError "can't concat str to bytes"),
        set_child
          (read_match [Pat "Permission denied"; Pat "Password: "; Pat "# "] "ssh: " []
                      (spawned [Match 0 "ssh: "]))
          (connected_session [Match 0 "ssh: "])).
Proof.
  split; [reflexivity|].
  apply (proj1 (proj2 (control_answer_at_first_match
                         Reference.str_format Reference.repr_patterns denied_steps
                         (Alts [(Some "Permission denied", RInt KILL);
                                (Some "Password: ", RStr (line "secret"))])
                         [(Some "Permission denied", RInt KILL);
                          (Some "Password: ", RStr (line "secret"))]
                         [(Some "Permission denied", RInt KILL);
                          (Some "Password: ", RStr (line "secret"));
                          (Some "# ", RNone)]
                         0%nat "ssh: " [] (Some "Permission denied") KILL
                         (connected_session [Match 0 "ssh: "])
                         eq_refl eq_refl eq_refl eq_refl eq_refl eq_refl))
           eq_refl eq_refl).
Defined.

(** The constructor on the same steps: [TypeError] instead of the
    [ConnectionError] that carries the text, nothing killed, not connected. *)
Example init_with_KILL_raises_TypeError :
  let r := __init__ Reference.str_format Reference.repr_patterns
             "ssh www@localhost" (Steps denied_steps) None None NoSteps [] 30
             object_expected_pattern object_unexpected_pattern None
             [Match 0 "ssh: "] in
  fst r = Raise (TypeError "can't concat str to bytes")
  /\ actions (the_child (snd r))
     = [DoExpect [Pat "Permission denied"; Pat "Password: "; Pat "# "]]
  /\ is_connected (snd r) = false.
Proof. vm_compute. repeat split. Qed.

(** ** The end of the stream *)



(** ** The leading caret *)

(** C8. [_expect_pattern_rewrite] replaces a leading [^], and only it, by
    the four characters of the class [[CR LF]], both of which are line
    breaks; any other string is returned as it is, and [None] becomes the
    end-of-stream marker.  [Telnet._normalize_pattern] does the same to a
    [str] and wraps it in a list. *)
Theorem leading_caret_becomes_line_break_class :
  (forall rest : string,
      _expect_pattern_rewrite (Some (String "^" rest))
      = Pat (String "[" (String CR (String LF (String "]" rest)))))
  /\ (forall p : string,
         _expect_pattern_rewrite (Some p)
         = Pat (if Reference.starts_with "^" p
                then line_break_class +:+ Reference.drop 1 p
                else p))
  /\ _expect_pattern_rewrite None = EOF
  /\ (forall (p default : string),
         _normalize_pattern (TnStr p) default
         = [TnBytes (if Reference.starts_with "^" p
                     then line_break_class +:+ Reference.drop 1 p
                     else p)])
  /\ list_ascii_of_string line_break_class = ["["%char; CR; LF; "]"%char]
  /\ is_linebreak CR = true /\ is_linebreak LF = true
  /\ _expect_pattern_rewrite (Some "^^a") = Pat (line_break_class +:+ "^a")
  /\ _expect_pattern_rewrite (Some "a^b") = Pat "a^b".
Proof.
  assert (Hsub : forall p : string,
             caret_sub p
             = if Reference.starts_with "^" p
               then line_break_class +:+ Reference.drop 1 p else p).
  { intros [|c rest]; [reflexivity|]. unfold caret_sub.
    change (Reference.starts_with "^" (String c rest))
      with (Ascii.eqb "^" c && Reference.starts_with EmptyString rest).
    rewrite (Ascii.eqb_sym "^" c).
    replace (Reference.starts_with EmptyString rest) with true
      by (destruct rest; reflexivity).
    rewrite andb_true_r. reflexivity. }
  split; [reflexivity|]. split; [intros p; simpl; now rewrite Hsub|].
  split; [reflexivity|]. split; [intros p d; simpl; now rewrite Hsub|].
  repeat split.
Qed.

(** ** Connection state *)

(** C9. [run] and [mrun] raise [NotConnected] on an object that is not
    connected.  Outside a [with] block and with [auto_close] left on, a
    [run] or [mrun] that returns leaves the object disconnected, so that
    the next [run] or [mrun] raises [NotConnected].  With [auto_close] off
    or inside a [with] block they leave [is_connected] as it was. *)
Theorem run_requires_connection_and_closes :
  forall (re_error : string -> option string)
         (haspattern : regex -> string -> bool)
         (findhighlight : regex -> string -> string)
         (str_format : string -> list (string * string) -> res string)
         (repr_patterns : list expect_pat -> string)
         (rm_cmd_sub : string -> string -> res string)
         (self : Expect),
    let run := run re_error haspattern findhighlight str_format repr_patterns rm_cmd_sub in
    let mrun := mrun re_error haspattern findhighlight str_format repr_patterns rm_cmd_sub in
    let refused (s : Expect) :=
      (forall cmd timeout auto_close expected unexpected filt,
          run cmd timeout auto_close expected unexpected filt s
          = (Raise (NotConnected not_connected_msg), s))
      /\ (forall cmds timeout auto_close expected unexpected filt,
             mrun cmds timeout auto_close expected unexpected filt s
             = (Raise (NotConnected not_connected_msg), s)) in
    (is_connected self = false -> refused self)
    /\ (in_with self = false ->
        (forall cmd timeout expected unexpected filt v self',
            run cmd timeout true expected unexpected filt self = (Ok v, self') ->
            is_connected self' = false /\ refused self')
        /\ (forall cmds timeout expected unexpected filt dct self',
               mrun cmds timeout true expected unexpected filt self = (Ok dct, self') ->
               is_connected self' = false /\ refused self'))
    /\ (forall auto_close, auto_close = false \/ in_with self = true ->
          (forall cmd timeout expected unexpected filt r self',
              run cmd timeout auto_close expected unexpected filt self = (r, self') ->
              is_connected self' = is_connected self)
          /\ (forall cmds timeout expected unexpected filt r self',
                 mrun cmds timeout auto_close expected unexpected filt self = (r, self') ->
                 is_connected self' = is_connected self)).
Proof.
  intros re_error haspattern findhighlight str_format repr_patterns rm_cmd_sub self run mrun refused.
  assert (Hrefused : forall s, is_connected s = false -> refused s).
  { intros s Hs. split; intros.
    - now apply run_not_connected.
    - now apply mrun_not_connected. }
  split; [apply Hrefused|]. split.
  - intros Hin. split.
    + intros cmd timeout expected unexpected filt v self' Hrun.
      pose proof (run_closes _ _ _ _ _ _ _ _ _ _ _ _ _ _ Hin Hrun) as Hc. auto.
    + intros cmds timeout expected unexpected filt dct self' Hrun.
      pose proof (mrun_closes _ _ _ _ _ _ _ _ _ _ _ _ _ _ Hin Hrun) as Hc. auto.
  - intros auto_close Hopen. split.
    + intros cmd timeout expected unexpected filt r self' Hrun.
      eapply run_stays_open; eauto.
    + intros cmds timeout expected unexpected filt r self' Hrun.
      eapply mrun_stays_open; eauto.
Qed.

Lemma run_requires_connection_and_closes_witness :
  in_with (connected_session ls_stream) = false
  /\ fst (ref_run (Some "ls") 30 true Inherit Inherit Inherit (connected_session ls_stream))
     = Ok "notes.txt"
  /\ is_connected
       (snd (ref_run (Some "ls") 30 true Inherit Inherit Inherit
               (connected_session ls_stream))) = false
  /\ fst (ref_run (Some "pwd") 30 true Inherit Inherit Inherit
            (snd (ref_run (Some "ls") 30 true Inherit Inherit Inherit
                    (connected_session ls_stream))))
     = Raise (NotConnected not_connected_msg).
Proof.
  destruct (proj1 (proj1 (proj2 (run_requires_connection_and_closes
                                   Reference.re_error Reference.haspattern Reference.findhighlight
                                   Reference.str_format Reference.repr_patterns
                                   Reference.rm_cmd_sub (connected_session ls_stream)))
                         eq_refl)
                  (Some "ls") 30%Z Inherit Inherit Inherit "notes.txt"
                  (snd (ref_run (Some "ls") 30 true Inherit Inherit Inherit
                          (connected_session ls_stream)))
                  eq_refl)
    as (Hclosed & Hrun & _).
  split; [reflexivity|]. split; [reflexivity|]. split; [exact Hclosed|].
  unfold ref_run at 1. now rewrite Hrun.
Defined.

(** ** Concrete inputs for the result filter *)

Lemma empty_result_and_disabled_expected_witness :
  ref_filter_result EmptyString "uptime" (Some "uptime") default_expected_pattern
    object_unexpected_pattern None
  = _raise_unexpected_result EmptyString "uptime" (Some "uptime") "-> empty result"
  /\ ref_filter_result EmptyString "uptime" (Some "uptime") PNone
       object_unexpected_pattern None
     = Ok EmptyString.
Proof.
  destruct (empty_result_and_disabled_expected
              Reference.re_error Reference.haspattern Reference.findhighlight
              "uptime" (Some "uptime") object_unexpected_pattern
              eq_refl eq_refl eq_refl)
    as (Hraise & _ & Hnone).
  split; [exact Hraise | exact Hnone].
Defined.

Lemma filter_order_and_idempotence_witness :
  ref_filter_result "OK" EmptyString (Some "status") (PStr "OK") (PStr "KO")
    (Some bracket_filter)
  = Ok "[OK]"
  /\ ref_filter_result "[OK]" EmptyString (Some "status") (PStr "OK") (PStr "KO") None
     = Ok "[OK]".
Proof.
  pose proof (filter_order_and_idempotence
                Reference.re_error Reference.haspattern Reference.findhighlight
                "OK" EmptyString (Some "status") (PStr "OK") (PStr "KO")
                (Some bracket_filter) "[OK]"
                (ex_intro _ (Some "[OK]") (conj eq_refl eq_refl))) as [Hout Hagain].
  split; [exact Hout|].
  exact (proj1 (proj2 (Hagain "[OK]" Hout))).
Defined.

Lemma empty_result_skips_unexpected_witness :
  ref_filter_result "<timeout>" "k" (Some "df") PNone (PStr "<timeout>")
    (Some blank_filter)
  = ref_filter_result EmptyString "k" (Some "df") PNone PNone None.
Proof.
  exact (proj1 (empty_result_skips_unexpected
                  Reference.re_error Reference.haspattern Reference.findhighlight
                  "<timeout>" "k" (Some "df") PNone (PStr "<timeout>")
                  (Some blank_filter)
                  (ex_intro _ (Some EmptyString) (conj eq_refl eq_refl))
                  eq_refl)).
Defined.

(** * Further properties of the session code *)

(** ** What the methods keep of the child *)

Lemma stable_disarmed : stable disarmed.
Proof.
  split; [now intros a c|].
  intros pats c Hc. unfold disarmed, child_expect in *. simpl.
  destruct (script c) as [|[i t|t|] rest]; simpl;
    try (destruct (index_of_EOF pats); simpl);
    try (destruct (sigalrm c) eqn:E; simpl);
    try assumption; try reflexivity; try discriminate.
Qed.

Lemma stable_bytes_child : stable bytes_child.
Proof.
  split; [now intros a c|].
  intros pats c [Hm Hb]. unfold bytes_child, child_expect. simpl.
  destruct (script c) as [|[i t|t|] rest]; simpl;
    try (destruct (index_of_EOF pats); simpl);
    try (destruct (sigalrm c) as [[s m]|]; simpl;
         try (destruct (s <=? pexpect_timeout)%Z; simpl));
    rewrite ?Hm; simpl; split; try assumption; try reflexivity;
    intros t'; discriminate.
Qed.

Lemma keeps_ret P {A} (a : A) : keeps P (ret a).
Proof. now intros self r self' [= _ <-]. Qed.

Lemma keeps_raise P {A} e : keeps P (@raise A e).
Proof. now intros self r self' [= _ <-]. Qed.

Lemma keeps_lift P {A} (x : res A) : keeps P (lift x).
Proof. now intros self r self' [= _ <-]. Qed.

Lemma keeps_get P {A} (f : Expect -> A) : keeps P (get f).
Proof. now intros self r self' [= _ <-]. Qed.

Lemma keeps_log P a : stable P -> keeps P (on_child (log a)).
Proof. intros [Hlog _] self r self' [= _ <-]. simpl. apply Hlog. Qed.

Lemma keeps_send P s : stable P -> keeps P (on_child (child_send s)).
Proof. apply keeps_log. Qed.

Lemma keeps_sendline P s : stable P -> keeps P (on_child (child_sendline s)).
Proof. apply keeps_log. Qed.

Lemma keeps_kill P sig : stable P -> keeps P (on_child (child_kill sig)).
Proof. apply keeps_log. Qed.

Lemma keeps_expect P pats : stable P -> keeps P (expect pats).
Proof.
  intros [_ Hexp] self r self'. unfold expect.
  destruct (child_expect pats (the_child self)) as [x c] eqn:E.
  intros [= _ <-] HP. simpl. specialize (Hexp pats _ HP). now rewrite E in Hexp.
Qed.

Lemma keeps_set_flag P (f : Expect -> Expect) :
  (forall self, the_child (f self) = the_child self) -> keeps P (modify f).
Proof. intros Hf self r self' [= _ <-]. now rewrite Hf. Qed.

Lemma keeps_bind P {A B} (m : M A) (k : A -> M B) :
  keeps P m -> (forall a, keeps P (k a)) -> keeps P (bind m k).
Proof.
  intros Hm Hk self r self'. unfold bind.
  destruct (m self) as [[a|e] self1] eqn:E.
  - intros H HP. eapply Hk; [exact H|]. eapply Hm; eauto.
  - intros [= _ <-] HP. eapply Hm; eauto.
Qed.

Lemma keeps_try_except P {A} (m : M A) handler :
  keeps P m -> (forall e h, handler e = Some h -> keeps P h) ->
  keeps P (try_except m handler).
Proof.
  intros Hm Hh self r self'. unfold try_except.
  destruct (m self) as [[a|e] self1] eqn:E.
  - intros [= _ <-] HP. eapply Hm; eauto.
  - destruct (handler e) as [h|] eqn:Eh.
    + intros H HP. eapply Hh; [exact Eh|exact H|]. eapply Hm; eauto.
    + intros [= _ <-] HP. eapply Hm; eauto.
Qed.

(** [Timeout.__exit__] disarms on every way out. *)
Lemma keeps_disarmed_with_Timeout {A} seconds msg (m : M A) :
  keeps disarmed (with_Timeout seconds msg m).
Proof.
  intros self r self'. unfold with_Timeout.
  destruct (m _) as [x self1]. now intros [= _ <-] _.
Qed.

Lemma keeps_bytes_with_Timeout {A} seconds msg (m : M A) :
  keeps bytes_child m -> keeps bytes_child (with_Timeout seconds msg m).
Proof.
  intros Hm self r self'. unfold with_Timeout.
  destruct (m _) as [x self1] eqn:E. intros [= _ <-] HP.
  exact (Hm _ _ _ E HP).
Qed.

Ltac keeps_tac :=
  repeat first
    [ match goal with |- forall _, _ => intro end
    | assumption
    | solve [auto]
    | apply keeps_ret | apply keeps_raise | apply keeps_lift | apply keeps_get
    | apply keeps_send | apply keeps_sendline | apply keeps_kill | apply keeps_log
    | apply keeps_expect
    | apply keeps_set_flag; reflexivity
    | apply keeps_disarmed_with_Timeout
    | apply keeps_bytes_with_Timeout
    | apply keeps_bind
    | apply keeps_try_except
    | match goal with
      | |- keeps _ (match ?x with _ => _ end) => destruct x
      | |- keeps _ (if ?x then _ else _) => destruct x
      | H : (if ?x then _ else _) = Some _ |- _ => destruct x; try discriminate
      | H : match ?x with _ => _ end = Some _ |- _ => destruct x; try discriminate
      | H : Some _ = Some _ |- _ => injection H as <-
      end ].

Section KeptByTheEngine.

Variable re_error : string -> option string.
Variable haspattern : regex -> string -> bool.
Variable findhighlight : regex -> string -> string.
Variable str_format : string -> list (string * string) -> res string.
Variable repr_patterns : list expect_pat -> string.
Variable rm_cmd_sub : string -> string -> res string.
Variable P : child -> Prop.
Hypothesis HP : stable P.

Lemma keeps_respond to_send : keeps P (respond str_format to_send).
Proof. unfold respond. keeps_tac. Qed.

Lemma keeps_search steps step expects : keeps P (search steps step expects).
Proof. unfold search, eof_is_collect_error. keeps_tac. Qed.

Lemma keeps_count_pass steps step ild nb pats found :
  keeps P (count_pass repr_patterns steps step ild nb pats found).
Proof. unfold count_pass. keeps_tac. Qed.

Lemma keeps_loop_pass steps step ild group :
  keeps P (loop_pass str_format repr_patterns steps step ild group).
Proof.
  unfold loop_pass.
  pose proof keeps_respond. pose proof keeps_search. pose proof keeps_count_pass.
  keeps_tac.
Qed.

Lemma keeps_expect_loop fuel steps : forall step ild,
  keeps P (expect_loop str_format repr_patterns fuel steps step ild).
Proof.
  induction fuel as [|fuel IH]; intros step ild; simpl.
  - keeps_tac.
  - pose proof keeps_loop_pass. keeps_tac.
Qed.

Lemma keeps_expect_steps steps : keeps P (_expect_steps str_format repr_patterns steps).
Proof. unfold _expect_steps. pose proof keeps_expect_loop. keeps_tac. Qed.

Lemma keeps_close : keeps P (close str_format repr_patterns).
Proof. unfold close. pose proof keeps_expect_steps. keeps_tac. Qed.

Lemma keeps_run_cmd cmd : keeps P (_run_cmd rm_cmd_sub cmd).
Proof. unfold _run_cmd, eof_is_collect_error. keeps_tac. Qed.

Lemma keeps_filter_with result key cmd expected unexpected filt :
  keeps P (filter_with re_error haspattern findhighlight result key cmd expected unexpected filt).
Proof. unfold filter_with. keeps_tac. Qed.

End KeptByTheEngine.

(** ** The alarm *)

Section AlarmFacts.

Variable re_error : string -> option string.
Variable haspattern : regex -> string -> bool.
Variable findhighlight : regex -> string -> string.
Variable str_format : string -> list (string * string) -> res string.
Variable repr_patterns : list expect_pat -> string.
Variable rm_cmd_sub : string -> string -> res string.

Lemma keeps_disarmed_run cmd timeout auto_close expected unexpected filt :
  keeps disarmed
    (run re_error haspattern findhighlight str_format repr_patterns rm_cmd_sub
         cmd timeout auto_close expected unexpected filt).
Proof.
  unfold run, on_TimeoutError.
  pose proof (keeps_close str_format repr_patterns disarmed stable_disarmed).
  pose proof (keeps_filter_with re_error haspattern findhighlight disarmed).
  keeps_tac.
Qed.

Lemma keeps_disarmed_mrun_loop cmds timeout expected unexpected filt : forall dct,
  keeps disarmed
    (mrun_loop re_error haspattern findhighlight rm_cmd_sub cmds timeout expected unexpected filt dct).
Proof.
  induction cmds as [|[k cmd] cmds IH]; intros dct; simpl.
  - keeps_tac.
  - pose proof (keeps_filter_with re_error haspattern findhighlight disarmed).
    unfold on_TimeoutError. keeps_tac.
Qed.

Lemma keeps_disarmed_mrun cmds timeout auto_close expected unexpected filt :
  keeps disarmed
    (mrun re_error haspattern findhighlight str_format repr_patterns rm_cmd_sub
          cmds timeout auto_close expected unexpected filt).
Proof.
  unfold mrun.
  pose proof (keeps_close str_format repr_patterns disarmed stable_disarmed).
  pose proof keeps_disarmed_mrun_loop.
  keeps_tac.
Qed.

End AlarmFacts.

(** X3. [Timeout] never outlives its block: when no alarm is armed before
    [run], [mrun], [close] or [_expect_steps], none is armed after, whether
    they return or raise; and the constructor leaves none armed. *)
Theorem no_alarm_left_armed :
  forall (re_error : string -> option string)
         (haspattern : regex -> string -> bool)
         (findhighlight : regex -> string -> string)
         (str_format : string -> list (string * string) -> res string)
         (repr_patterns : list expect_pat -> string)
         (rm_cmd_sub : string -> string -> res string)
         (self : Expect),
    sigalrm (the_child self) = None ->
    (forall cmd timeout auto_close expected unexpected filt r self',
        run re_error haspattern findhighlight str_format repr_patterns rm_cmd_sub
            cmd timeout auto_close expected unexpected filt self = (r, self') ->
        sigalrm (the_child self') = None)
    /\ (forall cmds timeout auto_close expected unexpected filt r self',
           mrun re_error haspattern findhighlight str_format repr_patterns rm_cmd_sub
                cmds timeout auto_close expected unexpected filt self = (r, self') ->
           sigalrm (the_child self') = None)
    /\ (forall r self',
           close str_format repr_patterns self = (r, self') ->
           sigalrm (the_child self') = None)
    /\ (forall steps r self',
           _expect_steps str_format repr_patterns steps self = (r, self') ->
           sigalrm (the_child self') = None)
    /\ (forall spawn login_steps prompt logout_cmd logout_steps context timeout
               expected unexpected filt stream,
           sigalrm (the_child
                      (snd (__init__ str_format repr_patterns spawn login_steps prompt
                              logout_cmd logout_steps context timeout expected unexpected
                              filt stream))) = None).
Proof.
  intros re_error haspattern findhighlight str_format repr_patterns rm_cmd_sub self Hd.
  split; [|split; [|split; [|split]]].
  - intros cmd timeout auto_close expected unexpected filt r self' H.
    exact (keeps_disarmed_run _ _ _ _ _ _ _ _ _ _ _ _ _ _ _ H Hd).
  - intros cmds timeout auto_close expected unexpected filt r self' H.
    exact (keeps_disarmed_mrun _ _ _ _ _ _ _ _ _ _ _ _ _ _ _ H Hd).
  - intros r self' H.
    exact (keeps_close str_format repr_patterns disarmed stable_disarmed _ _ _ H Hd).
  - intros steps r self' H.
    exact (keeps_expect_steps str_format repr_patterns disarmed stable_disarmed
             steps _ _ _ H Hd).
  - intros. unfold __init__, with_Timeout.
    match goal with |- context [let (_, _) := ?m ?s in _] => destruct (m s) end.
    reflexivity.
Qed.

Lemma no_alarm_left_armed_witness :
  sigalrm (spawned batch_stream) = None
  /\ sigalrm (the_child
                (snd (ref_mrun batch 1 true Inherit Inherit Inherit
                        (connected_session batch_stream)))) = None.
Proof.
  split; [reflexivity|].
  exact (proj1 (proj2 (no_alarm_left_armed
                         Reference.re_error Reference.haspattern Reference.findhighlight
                         Reference.str_format Reference.repr_patterns Reference.rm_cmd_sub
                         (connected_session batch_stream) eq_refl))
               batch 1%Z true Inherit Inherit Inherit
               (fst (ref_mrun batch 1 true Inherit Inherit Inherit
                       (connected_session batch_stream)))
               (snd (ref_mrun batch 1 true Inherit Inherit Inherit
                       (connected_session batch_stream)))
               (surjective_pairing _)).
Defined.

(** ** A sequence of one group *)

Section OneGroup.

Variable str_format : string -> list (string * string) -> res string.
Variable repr_patterns : list expect_pat -> string.

Lemma normalize_group_items g (l : list step_item) :
  normalize_group g = Ok l -> l = group_items g.
Proof.
  destruct g as [p a|[|i items]]; simpl; intros [=]; congruence.
Qed.

Lemma respond_not_control answer self what self' :
  is_control answer = false ->
  respond str_format answer self = (Ok what, self') -> what = Next.
Proof.
  unfold respond. destruct answer as [|t|n]; simpl.
  - intros _ [= <- _]. reflexivity.
  - intros _. unfold bind, get, lift, on_child, modify, ret.
    destruct (str_format t (context self)) as [s|e]; [|discriminate].
    destruct (last_char s) as [c|]; [destruct (Ascii.eqb c LF)|]; intros [= <- _]; reflexivity.
  - intros Hc. apply orb_false_elim in Hc as [Hc Hr].
    apply orb_false_elim in Hc as [Hk Hb]. rewrite Hk, Hb, Hr.
    intros [= <- _]. reflexivity.
Qed.

Lemma search_one_group group (expects all : list step_item) pats found self self' :
  search [group] 0 expects self = (Ok (all, pats, found), self') -> all = expects.
Proof.
  unfold search. destruct (is_pass_group expects).
  - intros [= <- _ _ _]. reflexivity.
  - unfold with_lookahead. simpl. intros H.
    apply bind_inv_Ok in H as (x & s1 & Hl & H). injection Hl as <- <-.
    apply bind_inv_Ok in H as (f & s2 & _ & H). injection H as <- _ _ _. reflexivity.
Qed.

Lemma loop_pass_one_group group ild self r self' :
  no_control group = true ->
  loop_pass str_format repr_patterns [group] 0 ild group self = (Ok r, self') ->
  r = Again 0 (ild + 1).
Proof.
  intros Hnc H. unfold loop_pass in H.
  apply bind_inv_Ok in H as (expects & s1 & Hn & H). injection Hn as Hn <-.
  apply normalize_group_items in Hn. subst expects.
  apply bind_inv_Ok in H as ([[all pats] found] & s2 & Hs & H).
  apply search_one_group in Hs. subst all.
  apply bind_inv_Ok in H as (to_send & s3 & Hl & H).
  destruct (group_items group !! found) as [item|] eqn:Ei; [|discriminate].
  injection Hl as <- <-.
  apply bind_inv_Ok in H as (what & s4 & Hr & H).
  apply respond_not_control in Hr.
  - subst what. unfold count_pass in H.
    apply lookup_lt_Some in Ei.
    replace (length (group_items group) <=? found)%nat with false in H
      by (symmetry; apply Nat.leb_gt; exact Ei).
    simpl in H. destruct (10 <? ild + 1)%nat; [discriminate|].
    injection H as <- _. reflexivity.
  - unfold no_control in Hnc. rewrite forallb_forall in Hnc.
    apply negb_true_iff, (Hnc item).
    apply list_elem_of_In, (list_elem_of_lookup_2 _ found), Ei.
Qed.

Lemma expect_loop_one_group group : forall fuel ild self msg self',
  no_control group = true ->
  expect_loop str_format repr_patterns fuel [group] 0 ild self = (Ok (Some msg), self') ->
  False.
Proof.
  induction fuel as [|fuel IH]; intros ild self msg self' Hnc H.
  - discriminate.
  - simpl in H. apply bind_inv_Ok in H as (r & s1 & Hp & H).
    apply loop_pass_one_group in Hp; [|exact Hnc]. subst r.
    eapply IH; eauto.
Qed.

End OneGroup.

(** X1. A sequence made of one group whose answers are no control values
    never returns: every match is a match of the group's own patterns, the
    cursor is never advanced, and the only ways out are exceptions.  So a
    constructor whose steps come to one such group (a prompt and no login
    steps, or one login step and no prompt) always raises and leaves the
    object disconnected. *)
Theorem one_group_never_returns :
  forall (str_format : string -> list (string * string) -> res string)
         (repr_patterns : list expect_pat -> string)
         (group : step_group),
    no_control group = true ->
    (forall self,
        exists e, fst (_expect_steps str_format repr_patterns [group] self) = Raise e)
    /\ (forall spawn login_steps prompt logout_cmd logout_steps context timeout
               expected unexpected filt stream,
           normalize_steps login_steps ++ prompt_step prompt = [group] ->
           exists e,
             fst (__init__ str_format repr_patterns spawn login_steps prompt logout_cmd
                    logout_steps context timeout expected unexpected filt stream)
             = Raise e
             /\ is_connected
                  (snd (__init__ str_format repr_patterns spawn login_steps prompt
                          logout_cmd logout_steps context timeout expected unexpected
                          filt stream)) = false).
Proof.
  intros str_format repr_patterns group Hnc.
  assert (Hsteps : forall self,
             exists e, fst (_expect_steps str_format repr_patterns [group] self) = Raise e).
  { intros self.
    destruct (_expect_steps str_format repr_patterns [group] self) as [[msg|e] s'] eqn:E;
      [|exists e; reflexivity].
    exfalso. unfold _expect_steps in E.
    apply bind_inv_Ok in E as ([m|] & s1 & Hl & E); [|discriminate].
    exact (expect_loop_one_group str_format repr_patterns group _ _ _ _ _ Hnc Hl). }
  split; [exact Hsteps|].
  intros spawn login_steps prompt logout_cmd logout_steps context timeout
         expected unexpected filt stream Hone.
  unfold __init__, with_Timeout. rewrite Hone.
  match goal with
  | |- context [bind _ _ ?s] => set (self0 := s)
  end.
  destruct (Hsteps self0) as [e He].
  destruct (_expect_steps str_format repr_patterns [group] self0) as [r s1] eqn:E.
  simpl in He. subst r.
  pose proof (child_only_expect_steps str_format repr_patterns [group] _ _ _ E) as Hf.
  erewrite bind_Raise by (eapply bind_Raise; exact E).
  exists e. split; [reflexivity|]. simpl.
  apply frame_fields in Hf. destruct Hf as (_ & Hc & _). exact Hc.
Qed.

Lemma one_group_never_returns_witness :
  no_control (Bare "\$ " RNone) = true
  /\ exists e,
       fst (__init__ Reference.str_format Reference.repr_patterns
              "bash" NoSteps (Some "\$ ") None NoSteps [] 30
              object_expected_pattern object_unexpected_pattern None
              [Match 0 EmptyString]) = Raise e
       /\ is_connected
            (snd (__init__ Reference.str_format Reference.repr_patterns
                    "bash" NoSteps (Some "\$ ") None NoSteps [] 30
                    object_expected_pattern object_unexpected_pattern None
                    [Match 0 EmptyString])) = false.
Proof.
  split; [reflexivity|].
  exact (proj2 (one_group_never_returns Reference.str_format Reference.repr_patterns
                  (Bare "\$ " RNone) eq_refl)
               "bash" NoSteps (Some "\$ ") None NoSteps [] 30%Z
               object_expected_pattern object_unexpected_pattern None
               [Match 0 EmptyString] eq_refl).
Defined.

(** ** A child spawned without an encoding *)

Section BytesChild.

Variable str_format : string -> list (string * string) -> res string.
Variable repr_patterns : list expect_pat -> string.

Lemma respond_Return_text answer self msg self' :
  respond str_format answer self = (Ok (Return msg), self') ->
  exists t, before (the_child self) = PyStr t.
Proof.
  unfold respond. destruct answer as [|t|n].
  - discriminate.
  - unfold bind, get, lift, on_child, modify, ret.
    destruct (str_format t (context self)) as [s|e]; [|discriminate].
    destruct (last_char s) as [c|]; [destruct (Ascii.eqb c LF)|]; discriminate.
  - unfold bind, get, lift, on_child, modify, ret. cbv beta.
    destruct (before (the_child self)) as [|t|b] eqn:Eb.
    + simpl. repeat (destruct (_ =? _)%Z; try discriminate); rewrite Eb; discriminate.
    + intros _. exists t. reflexivity.
    + simpl. repeat (destruct (_ =? _)%Z; try discriminate); rewrite Eb; discriminate.
Qed.

Lemma loop_pass_bytes steps step ild group self msg self' :
  bytes_child (the_child self) ->
  loop_pass str_format repr_patterns steps step ild group self = (Ok (Done msg), self') ->
  msg = EmptyString.
Proof.
  intros Hb H. unfold loop_pass in H.
  apply bind_inv_Ok in H as (expects & s1 & Hn & H). injection Hn as Hn <-.
  apply bind_inv_Ok in H as ([[all pats] found] & s2 & Hs & H).
  pose proof (keeps_search bytes_child stable_bytes_child _ _ _ _ _ _ Hs Hb) as Hb2.
  apply bind_inv_Ok in H as (to_send & s3 & Hl & H).
  assert (s3 = s2) as ->.
  { destruct (all !! found); [now injection Hl|discriminate]. }
  apply bind_inv_Ok in H as ([| |m] & s4 & Hr & H).
  - unfold count_pass in H.
    destruct (_ && _); [now injection H|].
    destruct (10 <? _)%nat; discriminate.
  - now injection H.
  - apply respond_Return_text in Hr as [t Ht]. destruct Hb2 as [_ Hb2].
    now apply Hb2 in Ht.
Qed.

Lemma expect_loop_bytes steps : forall fuel step ild self msg self',
  bytes_child (the_child self) ->
  expect_loop str_format repr_patterns fuel steps step ild self = (Ok (Some msg), self') ->
  msg = EmptyString.
Proof.
  induction fuel as [|fuel IH]; intros step ild self msg self' Hb H.
  - discriminate.
  - simpl in H. destruct (steps !! step) as [group|]; [|now injection H].
    apply bind_inv_Ok in H as ([m|step' ild'] & s1 & Hp & H).
    + injection H as <- _. eapply loop_pass_bytes; eauto.
    + eapply IH; [|exact H].
      exact (keeps_loop_pass str_format repr_patterns bytes_child stable_bytes_child
               _ _ _ _ _ _ _ Hp Hb).
Qed.

End BytesChild.

(** X2. On a child spawned without an encoding ([child.before] is [None] or
    [bytes]) [_expect_steps] never returns a message: when it returns, it
    returns the empty string, whatever the steps and whatever the child
    prints; the child is still such a child afterwards. *)
Theorem steps_on_bytes_child_return_empty :
  forall (str_format : string -> list (string * string) -> res string)
         (repr_patterns : list expect_pat -> string)
         (steps : list step_group) (self self' : Expect) (msg : string),
    mode (the_child self) = BytesMode ->
    (forall t, before (the_child self) <> PyStr t) ->
    _expect_steps str_format repr_patterns steps self = (Ok msg, self') ->
    msg = EmptyString
    /\ mode (the_child self') = BytesMode
    /\ (forall t, before (the_child self') <> PyStr t).
Proof.
  intros str_format repr_patterns steps self self' msg Hm Hb H.
  assert (Hbc : bytes_child (the_child self)) by (split; assumption).
  split.
  - unfold _expect_steps in H.
    apply bind_inv_Ok in H as ([m|] & s1 & Hl & H); [|discriminate].
    injection H as <- _.
    exact (expect_loop_bytes str_format repr_patterns steps _ _ _ _ _ _ Hbc Hl).
  - exact (keeps_expect_steps str_format repr_patterns bytes_child stable_bytes_child
             steps _ _ _ H Hbc).
Qed.

Lemma steps_on_bytes_child_return_empty_witness :
  fst (ref_expect_steps login_steps_demo
         (connected_session [Match 0 EmptyString; Match 1 EmptyString]))
  = Ok EmptyString
  /\ mode (the_child
             (snd (ref_expect_steps login_steps_demo
                     (connected_session [Match 0 EmptyString; Match 1 EmptyString]))))
     = BytesMode.
Proof.
  split; [reflexivity|].
  refine (proj1 (proj2 (steps_on_bytes_child_return_empty
                          Reference.str_format Reference.repr_patterns
                          login_steps_demo
                          (connected_session [Match 0 EmptyString; Match 1 EmptyString])
                          _ EmptyString eq_refl _ (surjective_pairing _)))).
  intros t H. discriminate H.
Defined.

(** ** Steps met in order *)

Section InOrder.

Variable str_format : string -> list (string * string) -> res string.
Variable repr_patterns : list expect_pat -> string.

(** A pass whose read matches a pattern of the next group advances. *)
Lemma loop_pass_lookahead steps step ild group (expects all : list step_item) i text rest
    (item : step_item) acts self :
  normalize_group group = Ok expects ->
  is_pass_group expects = false ->
  with_lookahead steps step expects = Ok all ->
  script (the_child self) = Match i text :: rest ->
  (length expects <= i)%nat ->
  all !! i = Some item ->
  answer_actions str_format (context self) (snd item) = Some acts ->
  loop_pass str_format repr_patterns steps step ild group self
  = (Ok (if (step + 1 =? length steps - 1)%nat then Done EmptyString
         else Again (step + 1) 1),
     set_child (add_actions acts (read_match (patterns_of all) text rest (the_child self)))
               self).
Proof.
  intros Hn Hp Hl Hs Hi Hall Ha.
  unfold loop_pass.
  erewrite bind_Ok by (apply lift_Ok, Hn).
  erewrite bind_Ok by (apply search_match; eassumption).
  cbv beta iota. rewrite Hall.
  erewrite bind_Ok by reflexivity.
  erewrite bind_Ok by (apply respond_plain; exact Ha).
  unfold count_pass.
  replace (length expects <=? i)%nat with true
    by (symmetry; apply Nat.leb_le; exact Hi).
  simpl andb. cbv iota.
  destruct (step + 1 =? length steps - 1)%nat; reflexivity.
Qed.

Lemma answer_actions_sent ctx answer acts :
  answer_actions str_format ctx answer = Some acts ->
  List.filter (fun a => negb (is_read a)) acts = acts.
Proof.
  destruct answer as [|t|n]; simpl.
  - intros [= <-]. reflexivity.
  - destruct (str_format t ctx) as [s|e]; [|discriminate]. intros [= <-].
    unfold send_action. destruct (last_char s) as [c|]; [destruct (Ascii.eqb c LF)|];
      reflexivity.
  - destruct (_ || _); [discriminate|]. intros [= <-]. reflexivity.
Qed.

Lemma sent_pass ctx answer acts pats text rest c :
  answer_actions str_format ctx answer = Some acts ->
  sent (add_actions acts (read_match pats text rest c)) = sent c ++ acts.
Proof.
  intros Ha. unfold sent, add_actions, read_match. simpl.
  rewrite !List.filter_app. simpl. rewrite app_nil_r.
  now rewrite (answer_actions_sent _ _ _ Ha).
Qed.

Lemma bare_steps_lookup items j :
  bare_steps items !! j = (fun item => Bare (fst item) (snd item)) <$> items !! j.
Proof. unfold bare_steps. apply list_lookup_fmap. Qed.

Lemma plain_answer_lookup ctx items j (item : string * response) :
  forallb (plain_answer str_format ctx) items = true ->
  items !! j = Some item ->
  exists acts, answer_actions str_format ctx (snd item) = Some acts.
Proof.
  intros Hall Hi. rewrite forallb_forall in Hall.
  assert (Hp : plain_answer str_format ctx item = true)
    by (apply Hall, list_elem_of_In, (list_elem_of_lookup_2 _ j), Hi).
  unfold plain_answer in Hp.
  destruct (answer_actions str_format ctx (snd item)) as [acts|]; [|discriminate].
  now exists acts.
Qed.

Lemma with_lookahead_bare items j (item next : string * response) :
  items !! S j = Some next ->
  with_lookahead (bare_steps items) j [(Some (fst item), snd item)]
  = Ok [(Some (fst item), snd item); (Some (fst next), snd next)].
Proof.
  intros Hn. unfold with_lookahead.
  replace (j + 1)%nat with (S j) by lia.
  now rewrite bare_steps_lookup, Hn.
Qed.

Lemma answers_of_cons ctx (item : string * response) items acts :
  answer_actions str_format ctx (snd item) = Some acts ->
  answers_of str_format ctx (item :: items) = acts ++ answers_of str_format ctx items.
Proof. intros Ha. unfold answers_of. simpl. now rewrite Ha. Qed.

(** From step [j] on, every read matches the pattern of the next step. *)
Lemma later_steps_in_order items ts : forall j ild fuel self rest,
  forallb (plain_answer str_format (context self)) items = true ->
  script (the_child self) = map (Match 1) ts ++ rest ->
  ts <> [] ->
  (j + length ts = length items - 1)%nat ->
  exists self',
    expect_loop str_format repr_patterns (length ts + fuel) (bare_steps items) j ild self
    = (Ok (Some EmptyString), self')
    /\ frame self self'
    /\ script (the_child self') = rest
    /\ sent (the_child self')
       = sent (the_child self) ++ answers_of str_format (context self) (drop (S j) items).
Proof.
  induction ts as [|t ts IH]; intros j ild fuel self rest Hall Hs Hne Hlen; [congruence|].
  simpl in Hlen.
  destruct (items !! j) as [item|] eqn:Hj;
    [|apply lookup_ge_None in Hj; lia].
  destruct (items !! S j) as [next|] eqn:Hn;
    [|apply lookup_ge_None in Hn; lia].
  destruct (plain_answer_lookup _ _ _ _ Hall Hn) as [acts Ha].
  assert (Hg : bare_steps items !! j = Some (Bare (fst item) (snd item)))
    by now rewrite bare_steps_lookup, Hj.
  pose proof (loop_pass_lookahead (bare_steps items) j ild (Bare (fst item) (snd item))
                [(Some (fst item), snd item)]
                [(Some (fst item), snd item); (Some (fst next), snd next)]
                1 t (map (Match 1) ts ++ rest) (Some (fst next), snd next) acts self
                eq_refl eq_refl (with_lookahead_bare items j item next Hn) Hs
                (le_n 1) eq_refl Ha) as Hpass.
  assert (Hlen' : length (bare_steps items) = length items)
    by (unfold bare_steps; apply length_map).
  rewrite Hlen' in Hpass.
  set (self1 := set_child _ self) in Hpass.
  assert (Hsent1 : sent (the_child self1) = sent (the_child self) ++ acts)
    by (unfold self1; simpl; eapply sent_pass; exact Ha).
  rewrite (drop_S _ _ _ Hn), (answers_of_cons _ _ _ _ Ha).
  change (length (t :: ts) + fuel)%nat with (S (length ts + fuel)).
  destruct ts as [|t' ts'].
  - replace (j + 1 =? length items - 1)%nat with true in Hpass
      by (symmetry; apply Nat.eqb_eq; simpl in Hlen; lia).
    exists self1. split; [exact (expect_loop_done _ _ _ _ _ _ _ _ _ _ Hg Hpass)|].
    split; [apply frame_set_child|]. split; [reflexivity|].
    rewrite Hsent1, drop_ge by (simpl in Hlen; lia).
    unfold answers_of. simpl. now rewrite app_nil_r.
  - replace (j + 1 =? length items - 1)%nat with false in Hpass
      by (symmetry; apply Nat.eqb_neq; simpl in Hlen; lia).
    rewrite (expect_loop_again _ _ _ _ _ _ _ _ _ _ _ Hg Hpass).
    replace (j + 1)%nat with (S j) by lia.
    destruct (IH (S j) 1%nat fuel self1 rest) as (self' & He & Hf & Hr & Hsent);
      [exact Hall|reflexivity|discriminate|simpl in *; lia|].
    exists self'. split; [exact He|].
    split; [eapply frame_trans; [apply frame_set_child|exact Hf]|].
    split; [exact Hr|].
    rewrite Hsent, Hsent1. simpl. now rewrite <- app_assoc.
Qed.

End InOrder.

(** X4. When the child prints what each step of a sequence of two or more
    bare steps waits for, in the order of the steps, [_expect_steps]
    returns the empty string after one read for each step, has sent the
    answer of every step once, in the order of the steps, and has touched
    nothing of the object but the child. *)
Theorem steps_met_in_order :
  forall (str_format : string -> list (string * string) -> res string)
         (repr_patterns : list expect_pat -> string)
         (items : list (string * response)) (texts : list string)
         (rest : list event) (self : Expect),
    (2 <= length items)%nat ->
    length texts = length items ->
    forallb (plain_answer str_format (context self)) items = true ->
    script (the_child self) = in_order texts ++ rest ->
    exists self',
      _expect_steps str_format repr_patterns (bare_steps items) self
      = (Ok EmptyString, self')
      /\ self' = set_child (the_child self') self
      /\ script (the_child self') = rest
      /\ sent (the_child self')
         = sent (the_child self) ++ answers_of str_format (context self) items.
Proof.
  intros str_format repr_patterns items texts rest self Hn Hlen Hall Hs.
  destruct texts as [|t ts]; [simpl in Hlen; lia|].
  destruct items as [|item items']; [simpl in Hn; lia|].
  set (items := item :: items') in *.
  destruct (items !! 1%nat) as [next|] eqn:Hnext;
    [|apply lookup_ge_None in Hnext; unfold items in Hnext; simpl in *; lia].
  destruct (plain_answer_lookup str_format _ items 0 item Hall eq_refl) as [acts Ha].
  assert (Hg : bare_steps items !! 0%nat = Some (Bare (fst item) (snd item)))
    by reflexivity.
  simpl in Hs.
  pose proof (loop_pass_own str_format repr_patterns (bare_steps items) 0 0
                (Bare (fst item) (snd item))
                [(Some (fst item), snd item)]
                [(Some (fst item), snd item); (Some (fst next), snd next)]
                0 t (map (Match 1) ts ++ rest) (Some (fst item), snd item) acts self
                eq_refl eq_refl (with_lookahead_bare items 0 item next Hnext) Hs
                eq_refl Ha) as Hpass.
  simpl in Hpass.
  set (self1 := set_child _ self) in Hpass.
  destruct (later_steps_in_order str_format repr_patterns items ts 0 1
              (10 * length items + 1) self1 rest)
    as (self' & He & Hf & Hr & Hsent);
    [exact Hall|reflexivity| |unfold items in *; simpl in *; lia|].
  { destruct ts; [unfold items in *; simpl in *; lia|discriminate]. }
  exists self'. split; [|split; [|split]].
  - apply expect_steps_done.
    replace (steps_fuel (bare_steps items))
      with (S (length ts + (10 * length items + 1))).
    + rewrite (expect_loop_again _ _ _ _ _ _ _ _ _ _ _ Hg Hpass). exact He.
    + unfold steps_fuel, bare_steps. rewrite length_map.
      unfold items in *. simpl in *. lia.
  - unfold frame in Hf. rewrite Hf. unfold self1. reflexivity.
  - exact Hr.
  - rewrite Hsent. unfold self1. simpl.
    rewrite (sent_pass str_format _ _ _ _ _ _ _ Ha).
    unfold items. rewrite (answers_of_cons str_format _ item items' acts Ha).
    rewrite drop_0. now rewrite <- app_assoc.
Qed.

Lemma steps_met_in_order_witness :
  exists self',
    ref_expect_steps three_steps
      (connected_session (in_order ["Last login: today"; EmptyString; "Welcome"]))
    = (Ok EmptyString, self')
    /\ self' = set_child (the_child self')
                 (connected_session (in_order ["Last login: today"; EmptyString; "Welcome"]))
    /\ script (the_child self') = []
    /\ sent (the_child self') = [DoSendline "bob"; DoSendline "secret"].
Proof.
  refine (steps_met_in_order Reference.str_format Reference.repr_patterns
            three_items ["Last login: today"; EmptyString; "Welcome"] []
            (connected_session (in_order ["Last login: today"; EmptyString; "Welcome"]))
            _ eq_refl eq_refl eq_refl).
  simpl. lia.
Defined.

(** ** The text a command returns *)

Lemma has_char_remove_cr s : has_char CR (remove_cr s) = false.
Proof.
  induction s as [|c s IH]; [reflexivity|]. simpl.
  destruct (Ascii.eqb c CR) eqn:E; [exact IH|]. simpl. now rewrite E.
Qed.

Lemma last_char_cons c s :
  s <> EmptyString -> last_char (String c s) = last_char s.
Proof. destruct s; [congruence|reflexivity]. Qed.

Lemma rstrip_crlf_last s c :
  last_char (rstrip_crlf s) = Some c -> Ascii.eqb c CR || Ascii.eqb c LF = false.
Proof.
  induction s as [|a s IH]; [discriminate|]. simpl.
  destruct (rstrip_crlf s) as [|b t] eqn:E.
  - destruct (Ascii.eqb a CR || Ascii.eqb a LF) eqn:Ea; [discriminate|].
    intros [= <-]. exact Ea.
  - rewrite last_char_cons by discriminate. exact IH.
Qed.

Lemma last_char_remove_cr s c :
  last_char s = Some c -> Ascii.eqb c CR = false -> last_char (remove_cr s) = Some c.
Proof.
  induction s as [|a s IH]; [discriminate|]. intros Hl Hc.
  destruct s as [|b t].
  - injection Hl as ->. simpl. now rewrite Hc.
  - rewrite last_char_cons in Hl by discriminate.
    specialize (IH Hl Hc).
    change (remove_cr (String a (String b t)))
      with (if Ascii.eqb a CR then remove_cr (String b t)
            else String a (remove_cr (String b t))).
    destruct (Ascii.eqb a CR); [exact IH|].
    rewrite last_char_cons; [exact IH|].
    intros E. rewrite E in IH. discriminate.
Qed.

Lemma last_char_None s : last_char s = None -> s = EmptyString.
Proof.
  induction s as [|a s IH]; [reflexivity|].
  destruct s as [|b t]; [discriminate|].
  rewrite last_char_cons by discriminate. intros H. now apply IH in H.
Qed.

(** What [_run_cmd] does to the text at its last two lines. *)
Lemma cleaned_text text :
  has_char CR (remove_cr (rstrip_crlf text)) = false
  /\ ends_with_crlf (remove_cr (rstrip_crlf text)) = false.
Proof.
  split; [apply has_char_remove_cr|].
  unfold ends_with_crlf.
  destruct (last_char (rstrip_crlf text)) as [c|] eqn:E.
  - pose proof (rstrip_crlf_last _ _ E) as Hc.
    apply orb_false_elim in Hc as Hc'. destruct Hc' as [Hcr _].
    now rewrite (last_char_remove_cr _ _ E Hcr).
  - apply last_char_None in E. now rewrite E.
Qed.

Section ResultFacts.

Variable re_error : string -> option string.
Variable haspattern : regex -> string -> bool.
Variable findhighlight : regex -> string -> string.
Variable str_format : string -> list (string * string) -> res string.
Variable repr_patterns : list expect_pat -> string.
Variable rm_cmd_sub : string -> string -> res string.

Lemma run_cmd_Ok_inv cmd self out self' :
  _run_cmd rm_cmd_sub cmd self = (Ok out, self') ->
  exists text, out = remove_cr (rstrip_crlf text).
Proof.
  unfold _run_cmd. intros H.
  apply bind_inv_Ok in H as (u & s1 & _ & H).
  apply bind_inv_Ok in H as (p & s2 & _ & H).
  apply bind_inv_Ok in H as (i & s3 & _ & H).
  apply bind_inv_Ok in H as (c & s4 & _ & H).
  apply bind_inv_Ok in H as (o & s5 & _ & H).
  apply bind_inv_Ok in H as (text & s6 & _ & H).
  injection H as <- _. now exists text.
Qed.

Lemma filter_result_Ok_inv result key cmd expected unexpected filter_func v :
  _filter_result re_error haspattern findhighlight result key cmd expected unexpected filter_func
  = Ok v ->
  apply_filter filter_func result key cmd = Ok v
  /\ unexpected_found haspattern unexpected v = false
  /\ expected_missing haspattern expected v = false.
Proof.
  unfold _filter_result.
  destruct (apply_filter filter_func result key cmd) as [text|e]; [|discriminate].
  intros H. apply check_patterns_ok in H as (-> & Hu & He). auto.
Qed.

(** [close] changes nothing of the object but the child and the flag
    [is_connected]. *)
Lemma close_settings self r self' :
  close str_format repr_patterns self = (r, self') ->
  expected_pattern self' = expected_pattern self
  /\ unexpected_pattern self' = unexpected_pattern self
  /\ filter self' = filter self
  /\ prompt self' = prompt self
  /\ in_with self' = in_with self.
Proof.
  destruct (in_with self) eqn:Hin.
  - rewrite close_in_with by exact Hin. intros [= _ <-]. rewrite Hin. auto.
  - unfold close. unfold bind at 1. unfold get at 1. rewrite Hin.
    unfold bind at 1. unfold modify at 1.
    match goal with
    | |- ?m (set_is_connected false self) = _ -> _ =>
        assert (Hm : child_only m)
    end.
    { pose proof (child_only_expect_steps str_format repr_patterns). child_only_tac. }
    intros H. apply Hm in H. apply frame_fields in H.
    destruct H as (H1 & _ & _ & _ & H5 & _ & _ & H8 & H9 & H10).
    rewrite H1, H5, H8, H9, H10. simpl. auto.
Qed.

End ResultFacts.

(** X5. The text of a command is clean: what [_run_cmd] returns holds no
    carriage return and does not end with a line feed; and so does what
    [run] returns when no filter function is in force (the text read, or
    the sentinel of a timeout). *)
Theorem run_returns_clean_text :
  forall (re_error : string -> option string)
         (haspattern : regex -> string -> bool)
         (findhighlight : regex -> string -> string)
         (str_format : string -> list (string * string) -> res string)
         (repr_patterns : list expect_pat -> string)
         (rm_cmd_sub : string -> string -> res string)
         (cmd : option string) (self self' : Expect) (out : string),
    (_run_cmd rm_cmd_sub cmd self = (Ok out, self') ->
     has_char CR out = false /\ ends_with_crlf out = false)
    /\ (forall timeout auto_close expected unexpected filt,
           pick filt (filter self) = None ->
           run re_error haspattern findhighlight str_format repr_patterns rm_cmd_sub
               cmd timeout auto_close expected unexpected filt self = (Ok out, self') ->
           has_char CR out = false /\ ends_with_crlf out = false).
Proof.
  intros re_error haspattern findhighlight str_format repr_patterns rm_cmd_sub cmd self self' out.
  split.
  - intros H. apply run_cmd_Ok_inv in H as [text ->]. apply cleaned_text.
  - intros timeout auto_close expected unexpected filt Hf H.
    unfold run in H.
    apply bind_inv_Ok in H as (connected & s0 & Hc & H). injection Hc as <- <-.
    destruct (is_connected self); [|discriminate]. simpl in H.
    apply bind_inv_Ok in H as (text & s1 & Hread & H).
    assert (Hclean : has_char CR text = false /\ ends_with_crlf text = false).
    { apply try_except_inv_Ok in Hread as [Hmain | (e & s2 & h & _ & Hh & Hret)].
      - apply with_Timeout_inv in Hmain as (sa & sb & Hmain).
        apply run_cmd_Ok_inv in Hmain as [t ->]. apply cleaned_text.
      - unfold on_TimeoutError in Hh. destruct (is_TimeoutError e); [|discriminate].
        injection Hh as <-. injection Hret as <- _. split; reflexivity. }
    apply (child_only_run_read rm_cmd_sub), frame_fields in Hread.
    destruct Hread as (_ & _ & _ & _ & _ & _ & _ & _ & _ & Hf1).
    apply bind_inv_Ok in H as ([] & s2 & Hclose & H).
    assert (Hf2 : filter s2 = filter self).
    { rewrite <- Hf1. destruct auto_close.
      - now apply close_settings in Hclose as (_ & _ & Hk & _).
      - now injection Hclose as <-. }
    rewrite filter_with_eq in H. injection H as H _.
    apply filter_result_Ok_inv in H as (Ha & _).
    assert (Hnone : pick filt (filter s2) = None)
      by (destruct filt; simpl in *; congruence).
    rewrite Hnone in Ha. injection Ha as <-. exact Hclean.
Qed.

Lemma run_returns_clean_text_witness :
  fst (ref_run (Some "ls") 30 true Inherit Inherit Inherit (connected_session ls_stream))
  = Ok "notes.txt"
  /\ has_char CR "notes.txt" = false /\ ends_with_crlf "notes.txt" = false.
Proof.
  split; [reflexivity|].
  exact (proj2 (run_returns_clean_text
                  Reference.re_error Reference.haspattern Reference.findhighlight Reference.str_format
                  Reference.repr_patterns Reference.rm_cmd_sub
                  (Some "ls") (connected_session ls_stream)
                  (snd (ref_run (Some "ls") 30 true Inherit Inherit Inherit
                          (connected_session ls_stream)))
                  "notes.txt")
               30%Z true Inherit Inherit Inherit eq_refl eq_refl).
Defined.

(** ** The dictionary of a batch *)

Section BatchFacts.

Variable re_error : string -> option string.
Variable haspattern : regex -> string -> bool.
Variable findhighlight : regex -> string -> string.
Variable str_format : string -> list (string * string) -> res string.
Variable repr_patterns : list expect_pat -> string.
Variable rm_cmd_sub : string -> string -> res string.

(** [with_Timeout] runs its body with the alarm set, and clears it. *)
Lemma with_Timeout_inv_state {A} seconds msg (m : M A) self r self' :
  with_Timeout seconds msg m self = (r, self') ->
  exists s1,
    m (set_child (set_alarm (if (0 <? seconds)%Z then Some (seconds, msg) else None)
                            (the_child self))
                 self) = (r, s1)
    /\ self' = set_child (set_alarm None (the_child s1)) s1.
Proof.
  unfold with_Timeout. destruct (m _) as [r1 s1] eqn:E.
  intros [= <- <-]. now exists s1.
Qed.

(** What the [if k:] block stores. *)
Lemma store_inv result k cmd expected unexpected filt (dct dct1 : gmap string string)
    self self' :
  (if str_truthy k
   then let! v := filter_with re_error haspattern findhighlight result k cmd
                    expected unexpected filt in
        ret (<[k:=v]> dct)
   else ret dct) self = (Ok dct1, self') ->
  self' = self
  /\ if str_truthy k
     then exists v,
         dct1 = <[k:=v]> dct
         /\ unexpected_found haspattern (pick unexpected (unexpected_pattern self)) v = false
         /\ expected_missing haspattern (pick expected (expected_pattern self)) v = false
     else dct1 = dct.
Proof.
  destruct (str_truthy k).
  - intros H. apply bind_inv_Ok in H as (v & s1 & Hf & H). injection H as <- <-.
    rewrite filter_with_eq in Hf. injection Hf as Hf <-.
    apply filter_result_Ok_inv in Hf as (_ & Hu & He).
    split; [reflexivity|]. exists v. auto.
  - intros [= <- <-]. auto.
Qed.

(** One command of the batch. *)
Lemma mrun_step_inv k cmd timeout expected unexpected filt
    (dct dct1 : gmap string string) self self' :
  try_except
    (with_Timeout timeout "Timeout"
       (let! output := _run_cmd rm_cmd_sub cmd in
        if str_truthy k then
          let! v := filter_with re_error haspattern findhighlight output k cmd
                      expected unexpected filt in
          ret (<[k:=v]> dct)
        else ret dct))
    (on_TimeoutError
       (if str_truthy k then
          let! v := filter_with re_error haspattern findhighlight timeout_sentinel k cmd
                      expected unexpected filt in
          ret (<[k:=v]> dct)
        else ret dct)) self = (Ok dct1, self') ->
  frame self self'
  /\ if str_truthy k
     then exists v,
         dct1 = <[k:=v]> dct
         /\ unexpected_found haspattern (pick unexpected (unexpected_pattern self)) v = false
         /\ expected_missing haspattern (pick expected (expected_pattern self)) v = false
     else dct1 = dct.
Proof.
  intros H.
  assert (Hframe : frame self self').
  { match type of H with ?m self = _ => assert (Hco : child_only m) end.
    { pose proof (child_only_run_cmd rm_cmd_sub).
      pose proof (child_only_filter_with re_error haspattern findhighlight).
      unfold on_TimeoutError. child_only_tac. }
    exact (Hco _ _ _ H). }
  split; [exact Hframe|].
  apply try_except_inv_Ok in H as [Hmain | (e & s2 & h & Hraise & Hh & Hrun)].
  - apply with_Timeout_inv_state in Hmain as (s1 & Hmain & ->).
    apply bind_inv_Ok in Hmain as (output & s3 & Hcmd & Hmain).
    apply (child_only_run_cmd rm_cmd_sub), frame_fields in Hcmd.
    destruct Hcmd as (_ & _ & _ & _ & _ & _ & _ & He & Hu & _).
    apply store_inv in Hmain as [-> Hmain]. simpl in He, Hu.
    now rewrite He, Hu in Hmain.
  - unfold on_TimeoutError in Hh. destruct (is_TimeoutError e); [|discriminate].
    injection Hh as <-.
    assert (Hf2 : frame self s2).
    { match type of Hraise with ?m self = _ => assert (Hco : child_only m) end.
      { pose proof (child_only_run_cmd rm_cmd_sub).
        pose proof (child_only_filter_with re_error haspattern findhighlight).
        child_only_tac. }
      exact (Hco _ _ _ Hraise). }
    apply frame_fields in Hf2.
    destruct Hf2 as (_ & _ & _ & _ & _ & _ & _ & He & Hu & _).
    apply store_inv in Hrun as [-> Hrun].
    now rewrite He, Hu in Hrun.
Qed.

Lemma mrun_loop_entries cmds timeout expected unexpected filt :
  forall (dct dct' : gmap string string) self self',
    mrun_loop re_error haspattern findhighlight rm_cmd_sub cmds timeout expected unexpected filt
              dct self = (Ok dct', self') ->
    (forall k, is_Some (dct' !! k)
               <-> is_Some (dct !! k) \/ (k ∈ map fst cmds /\ str_truthy k = true))
    /\ (forall k v, dct' !! k = Some v ->
                    dct !! k = Some v
                    \/ (unexpected_found haspattern
                          (pick unexpected (unexpected_pattern self)) v = false
                        /\ expected_missing haspattern
                             (pick expected (expected_pattern self)) v = false)).
Proof.
  clear str_format repr_patterns.
  induction cmds as [|[k0 cmd] cmds IH]; intros dct dct' self self' H.
  - injection H as <- _. split.
    + intros k. split; [auto|]. intros [Hs|[Hin _]]; [exact Hs|].
      now apply elem_of_nil in Hin.
    + auto.
  - simpl in H. apply bind_inv_Ok in H as (dct1 & s1 & Hstep & H).
    apply mrun_step_inv in Hstep as [Hframe Hstep].
    apply IH in H as [Hkeys Hvals].
    apply frame_fields in Hframe.
    destruct Hframe as (_ & _ & _ & _ & _ & _ & _ & He & Hu & _).
    rewrite He, Hu in Hvals. simpl map.
    destruct (str_truthy k0) eqn:Hk0.
    + destruct Hstep as (v0 & -> & Hu0 & He0). split.
      * intros k. rewrite Hkeys, elem_of_cons.
        destruct (decide (k = k0)) as [->|Hne].
        -- rewrite lookup_insert_eq. split; [intros _|intros _; left; eauto].
           right. split; [now left|exact Hk0].
        -- rewrite lookup_insert_ne by congruence. intuition congruence.
      * intros k v Hv. apply Hvals in Hv as [Hv|Hv]; [|now right].
        destruct (decide (k = k0)) as [->|Hne].
        -- rewrite lookup_insert_eq in Hv. injection Hv as <-. now right.
        -- rewrite lookup_insert_ne in Hv by congruence. now left.
    + subst dct1. split; [|exact Hvals].
      intros k. rewrite Hkeys, elem_of_cons. intuition congruence.
Qed.

End BatchFacts.

(** X6. The dictionary [mrun] returns has one entry for each non-empty key
    of the commands and no other, and every value in it passed both
    pattern tests: the unexpected pattern is not found in it and the
    expected pattern is. *)
Theorem mrun_returns_validated_entries :
  forall (re_error : string -> option string)
         (haspattern : regex -> string -> bool)
         (findhighlight : regex -> string -> string)
         (str_format : string -> list (string * string) -> res string)
         (repr_patterns : list expect_pat -> string)
         (rm_cmd_sub : string -> string -> res string)
         (cmds : list (string * option string)) (timeout : Z) (auto_close : bool)
         (expected unexpected : override pat_arg) (filt : override (option filter_fn))
         (self self' : Expect) (dct : gmap string string),
    mrun re_error haspattern findhighlight str_format repr_patterns rm_cmd_sub
         cmds timeout auto_close expected unexpected filt self = (Ok dct, self') ->
    (forall k, is_Some (dct !! k) <-> k ∈ map fst cmds /\ str_truthy k = true)
    /\ (forall k v, dct !! k = Some v ->
                    unexpected_found haspattern
                      (pick unexpected (unexpected_pattern self)) v = false
                    /\ expected_missing haspattern
                         (pick expected (expected_pattern self)) v = false).
Proof.
  intros re_error haspattern findhighlight str_format repr_patterns rm_cmd_sub
         cmds timeout auto_close expected unexpected filt self self' dct H.
  unfold mrun in H.
  apply bind_inv_Ok in H as (connected & s0 & Hc & H). injection Hc as <- <-.
  destruct (is_connected self); [|discriminate]. simpl in H.
  apply bind_inv_Ok in H as (dct1 & s1 & Hloop & H).
  apply bind_inv_Ok in H as ([] & s2 & _ & H). injection H as <- _.
  apply mrun_loop_entries in Hloop as [Hkeys Hvals]. split.
  - intros k. rewrite Hkeys, lookup_empty. split.
    + intros [[x Hx]|Hin]; [discriminate|exact Hin].
    + auto.
  - intros k v Hv. apply Hvals in Hv as [Hv|Hv]; [|exact Hv].
    rewrite lookup_empty in Hv. discriminate.
Qed.

Lemma mrun_returns_validated_entries_witness :
  fst (ref_mrun quiet_batch 30 true Inherit Inherit Inherit
         (connected_session quiet_stream))
  = Ok (<["c":="3"]> (<["a":="1"]> ∅))
  /\ (unexpected_found Reference.haspattern object_unexpected_pattern "3" = false
      /\ expected_missing Reference.haspattern object_expected_pattern "3" = false).
Proof.
  split; [vm_compute; reflexivity|].
  refine (proj2 (mrun_returns_validated_entries
                   Reference.re_error Reference.haspattern Reference.findhighlight Reference.str_format
                   Reference.repr_patterns Reference.rm_cmd_sub
                   quiet_batch 30%Z true Inherit Inherit Inherit
                   (connected_session quiet_stream)
                   (snd (ref_mrun quiet_batch 30 true Inherit Inherit Inherit
                           (connected_session quiet_stream)))
                   (<["c":="3"]> (<["a":="1"]> ∅)) _) "c" "3" _).
  - vm_compute. reflexivity.
  - vm_compute. reflexivity.
Defined.

(** ** A command that gets no answer in time *)

Section TimeoutFacts.

Variable re_error : string -> option string.
Variable haspattern : regex -> string -> bool.
Variable findhighlight : regex -> string -> string.
Variable str_format : string -> list (string * string) -> res string.
Variable repr_patterns : list expect_pat -> string.
Variable rm_cmd_sub : string -> string -> res string.




End TimeoutFacts.



(** * Ranges of OIDs *)

Lemma count_char_app c s t :
  count_char c (s +:+ t) = (count_char c s + count_char c t)%nat.
Proof. induction s as [|a s IH]; simpl; [reflexivity|]. rewrite IH. lia. Qed.

Lemma count_char_absent c s : has_char c s = false -> count_char c s = 0%nat.
Proof.
  induction s as [|a s IH]; simpl; [reflexivity|].
  intros H. apply orb_false_elim in H as [Ha Hs]. rewrite Ha. now apply IH.
Qed.

Lemma has_char_app c s t : has_char c (s +:+ t) = has_char c s || has_char c t.
Proof.
  induction s as [|a s IH]; simpl; [reflexivity|]. rewrite IH. now rewrite orb_assoc.
Qed.

Lemma split_on_absent c s : has_char c s = false -> split_on c s = [s].
Proof.
  induction s as [|a s IH]; simpl; [reflexivity|].
  intros H. apply orb_false_elim in H as [Ha Hs]. rewrite Ha, (IH Hs). reflexivity.
Qed.

Lemma split_on_app c s t :
  has_char c s = false -> split_on c (s +:+ String c t) = s :: split_on c t.
Proof.
  induction s as [|a s IH]; simpl.
  - intros _. now rewrite Ascii.eqb_refl.
  - intros H. apply orb_false_elim in H as [Ha Hs]. rewrite Ha, (IH Hs). reflexivity.
Qed.

Lemma join_cons sep (x y : string) l :
  join sep (x :: y :: l) = x +:+ sep +:+ join sep (y :: l).
Proof. reflexivity. Qed.

(** Splitting at the dots what was joined with dots gives the components
    back. *)
Lemma split_join_dot l :
  l <> [] -> forallb (fun s => negb (has_char DOT s)) l = true ->
  split_on DOT (join "." l) = l.
Proof.
  induction l as [|x l IH]; [congruence|]. intros _ H. simpl in H.
  apply andb_prop in H as [Hx Hl]. apply negb_true_iff in Hx.
  destruct l as [|y l].
  - simpl. now apply split_on_absent.
  - rewrite join_cons.
    change ("." +:+ join "." (y :: l)) with (String DOT (join "." (y :: l))).
    rewrite split_on_app by exact Hx. f_equal. apply IH; [discriminate|exact Hl].
Qed.

Lemma has_char_join c sep l :
  has_char c sep = false -> forallb (fun s => negb (has_char c s)) l = true ->
  has_char c (join sep l) = false.
Proof.
  intros Hsep. induction l as [|x l IH]; [reflexivity|]. intros H. simpl in H.
  apply andb_prop in H as [Hx Hl]. apply negb_true_iff in Hx.
  destruct l as [|y l]; [exact Hx|].
  rewrite join_cons, !has_char_app, Hx, Hsep, (IH Hl). reflexivity.
Qed.

Lemma plain_components_dot l :
  forallb plain_component l = true ->
  forallb (fun s => negb (has_char DOT s)) l = true.
Proof.
  induction l as [|x l IH]; [reflexivity|]. simpl. intros H.
  apply andb_prop in H as [Hx Hl]. unfold plain_component in Hx.
  apply andb_prop in Hx as [Hd _]. now rewrite Hd, (IH Hl).
Qed.

Lemma plain_components_dash l :
  forallb plain_component l = true ->
  forallb (fun s => negb (has_char DASH s)) l = true.
Proof.
  induction l as [|x l IH]; [reflexivity|]. simpl. intros H.
  apply andb_prop in H as [Hx Hl]. unfold plain_component in Hx.
  apply andb_prop in Hx as [_ Hd]. now rewrite Hd, (IH Hl).
Qed.

(** X8. [get_oid_range] expands a range written [P.b-e.S] (components
    without dot or dash, [b] and [e] integer literals) into the OIDs
    [P.i.S] for [i] from [b] to [e], in increasing order: none when
    [b > e], and [e - b + 1] of them otherwise.  A string that does not
    hold exactly one dash raises [CollectError]. *)
Theorem oid_range_expands :
  forall (py_int : string -> res Z) (prefix suffix : list string)
         (sb se : string) (b e : Z),
    forallb plain_component (prefix ++ sb :: se :: suffix) = true ->
    py_int sb = Ok b ->
    py_int se = Ok e ->
    get_oid_range py_int (join "." (prefix ++ [sb]) +:+ "-" +:+ join "." (se :: suffix))
    = Ok (map (fun id => join "." (prefix ++ [pretty id] ++ suffix))
              (seqZ b (e + 1 - b)))
    /\ (forall oid_range,
           count_char DASH oid_range <> 1%nat ->
           get_oid_range py_int oid_range = Raise (CollectError oid_range_error)).
Proof.
  intros py_int prefix suffix sb se b e Hplain Hb He. split.
  - rewrite forallb_app in Hplain. apply andb_prop in Hplain as [Hp Hrest].
    assert (Hbegin : forallb plain_component (prefix ++ [sb]) = true).
    { rewrite forallb_app, Hp. simpl in *. apply andb_prop in Hrest as [-> _]. reflexivity. }
    assert (Hend : forallb plain_component (se :: suffix) = true).
    { simpl in *. apply andb_prop in Hrest as [_ ->]. reflexivity. }
    set (B := join "." (prefix ++ [sb])). set (E := join "." (se :: suffix)).
    assert (HB : has_char DASH B = false)
      by (apply has_char_join; [reflexivity|now apply plain_components_dash]).
    assert (HE : has_char DASH E = false)
      by (apply has_char_join; [reflexivity|now apply plain_components_dash]).
    change ("-" +:+ E) with (String DASH E).
    assert (Hcount : count_char DASH (B +:+ String DASH E) = 1%nat).
    { rewrite count_char_app.
      change (count_char DASH (String DASH E)) with (1 + count_char DASH E)%nat.
      now rewrite (count_char_absent _ _ HB), (count_char_absent _ _ HE). }
    unfold get_oid_range. rewrite Hcount. simpl Nat.eqb. cbv iota.
    rewrite (split_on_app _ _ _ HB), (split_on_absent _ _ HE).
    unfold B, E.
    rewrite (split_join_dot (prefix ++ [sb]))
      by (try (now apply plain_components_dot); now destruct prefix).
    rewrite (split_join_dot (se :: suffix))
      by (try (now apply plain_components_dot); discriminate).
    rewrite removelast_last, last_last. simpl hd. simpl tail.
    rewrite Hb, He.
    destruct (e <? b)%Z eqn:Hlt; [|reflexivity].
    apply Z.ltb_lt in Hlt. unfold seqZ.
    replace (Z.to_nat (e + 1 - b)) with 0%nat by lia. reflexivity.
  - intros oid_range Hc. unfold get_oid_range.
    apply Nat.eqb_neq in Hc. now rewrite Hc.
Qed.

Lemma oid_range_expands_witness :
  get_oid_range decimal_int "1.3.6.1.2-4.0"
  = Ok ["1.3.6.1.2.0"; "1.3.6.1.3.0"; "1.3.6.1.4.0"].
Proof.
  exact (proj1 (oid_range_expands decimal_int ["1"; "3"; "6"; "1"] ["0"] "2" "4" 2 4
                  eq_refl eq_refl eq_refl)).
Defined.

(** * Local commands *)

Lemma splitlines_from_nil s : forall cur,
  splitlines_from cur s = [] -> s = EmptyString /\ cur = EmptyString.
Proof.
  induction s as [|c s IH]; intros cur; simpl.
  - destruct cur; [auto|discriminate].
  - destruct (is_linebreak c).
    + destruct s as [|c' s']; [discriminate|].
      destruct (Ascii.eqb c CR && Ascii.eqb c' LF); discriminate.
    + intros H. apply IH in H as [_ H]. discriminate.
Qed.

(** Only the empty text has no line. *)
Lemma splitlines_nil s : splitlines s = [] -> s = EmptyString.
Proof. intros H. now apply splitlines_from_nil in H. Qed.

Section LocalFacts.

Variable re_error : string -> option string.
Variable haspattern : regex -> string -> bool.
Variable findhighlight : regex -> string -> string.
Variable str_format : string -> list (string * string) -> res string.
Variable py_str_list : list string -> string.
Variable bytes_repr : string -> string.
Variable popen : list string -> option string -> res (string * string * Z).

Local Abbreviation runshex_ :=
  (runshex re_error haspattern findhighlight str_format py_str_list bytes_repr popen).
Local Abbreviation runsh_ :=
  (runsh re_error haspattern findhighlight str_format py_str_list bytes_repr popen).

Lemma format_all_length l context : forall l',
  format_all str_format l context = Ok l' -> length l' = length l.
Proof.
  induction l as [|i l IH]; simpl; intros l'.
  - now intros [= <-].
  - destruct (str_format i context) as [i'|e]; [|discriminate].
    destruct (format_all str_format l context) as [r|e]; [|discriminate].
    intros [= <-]. simpl. now rewrite (IH r).
Qed.

(** Every process is started under the [timeout] command. *)
Lemma prepare_argv cmd context timeout cmd' argv :
  sh_cmd_truthy cmd = true ->
  prepare str_format cmd context timeout = Ok (cmd', argv) ->
  hd EmptyString argv = "timeout".
Proof.
  destruct cmd as [s|l]; simpl.
  - intros _. destruct (if context_truthy context then _ else _) as [s'|e]; [|discriminate].
    now intros [= _ <-].
  - intros Hl.
    destruct (if context_truthy context then _ else _) as [l'|e] eqn:E; [|discriminate].
    assert (Hlen : length l' = length l).
    { destruct (context_truthy context); [now apply format_all_length in E|].
      now injection E as <-. }
    destruct l as [|x l]; [discriminate|].
    destruct l' as [|first l']; [discriminate|].
    destruct (String.eqb first "timeout") eqn:Ef; intros [= _ <-]; [|reflexivity].
    now apply String.eqb_eq in Ef.
Qed.

(** What [runshex] leaves on the process side. *)
Lemma runshex_host cmd context timeout expected unexpected filt key unexpected_stderr
    h r h' :
  runshex_ cmd context timeout expected unexpected filt key unexpected_stderr h = (r, h') ->
  (r = ShRaise (InvalidCommandError "Command is empty") /\ h' = h
   /\ sh_cmd_truthy cmd = false)
  \/ (sh_cmd_truthy cmd = true /\ alarm h' = None
      /\ (started h' = started h
          \/ exists argv,
               hd EmptyString argv = "timeout"
               /\ started h'
                  = started h ++ [(argv, command_alarm py_str_list timeout cmd)])).
Proof.
  unfold runshex. destruct (sh_cmd_truthy cmd) eqn:Hc; simpl.
  - intros H. right. split; [reflexivity|].
    destruct (prepare str_format cmd context timeout) as [[cmd' argv]|e] eqn:Ep.
    + pose proof (prepare_argv _ _ _ _ _ Hc Ep) as Hhd.
      destruct (popen argv _) as [[[out err] rc]|e].
      * destruct (unexpected_stderr && str_truthy err);
          [|destruct (_filter_result _ _ _ _ _ _ _ _ _)];
          injection H as _ <-; (split; [reflexivity|right; eauto]).
      * injection H as _ <-. split; [reflexivity|right; eauto].
    + injection H as _ <-. split; [reflexivity|now left].
  - intros [= <- <-]. left. auto.
Qed.

(** What [runshex] returned went through the filter. *)
Lemma runshex_Ok_inv cmd context timeout expected unexpected filt key unexpected_stderr
    h v err rc h' :
  runshex_ cmd context timeout expected unexpected filt key unexpected_stderr h
  = (ShOk (v, err, rc), h') ->
  exists cmd' argv out,
    prepare str_format cmd context timeout = Ok (cmd', argv)
    /\ popen argv (command_alarm py_str_list timeout cmd) = Ok (out, err, rc)
    /\ unexpected_stderr && str_truthy err = false
    /\ _filter_result re_error haspattern findhighlight out key
         (Some (cmd_in_result py_str_list bytes_repr cmd')) expected unexpected filt
       = Ok v.
Proof.
  unfold runshex. destruct (sh_cmd_truthy cmd); simpl; [|discriminate].
  destruct (prepare str_format cmd context timeout) as [[cmd' argv]|e]; [|discriminate].
  destruct (popen argv _) as [[[out err0] rc0]|e] eqn:Ep; [|discriminate].
  destruct (unexpected_stderr && str_truthy err0) eqn:Es; [discriminate|].
  destruct (_filter_result _ _ _ _ _ _ _ _ _) as [v0|e] eqn:Ef; [|discriminate].
  intros [= <- <- <- _]. exists cmd', argv, out. auto.
Qed.

Lemma runsh_Ok_inv cmd context timeout expected unexpected filt key h lines h' :
  runsh_ cmd context timeout expected unexpected filt key h = (ShOk lines, h') ->
  exists v err rc,
    runshex_ cmd context timeout expected unexpected filt key false h
    = (ShOk (v, err, rc), h')
    /\ lines = splitlines v.
Proof.
  unfold runsh.
  destruct (runshex_ cmd context timeout expected unexpected filt key false h)
    as [[[[v err] rc]|e] h1]; [|discriminate].
  intros [= <- <-]. eauto.
Qed.

(** A text in which a truthy expected pattern is found, when the
    pattern is not found in the empty text, has a line. *)
Lemma accepted_text_has_line expected v :
  pat_truthy expected = true ->
  haspattern (pat_compile expected) EmptyString = false ->
  expected_missing haspattern expected v = false ->
  exists l ls, splitlines v = l :: ls.
Proof.
  intros Ht He Hm. unfold expected_missing in Hm. rewrite Ht in Hm. simpl in Hm.
  apply negb_false_iff in Hm.
  destruct (splitlines v) as [|l ls] eqn:E; [|eauto].
  apply splitlines_nil in E. subst v. congruence.
Qed.

End LocalFacts.

(** X9. [runsh] never returns an empty list when the expected pattern is
    one that the empty text does not match, as the default [\S]: a command
    that prints nothing on its standard output raises, and whatever is
    returned has a line. *)
Theorem runsh_returns_a_line :
  forall (re_error : string -> option string)
         (haspattern : regex -> string -> bool)
         (findhighlight : regex -> string -> string)
         (str_format : string -> list (string * string) -> res string)
         (py_str_list : list string -> string) (bytes_repr : string -> string)
         (popen : list string -> option string -> res (string * string * Z))
         (cmd : sh_cmd) (context : list (string * string)) (timeout : Z)
         (expected unexpected : pat_arg) (filt : option filter_fn) (key : string)
         (h h' : host) (lines : list string),
    pat_truthy expected = true ->
    haspattern (pat_compile expected) EmptyString = false ->
    runsh re_error haspattern findhighlight str_format py_str_list bytes_repr popen
          cmd context timeout expected unexpected filt key h = (ShOk lines, h') ->
    exists l ls, lines = l :: ls.
Proof.
  intros re_error haspattern findhighlight str_format py_str_list bytes_repr popen
         cmd context timeout expected unexpected filt key h h' lines Ht He H.
  apply runsh_Ok_inv in H as (v & err & rc & H & ->).
  apply runshex_Ok_inv in H as (cmd' & argv & out & _ & _ & _ & Hf).
  apply filter_result_Ok_inv in Hf as (_ & _ & Hm).
  exact (accepted_text_has_line haspattern expected v Ht He Hm).
Qed.

Lemma runsh_returns_a_line_witness :
  exists l ls, ["Wed Dec 16 11:50:08 CET 2015"] = l :: ls.
Proof.
  exact (runsh_returns_a_line
           Reference.re_error Reference.haspattern Reference.findhighlight Reference.str_format
           demo_str_list demo_bytes_repr demo_popen
           (ShStr "date") [] 30 (PStr "\S") PNone None EmptyString
           idle_host
           (snd (demo_runsh (ShStr "date") [] 30 (PStr "\S") PNone None EmptyString
                   idle_host))
           ["Wed Dec 16 11:50:08 CET 2015"] eq_refl eq_refl eq_refl).
Defined.

(** X10. [is_ping_ok] returns [False] when the alarm ends the command, and
    [rc == 0] when [ping] printed something on its standard output and
    nothing on its standard error; when [ping] prints on its standard
    error, or nothing at all, it does not return [False]: it raises
    [UnexpectedResultError]. *)
Theorem ping_outcomes :
  forall (re_error : string -> option string)
         (haspattern : regex -> string -> bool)
         (findhighlight : regex -> string -> string)
         (str_format : string -> list (string * string) -> res string)
         (py_str_list : list string -> string) (bytes_repr : string -> string)
         (popen : list string -> option string -> res (string * string * Z))
         (ip : string) (timeout : Z) (h : host) (outcome : res (string * string * Z)),
    re_error "\S" = None ->
    popen ["timeout"; seconds_arg timeout; "sh"; "-c"; "ping -c 1 " +:+ ip]
          (command_alarm py_str_list timeout (ShStr ("ping -c 1 " +:+ ip)))
    = outcome ->
    match outcome with
    | Raise (TimeoutError _) =>
        fst (is_ping_ok re_error haspattern findhighlight str_format py_str_list bytes_repr popen
               ip timeout h) = ShOk false
    | Raise e =>
        fst (is_ping_ok re_error haspattern findhighlight str_format py_str_list bytes_repr popen
               ip timeout h) = ShRaise (Collect e)
    | Ok (out, err, rc) =>
        if str_truthy err || negb (haspattern (compiled "\S") out)
        then exists msg,
            fst (is_ping_ok re_error haspattern findhighlight str_format py_str_list bytes_repr
                   popen ip timeout h)
            = ShRaise (Collect (UnexpectedResultError msg))
        else fst (is_ping_ok re_error haspattern findhighlight str_format py_str_list bytes_repr
                    popen ip timeout h) = ShOk (rc =? 0)%Z
    end.
Proof.
  intros re_error haspattern findhighlight str_format py_str_list bytes_repr popen
         ip timeout h outcome Hcompiles Hp.
  unfold is_ping_ok, runshex.
  change (sh_cmd_truthy (ShStr ("ping -c 1 " +:+ ip))) with true.
  simpl negb. cbv iota. simpl prepare. cbv iota beta.
  rewrite Hp. destruct outcome as [[[out err] rc]|e].
  - destruct (str_truthy err) eqn:Herr; simpl.
    + eexists. reflexivity.
    + unfold _filter_result, apply_filter, check_patterns, check_unexpected,
        check_expected, compile_pattern, re_compile. simpl. rewrite Hcompiles.
      destruct (haspattern (compiled "\S") out); simpl; [reflexivity|].
      eexists. reflexivity.
  - destruct e; reflexivity.
Qed.

Lemma ping_outcomes_witness :
  exists msg,
    fst (demo_is_ping_ok "nowhere" 10 idle_host)
    = ShRaise (Collect (UnexpectedResultError msg)).
Proof.
  exact (ping_outcomes
           Reference.re_error Reference.haspattern Reference.findhighlight Reference.str_format
           demo_str_list demo_bytes_repr demo_popen "nowhere" 10 idle_host
           (Ok (EmptyString, line "ping: nowhere: Name or service not known", 2%Z))
           eq_refl eq_refl).
Defined.

Section BatchOfLocalCommands.

Variable re_error : string -> option string.
Variable haspattern : regex -> string -> bool.
Variable findhighlight : regex -> string -> string.
Variable str_format : string -> list (string * string) -> res string.
Variable py_str_list : list string -> string.
Variable bytes_repr : string -> string.
Variable popen : list string -> option string -> res (string * string * Z).

Local Abbreviation mrunsh_loop_ :=
  (mrunsh_loop re_error haspattern findhighlight str_format py_str_list bytes_repr popen).

Lemma runsh_host cmd context timeout expected unexpected filt key h r h' :
  runsh re_error haspattern findhighlight str_format py_str_list bytes_repr popen
        cmd context timeout expected unexpected filt key h = (r, h') ->
  exists r0,
    runshex re_error haspattern findhighlight str_format py_str_list bytes_repr popen
            cmd context timeout expected unexpected filt key false h = (r0, h').
Proof.
  unfold runsh.
  destruct (runshex _ _ _ _ _ _ _ _ _ _ _ _ _ _ _ _) as [[[[v err] rc]|e] h1];
    intros [= _ <-]; eauto.
Qed.

Lemma mrunsh_loop_host cmds context cmd_timeout expected unexpected filt :
  forall dct h r h',
    mrunsh_loop_ cmds context cmd_timeout expected unexpected filt dct h = (r, h') ->
    exists new,
      started h' = started h ++ new
      /\ (length new <= length cmds)%nat
      /\ Forall (started_by py_str_list cmds cmd_timeout) new.
Proof.
  induction cmds as [|[k cmd] cmds IH]; intros dct h r h' H; simpl in H.
  - injection H as _ <-. exists []. rewrite app_nil_r. auto.
  - destruct (runsh _ _ _ _ _ _ _ _ _ _ _ _ _ _ h) as [r1 h1] eqn:E.
    destruct (runsh_host _ _ _ _ _ _ _ _ _ _ E) as [r0 E0].
    apply runshex_host in E0.
    assert (Hmono : forall p, started_by py_str_list cmds cmd_timeout p ->
                              started_by py_str_list ((k, cmd) :: cmds) cmd_timeout p).
    { intros p [Hhd (k' & cmd' & Hin & Hp)]. split; [exact Hhd|].
      exists k', cmd'. split; [now apply elem_of_cons; right|exact Hp]. }
    assert (Hfirst : exists new1,
               started h1 = started h ++ new1 /\ (length new1 <= 1)%nat
               /\ Forall (started_by py_str_list ((k, cmd) :: cmds) cmd_timeout) new1).
    { destruct E0 as [(_ & -> & _)|(_ & _ & [Hs|(argv & Hhd & Hs)])].
      - exists []. rewrite app_nil_r. simpl. auto.
      - exists []. rewrite Hs, app_nil_r. simpl. auto.
      - exists [(argv, command_alarm py_str_list cmd_timeout cmd)].
        split; [exact Hs|]. split; [simpl; lia|].
        constructor; [|constructor]. split; [exact Hhd|].
        exists k, cmd. split; [apply elem_of_cons; now left|reflexivity]. }
    destruct Hfirst as (new1 & Hs1 & Hl1 & Hf1).
    destruct r1 as [lines|e].
    + apply IH in H as (new & Hs & Hl & Hf).
      exists (new1 ++ new). rewrite Hs, Hs1, app_assoc. split; [reflexivity|].
      split; [rewrite length_app; simpl; lia|].
      apply Forall_app. split; [exact Hf1|].
      eapply Forall_impl; [exact Hf|exact Hmono].
    + injection H as _ <-. exists new1. split; [exact Hs1|].
      split; [simpl; lia|exact Hf1].
Qed.

Lemma mrunsh_loop_entries cmds context cmd_timeout expected unexpected filt :
  forall (dct dct' : gmap string (list string)) h h',
    mrunsh_loop_ cmds context cmd_timeout expected unexpected filt dct h
    = (ShOk dct', h') ->
    (forall k, is_Some (dct' !! k) <-> is_Some (dct !! k) \/ k ∈ map fst cmds)
    /\ (forall k lines, dct' !! k = Some lines ->
          dct !! k = Some lines
          \/ exists v, lines = splitlines v
                       /\ unexpected_found haspattern unexpected v = false
                       /\ expected_missing haspattern expected v = false).
Proof.
  induction cmds as [|[k0 cmd] cmds IH]; intros dct dct' h h' H; simpl in H.
  - injection H as <- _. split.
    + intros k. split; [auto|]. intros [Hs|Hin]; [exact Hs|].
      now apply elem_of_nil in Hin.
    + auto.
  - destruct (runsh _ _ _ _ _ _ _ _ _ _ _ _ _ _ h) as [[lines0|e] h1] eqn:E;
      [|discriminate].
    apply runsh_Ok_inv in E as (v0 & err & rc & E & ->).
    apply runshex_Ok_inv in E as (cmd' & argv & out & _ & _ & _ & Hf).
    apply filter_result_Ok_inv in Hf as (_ & Hu & He).
    apply IH in H as [Hkeys Hvals]. simpl map. split.
    + intros k. rewrite Hkeys, elem_of_cons.
      destruct (decide (k = k0)) as [->|Hne].
      * rewrite lookup_insert_eq. split; [intros _; right; now left|intros _; left; eauto].
      * rewrite lookup_insert_ne by congruence. intuition congruence.
    + intros k lines Hl. apply Hvals in Hl as [Hl|Hl]; [|now right].
      destruct (decide (k = k0)) as [->|Hne].
      * rewrite lookup_insert_eq in Hl. injection Hl as <-. right. eauto.
      * rewrite lookup_insert_ne in Hl by congruence. now left.
Qed.

End BatchOfLocalCommands.

(** X11. Every process [mrunsh] starts runs under the [timeout] command
    and under the alarm of its own command: [Timeout] holds one alarm, so
    the alarm of [total_timeout] is replaced when the first command starts
    and is never the one armed while a command runs.  At most one process
    is started for each command, and no alarm is left armed. *)
Theorem mrunsh_processes_and_alarms :
  forall (re_error : string -> option string)
         (haspattern : regex -> string -> bool)
         (findhighlight : regex -> string -> string)
         (str_format : string -> list (string * string) -> res string)
         (py_str_list : list string -> string) (bytes_repr : string -> string)
         (popen : list string -> option string -> res (string * string * Z))
         (py_str_cmds : list (string * sh_cmd) -> string)
         (cmds : list (string * sh_cmd)) (context : list (string * string))
         (cmd_timeout total_timeout : Z) (expected unexpected : pat_arg)
         (filt : option filter_fn) (h : host),
    let after :=
      snd (mrunsh re_error haspattern findhighlight str_format py_str_list bytes_repr popen
                  py_str_cmds cmds context cmd_timeout total_timeout
                  expected unexpected filt h) in
    alarm after = None
    /\ exists new,
         started after = started h ++ new
         /\ (length new <= length cmds)%nat
         /\ Forall (started_by py_str_list cmds cmd_timeout) new.
Proof.
  intros re_error haspattern findhighlight str_format py_str_list bytes_repr popen py_str_cmds
         cmds context cmd_timeout total_timeout expected unexpected filt h after.
  unfold after, mrunsh.
  destruct (mrunsh_loop _ _ _ _ _ _ _ _ _ _ _ _ _ _ _) as [r h1] eqn:E.
  split; [reflexivity|].
  apply mrunsh_loop_host in E. exact E.
Qed.

(** X12. The dictionary [mrunsh] returns has an entry for every key of the
    commands, the empty key included, and no other; every value is the
    list of the lines of a text that passed both pattern tests. *)
Theorem mrunsh_returns_validated_lines :
  forall (re_error : string -> option string)
         (haspattern : regex -> string -> bool)
         (findhighlight : regex -> string -> string)
         (str_format : string -> list (string * string) -> res string)
         (py_str_list : list string -> string) (bytes_repr : string -> string)
         (popen : list string -> option string -> res (string * string * Z))
         (py_str_cmds : list (string * sh_cmd) -> string)
         (cmds : list (string * sh_cmd)) (context : list (string * string))
         (cmd_timeout total_timeout : Z) (expected unexpected : pat_arg)
         (filt : option filter_fn) (h h' : host) (dct : gmap string (list string)),
    mrunsh re_error haspattern findhighlight str_format py_str_list bytes_repr popen
           py_str_cmds cmds context cmd_timeout total_timeout
           expected unexpected filt h = (ShOk dct, h') ->
    (forall k, is_Some (dct !! k) <-> k ∈ map fst cmds)
    /\ (forall k lines, dct !! k = Some lines ->
          exists v, lines = splitlines v
                    /\ unexpected_found haspattern unexpected v = false
                    /\ expected_missing haspattern expected v = false).
Proof.
  intros re_error haspattern findhighlight str_format py_str_list bytes_repr popen py_str_cmds
         cmds context cmd_timeout total_timeout expected unexpected filt h h' dct H.
  unfold mrunsh in H.
  destruct (mrunsh_loop _ _ _ _ _ _ _ _ _ _ _ _ _ _ _) as [r h1] eqn:E.
  injection H as -> _.
  apply mrunsh_loop_entries in E as [Hkeys Hvals]. split.
  - intros k. rewrite Hkeys, lookup_empty. split; [|auto].
    intros [[x Hx]|Hin]; [discriminate|exact Hin].
  - intros k lines Hl. apply Hvals in Hl as [Hl|Hl]; [|exact Hl].
    rewrite lookup_empty in Hl. discriminate.
Qed.

Lemma mrunsh_returns_validated_lines_witness :
  fst (demo_mrunsh two_commands [] 30 60 (PStr "\S") PNone None idle_host)
  = ShOk (<["quisuisje":=["elapouya"]]> (<["now":=["Wed Dec 16 11:50:08 CET 2015"]]> ∅))
  /\ exists v, ["elapouya"] = splitlines v
               /\ unexpected_found Reference.haspattern PNone v = false
               /\ expected_missing Reference.haspattern (PStr "\S") v = false.
Proof.
  split; [vm_compute; reflexivity|].
  refine (proj2 (mrunsh_returns_validated_lines
                   Reference.re_error Reference.haspattern Reference.findhighlight Reference.str_format
                   demo_str_list demo_bytes_repr demo_popen demo_str_cmds
                   two_commands [] 30 60 (PStr "\S") PNone None idle_host
                   (snd (demo_mrunsh two_commands [] 30 60 (PStr "\S") PNone None
                           idle_host))
                   (<["quisuisje":=["elapouya"]]>
                      (<["now":=["Wed Dec 16 11:50:08 CET 2015"]]> ∅)) _)
                "quisuisje" ["elapouya"] _).
  - vm_compute. reflexivity.
  - vm_compute. reflexivity.
Defined.

(** * Ports *)

Lemma split_join c l :
  l <> [] -> forallb (fun s => negb (has_char c s)) l = true ->
  split_on c (join (str1 c) l) = l.
Proof.
  induction l as [|x l IH]; [congruence|]. intros _ H. simpl in H.
  apply andb_prop in H as [Hx Hl]. apply negb_true_iff in Hx.
  destruct l as [|y l].
  - simpl. now apply split_on_absent.
  - rewrite join_cons.
    change (str1 c +:+ join (str1 c) (y :: l)) with (String c (join (str1 c) (y :: l))).
    rewrite split_on_app by exact Hx. f_equal. apply IH; [discriminate|exact Hl].
Qed.

Lemma try_ports_spec connects ip ports : forall tried0,
  match try_ports connects ip ports tried0 with
  | (None, tried) =>
      tried = tried0 ++ ports /\ forallb (connects ip) ports = true
  | (Some p, tried) =>
      exists before after,
        ports = before ++ p :: after
        /\ tried = tried0 ++ before ++ [p]
        /\ forallb (connects ip) before = true
        /\ connects ip p = false
  end.
Proof.
  induction ports as [|port ports IH]; intros tried0; simpl.
  - now rewrite app_nil_r.
  - destruct (connects ip port) eqn:Ec.
    + specialize (IH (tried0 ++ [port])).
      destruct (try_ports connects ip ports (tried0 ++ [port])) as [[p|] tried].
      * destruct IH as (before & after & -> & -> & Hb & Hp).
        exists (port :: before), after. simpl. rewrite Ec, Hb, <- app_assoc. auto.
      * destruct IH as [-> Hall]. now rewrite <- app_assoc.
    + exists [], ports. simpl. auto.
Qed.

(** X13. [search_invalid_port] returns the first port of the list that
    does not connect, having tried the ports up to that one and no port
    after it, and [None] when every port connects, having tried them all;
    the [str] form of the ports, numbers between commas, gives what the
    list of these numbers gives. *)
Theorem first_invalid_port :
  forall (py_int : string -> res Z) (connects : string -> Z -> bool)
         (ip : string) (ns : list string) (ports : list Z),
    ns <> [] ->
    forallb (fun s => negb (has_char COMMA s)) ns = true ->
    ints_of py_int ns = Ok ports ->
    exists r tried,
      search_invalid_port py_int connects ip (PortsStr (join "," ns)) = Ok (r, tried)
      /\ search_invalid_port py_int connects ip (PortsList ports) = Ok (r, tried)
      /\ match r with
         | None => tried = ports /\ forallb (connects ip) ports = true
         | Some p =>
             exists before after,
               ports = before ++ p :: after
               /\ tried = before ++ [p]
               /\ forallb (connects ip) before = true
               /\ connects ip p = false
         end.
Proof.
  intros py_int connects ip ns ports Hne Hplain Hints.
  pose proof (try_ports_spec connects ip ports []) as Hspec.
  destruct (try_ports connects ip ports []) as [r tried] eqn:E.
  exists r, tried. unfold search_invalid_port.
  change (join "," ns) with (join (str1 COMMA) ns).
  rewrite (split_join COMMA ns Hne Hplain), Hints, E.
  split; [reflexivity|]. split; [reflexivity|].
  destruct r as [p|]; exact Hspec.
Qed.

Lemma first_invalid_port_witness :
  exists r tried,
    search_invalid_port decimal_int dns_and_web "8.8.8.8" (PortsStr "53,22,80")
    = Ok (r, tried)
    /\ search_invalid_port decimal_int dns_and_web "8.8.8.8" (PortsList [53; 22; 80]%Z)
       = Ok (r, tried)
    /\ match r with
       | None => tried = [53; 22; 80]%Z
                 /\ forallb (dns_and_web "8.8.8.8") [53; 22; 80]%Z = true
       | Some p =>
           exists before after,
             [53; 22; 80]%Z = before ++ p :: after
             /\ tried = before ++ [p]
             /\ forallb (dns_and_web "8.8.8.8") before = true
             /\ dns_and_web "8.8.8.8" p = false
       end.
Proof.
  refine (first_invalid_port decimal_int dns_and_web "8.8.8.8" ["53"; "22"; "80"]
            [53; 22; 80]%Z _ eq_refl eq_refl).
  discriminate.
Defined.

(** * Http *)

Section HttpFacts.

Variable re_error : string -> option string.
Variable haspattern : regex -> string -> bool.
Variable findhighlight : regex -> string -> string.
Variable session_get : string -> http_reply.

Lemma http_get_requested url requested r requested' :
  Http._get session_get url requested = (r, requested') ->
  requested' = requested ++ [url].
Proof.
  unfold Http._get. destruct (session_get url) as [s t|e|e]; now intros [= _ <-].
Qed.

(** The urls [mget] requests are those whose key is not empty, in the
    order of the items. *)
Lemma mget_loop_requested self urls expected unexpected filt :
  forall dct requested dct' requested',
    Http.mget_loop re_error haspattern findhighlight session_get self urls expected unexpected
                   filt dct requested = (Ok dct', requested') ->
    requested'
    = requested ++ map snd (List.filter (fun item => str_truthy (fst item)) urls)
    /\ (forall k, is_Some (dct' !! k)
                  <-> is_Some (dct !! k) \/ (k ∈ map fst urls /\ str_truthy k = true)).
Proof.
  induction urls as [|[k0 url] urls IH]; intros dct requested dct' requested' H;
    simpl in H.
  - injection H as <- <-. rewrite app_nil_r. split; [reflexivity|].
    intros k. split; [auto|]. intros [Hs|[Hin _]]; [exact Hs|].
    now apply elem_of_nil in Hin.
  - simpl. destruct (str_truthy k0) eqn:Hk0.
    + destruct (Http._get session_get url requested) as [[out|e] r1] eqn:Eg;
        [|discriminate].
      apply http_get_requested in Eg. subst r1.
      destruct (_filter_result _ _ _ _ _ _ _ _ _) as [v|e]; [|discriminate].
      apply IH in H as [-> Hkeys]. simpl. rewrite <- app_assoc. split; [reflexivity|].
      intros k. rewrite Hkeys, elem_of_cons.
      destruct (decide (k = k0)) as [->|Hne].
      * rewrite lookup_insert_eq. split; [intros _|intros _; left; eauto].
        right. split; [now left|exact Hk0].
      * rewrite lookup_insert_ne by congruence. intuition congruence.
    + apply IH in H as [-> Hkeys]. split; [reflexivity|].
      intros k. rewrite Hkeys, elem_of_cons. intuition congruence.
Qed.

End HttpFacts.

(** X14. With an expected pattern that the empty text does not match (as
    the default [\S]) and no filter function, [Http.get] returns only
    pages answered with status 200, unchanged: another status is an empty
    page, which the filter refuses; [requests.Timeout] becomes
    [ConnectionError]. *)
Theorem http_get_returns_pages_of_status_200 :
  forall (re_error : string -> option string)
         (haspattern : regex -> string -> bool)
         (findhighlight : regex -> string -> string)
         (session_get : string -> http_reply)
         (self : Http) (url : string) (expected unexpected : override pat_arg)
         (filt : override (option filter_fn)) (requested : list string),
    pat_truthy (pick expected (http_expected_pattern self)) = true ->
    haspattern (pat_compile (pick expected (http_expected_pattern self))) EmptyString
    = false ->
    pick filt (http_filter self) = None ->
    (forall v,
        fst (Http.get re_error haspattern findhighlight session_get self url
                      expected unexpected filt requested) = Ok v ->
        session_get url = Reply 200 v)
    /\ (forall e,
           session_get url = TimedOut e ->
           fst (Http.get re_error haspattern findhighlight session_get self url
                         expected unexpected filt requested)
           = Raise (ConnectionError e)).
Proof.
  intros re_error haspattern findhighlight session_get self url expected unexpected filt
         requested Ht He Hf.
  unfold Http.get, Http._get. split.
  - intros v. destruct (session_get url) as [s t|e|e]; simpl; [|discriminate..].
    intros H. apply filter_result_Ok_inv in H as (Ha & _ & Hm).
    rewrite Hf in Ha. injection Ha as Ha.
    unfold expected_missing in Hm. rewrite Ht in Hm. simpl in Hm.
    apply negb_false_iff in Hm.
    destruct (s =? 200)%Z eqn:Es.
    + apply Z.eqb_eq in Es. now subst.
    + subst v. congruence.
  - intros e ->. reflexivity.
Qed.

Lemma http_get_returns_pages_of_status_200_witness :
  one_page "http://localhost/status" = Reply 200 "OK".
Proof.
  exact (proj1 (http_get_returns_pages_of_status_200
                  Reference.re_error Reference.haspattern Reference.findhighlight one_page
                  default_http "http://localhost/status" Inherit Inherit Inherit []
                  eq_refl eq_refl eq_refl) "OK" eq_refl).
Defined.

(** X15. [Http.mget] requests the urls whose key is not empty, in the
    order of the items, and no other: an url with an empty key is never
    requested.  The dictionary it returns has an entry for each of these
    keys and no other. *)
Theorem mget_requests_keyed_urls :
  forall (re_error : string -> option string)
         (haspattern : regex -> string -> bool)
         (findhighlight : regex -> string -> string)
         (session_get : string -> http_reply)
         (self : Http) (urls : list (string * string))
         (expected unexpected : override pat_arg) (filt : override (option filter_fn))
         (requested requested' : list string) (dct : gmap string string),
    Http.mget re_error haspattern findhighlight session_get self urls expected unexpected filt
              requested = (Ok dct, requested') ->
    requested'
    = requested ++ map snd (List.filter (fun item => str_truthy (fst item)) urls)
    /\ (forall k, is_Some (dct !! k) <-> k ∈ map fst urls /\ str_truthy k = true).
Proof.
  intros re_error haspattern findhighlight session_get self urls expected unexpected filt
         requested requested' dct H.
  unfold Http.mget in H. apply mget_loop_requested in H as [-> Hkeys].
  split; [reflexivity|].
  intros k. rewrite Hkeys, lookup_empty. split; [|auto].
  intros [[x Hx]|Hin]; [discriminate|exact Hin].
Qed.

Lemma mget_requests_keyed_urls_witness :
  snd (Http.mget Reference.re_error Reference.haspattern Reference.findhighlight one_page default_http
         [("status", "http://localhost/status"); (EmptyString, "http://localhost/other")]
         Inherit Inherit Inherit [])
  = [] ++ map snd (List.filter (fun item : string * string => str_truthy (fst item))
                     [("status", "http://localhost/status");
                      (EmptyString, "http://localhost/other")]).
Proof.
  refine (proj1 (mget_requests_keyed_urls
                   Reference.re_error Reference.haspattern Reference.findhighlight one_page default_http
                   [("status", "http://localhost/status");
                    (EmptyString, "http://localhost/other")]
                   Inherit Inherit Inherit []
                   (snd (Http.mget Reference.re_error Reference.haspattern Reference.findhighlight one_page
                           default_http
                           [("status", "http://localhost/status");
                            (EmptyString, "http://localhost/other")]
                           Inherit Inherit Inherit []))
                   (<["status":="OK"]> ∅) _)).
  vm_compute. reflexivity.
Defined.
